(** * Emergency-Service-Readiness-Dashboard: readiness task and live dashboard

    A shallow embedding of
    - [data-pipeline/snowflake/03_streams_and_tasks.sql]: the warehouse task
      [process_personnel_readiness_task], the view
      [certification_expiration_summary] and the task
      [process_certification_expirations_task];
    - [dashboard/app/readiness/page.tsx]: the WebSocket effect of
      [ReadinessPage] (registry of connections, message handler, alerts).

    Tables are lists of rows, a query is a function on tables, SQL [NULL] is
    [None], timestamps are integers (seconds), and the page state is threaded
    explicitly through the effect and the event handlers. *)

From stdpp Require Import gmap strings list sorting.
From Stdlib Require Import ZArith Lia.

(** * Part I: the program *)

(** ** Generic SQL operators used by the tasks *)

Module Sql.

Section relational.
Context {A B : Type}.

(** [l JOIN r ON on]: inner join, left operand in the outer loop. *)
Definition join (on : A → B → Prop) `{!∀ a b, Decision (on a b)}
    (l : list A) (r : list B) : list (A * B) :=
  a ← l; (λ b, (a, b)) <$> filter (on a) r.

(** [l LEFT JOIN r ON on]: a left row without partner is kept once, with
    [NULL] for the right columns. *)
Definition left_join (on : A → B → Prop) `{!∀ a b, Decision (on a b)}
    (l : list A) (r : list B) : list (A * option B) :=
  a ← l;
  match filter (on a) r with
  | [] => [(a, None)]
  | bs => (λ b, (a, Some b)) <$> bs
  end.

End relational.

(** [x BETWEEN lo AND hi] is [lo <= x AND x <= hi]: both bounds belong to
    the range. *)
Definition between (x lo hi : Z) : Prop := (lo ≤ x ∧ x ≤ hi)%Z.

(** [MAX(e)]: [NULL] on an empty group, the greatest value otherwise. *)
Definition max {A} (le : relation A) `{!RelDecision le} (l : list A) : option A :=
  foldr (λ x acc,
           match acc with
           | None => Some x
           | Some y => Some (if decide (le x y) then y else x)
           end) None l.

(** [COUNT(DISTINCT e)]: [NULL] values of [e] are not counted. *)
Definition count_distinct {A K} `{!EqDecision K} (e : A → option K) (l : list A) : Z :=
  Z.of_nat (length (remove_dups (omap e l))).

(** [ARRAY_AGG(DISTINCT e) WITHIN GROUP (ORDER BY e)] over the non-[NULL]
    values of [e]; the array is empty when there is none. *)
Definition array_agg_distinct {A} (e : A → option string) (l : list A) : list string :=
  merge_sort String.le (remove_dups (omap e l)).

(** Three-valued logic: a comparison with [NULL] is unknown ([None]); a
    [WHEN] or [WHERE] clause takes a row only when its condition is true. *)
Definition and3 (a b : option bool) : option bool :=
  match a, b with
  | Some false, _ | _, Some false => Some false
  | Some true, Some true => Some true
  | _, _ => None
  end.
Definition is_true3 (c : option bool) : bool := default false c.

(** [a >= b], [a < b] with a nullable right operand. *)
Definition ge3 (a : Z) (b : option Z) : option bool := (λ m, bool_decide (m ≤ a)%Z) <$> b.
Definition lt3 (a : Z) (b : option Z) : option bool := (λ m, bool_decide (a < m)%Z) <$> b.

(** [a != b] with a nullable left operand. *)
Definition ne3 (a : option string) (b : string) : option bool :=
  (λ s, bool_decide (s ≠ b)) <$> a.

(** [a >= b * 0.8]: the product is an exact decimal with one fractional
    digit, so the comparison is the one of [10 * a] with [8 * b]. *)
Definition ge3_times_0_8 (a : Z) (b : option Z) : option bool :=
  (λ m, bool_decide (8 * m ≤ 10 * a)%Z) <$> b.

End Sql.

(** ** The warehouse: [03_streams_and_tasks.sql] *)

Module Warehouse.

(** *** Tables of schema [RAW]

    Only the columns the tasks read or write are kept. Identifiers and
    statuses are strings, [ARRAY] columns are lists of strings (a [NULL]
    array flattens to no row, like the empty one), [cert_expirations] is the
    list of the (certification, expiry) pairs of the [VARIANT] object.
    [availability_status] is [VARCHAR(25) DEFAULT 'AVAILABLE'] without
    [NOT NULL]: it can be [NULL]. *)

Module PERSONNEL.
Record row := mk {
  personnel_id : string;
  name : string;
  role : string;
  certifications : list string;
  cert_expirations : list (string * Z);
  availability_status : option string;
  updated_at : Z }.
#[global] Instance row_eq_dec : EqDecision row.
Proof. solve_decision. Defined.
End PERSONNEL.

Module UNITS.
Record row := mk {
  unit_id : string;
  unit_name : string;
  type : string;
  minimum_staff : Z;
  required_certifications : list string }.
#[global] Instance row_eq_dec : EqDecision row.
Proof. solve_decision. Defined.
End UNITS.

Module UNIT_ASSIGNMENTS.
Record row := mk {
  unit_id : string;
  personnel_id : string;
  shift_start : Z;
  shift_end : Z;
  assignment_status : string }.
#[global] Instance row_eq_dec : EqDecision row.
Proof. solve_decision. Defined.
End UNIT_ASSIGNMENTS.

Record RAW := mkRAW {
  RAW_PERSONNEL : list PERSONNEL.row;
  RAW_UNITS : list UNITS.row;
  RAW_UNIT_ASSIGNMENTS : list UNIT_ASSIGNMENTS.row }.

(** *** [process_personnel_readiness_task]: the [USING] query of the MERGE *)

(** Rows of the CTE [current_assignments]. *)
Module ca.
Record row := mk {
  unit_id : string;
  assignment_status : string;
  shift_start : Z;
  shift_end : Z;
  personnel_id : string;
  availability_status : option string;
  certifications : list string;
  cert_expirations : list (string * Z);
  unit_name : string;
  type : string;
  minimum_staff : Z;
  required_certifications : list string }.
#[global] Instance row_eq_dec : EqDecision row.
Proof. solve_decision. Defined.
End ca.

(** [ON ua.personnel_id = p.personnel_id] and [ON ua.unit_id = u.unit_id]. *)
Definition on_personnel (ua : UNIT_ASSIGNMENTS.row) (p : PERSONNEL.row) : Prop :=
  UNIT_ASSIGNMENTS.personnel_id ua = PERSONNEL.personnel_id p.
Definition on_unit (uap : UNIT_ASSIGNMENTS.row * PERSONNEL.row) (u : UNITS.row) : Prop :=
  UNIT_ASSIGNMENTS.unit_id uap.1 = UNITS.unit_id u.

(** [WHERE ua.assignment_status = 'ON_SHIFT'
      AND CURRENT_TIMESTAMP() BETWEEN ua.shift_start AND ua.shift_end]. *)
Definition where_current (now : Z) (ua : UNIT_ASSIGNMENTS.row) : Prop :=
  UNIT_ASSIGNMENTS.assignment_status ua = "ON_SHIFT" ∧
  Sql.between now (UNIT_ASSIGNMENTS.shift_start ua) (UNIT_ASSIGNMENTS.shift_end ua).

#[global] Instance on_personnel_dec ua p : Decision (on_personnel ua p).
Proof. unfold on_personnel. apply _. Defined.
#[global] Instance on_unit_dec uap u : Decision (on_unit uap u).
Proof. unfold on_unit. apply _. Defined.
#[global] Instance where_current_dec now ua : Decision (where_current now ua).
Proof. unfold where_current, Sql.between. apply _. Defined.

Definition select_ca (j : UNIT_ASSIGNMENTS.row * PERSONNEL.row * UNITS.row) : ca.row :=
  let '(ua, p, u) := j in
  {| ca.unit_id := UNIT_ASSIGNMENTS.unit_id ua;
     ca.assignment_status := UNIT_ASSIGNMENTS.assignment_status ua;
     ca.shift_start := UNIT_ASSIGNMENTS.shift_start ua;
     ca.shift_end := UNIT_ASSIGNMENTS.shift_end ua;
     ca.personnel_id := PERSONNEL.personnel_id p;
     ca.availability_status := PERSONNEL.availability_status p;
     ca.certifications := PERSONNEL.certifications p;
     ca.cert_expirations := PERSONNEL.cert_expirations p;
     ca.unit_name := UNITS.unit_name u;
     ca.type := UNITS.type u;
     ca.minimum_staff := UNITS.minimum_staff u;
     ca.required_certifications := UNITS.required_certifications u |}.

(** [WITH current_assignments AS (SELECT DISTINCT ... )]. *)
Definition current_assignments (now : Z) (db : RAW) : list ca.row :=
  remove_dups
    (select_ca <$>
       filter (λ j, where_current now j.1.1)
         (Sql.join on_unit
            (Sql.join on_personnel (RAW_UNIT_ASSIGNMENTS db) (RAW_PERSONNEL db))
            (RAW_UNITS db))).

(** The subquery [missing_cert]: one row (unit, person, cert) for every
    certification the person's unit requires and that is [NOT IN] the
    person's own [certifications] array. *)
Module missing_cert.
Record row := mk { unit_id : string; personnel_id : string; cert : string }.
#[global] Instance row_eq_dec : EqDecision row.
Proof. solve_decision. Defined.
End missing_cert.

Definition missing_cert_rows (cas : list ca.row) : list missing_cert.row :=
  remove_dups
    (ca2 ← cas;
     req_cert ← filter (λ c, c ∉ ca.certifications ca2) (ca.required_certifications ca2);
     [missing_cert.mk (ca.unit_id ca2) (ca.personnel_id ca2) req_cert]).

Definition on_missing_cert (r : ca.row) (m : missing_cert.row) : Prop :=
  ca.unit_id r = missing_cert.unit_id m ∧ ca.personnel_id r = missing_cert.personnel_id m.
#[global] Instance on_missing_cert_dec r m : Decision (on_missing_cert r m).
Proof. unfold on_missing_cert. apply _. Defined.

(** Rows of the CTE [unit_readiness]: one per [unit_id] group. *)
Module ur.
Record row := mk {
  unit_id : string;
  unit_name : option string;
  type : option string;
  minimum_staff : option Z;
  current_staff : Z;
  available_staff : Z;
  missing_certs : list string }.
End ur.

Definition joined := (ca.row * option missing_cert.row)%type.

Definition aggregate (unit_id : string) (g : list joined) : ur.row :=
  {| ur.unit_id := unit_id;
     ur.unit_name := Sql.max String.le ((λ j, ca.unit_name j.1) <$> g);
     ur.type := Sql.max String.le ((λ j, ca.type j.1) <$> g);
     ur.minimum_staff := Sql.max Z.le ((λ j, ca.minimum_staff j.1) <$> g);
     ur.current_staff := Sql.count_distinct (λ j, Some (ca.personnel_id j.1)) g;
     ur.available_staff :=
       Sql.count_distinct
         (λ j, if decide (ca.availability_status j.1 = Some "AVAILABLE")
               then Some (ca.personnel_id j.1) else None) g;
     ur.missing_certs :=
       Sql.array_agg_distinct (λ j, missing_cert.cert <$> j.2) g |}.

(** [FROM current_assignments ca LEFT JOIN (...) missing_cert ON ...
     GROUP BY ca.unit_id]. *)
Definition unit_readiness (cas : list ca.row) : list ur.row :=
  let js := Sql.left_join on_missing_cert cas (missing_cert_rows cas) in
  (λ k, aggregate k (filter (λ j, ca.unit_id j.1 = k) js))
    <$> remove_dups ((λ j, ca.unit_id j.1) <$> js).

(** The [CASE ... END as readiness_score]: the branches are tried in order.
    [ARRAY_AGG] never yields [NULL], so [missing_certs IS NULL OR
    ARRAY_SIZE(missing_certs) = 0] is the emptiness test. *)
Definition readiness_score (r : ur.row) : Z :=
  let cur_ok := Sql.ge3 (ur.current_staff r) (ur.minimum_staff r) in
  let avail_ok := Sql.ge3 (ur.available_staff r) (ur.minimum_staff r) in
  let no_missing := Some (bool_decide (ur.missing_certs r = [])) in
  if Sql.is_true3 (Sql.and3 (Sql.and3 cur_ok avail_ok) no_missing) then 100
  else if Sql.is_true3 (Sql.and3 cur_ok avail_ok) then 85
  else if Sql.is_true3 cur_ok then 70
  else if Sql.is_true3 (Sql.ge3_times_0_8 (ur.current_staff r) (ur.minimum_staff r)) then 50
  else 30.

(** [CASE WHEN ur.current_staff < ur.minimum_staff THEN TRUE ELSE FALSE END]. *)
Definition understaffed_flag (r : ur.row) : bool :=
  if Sql.is_true3 (Sql.lt3 (ur.current_staff r) (ur.minimum_staff r)) then true else false.

(** Rows of [source], the snapshot of one unit. *)
Module source.
Record row := mk {
  unit_id : string;
  date : Z;
  calculated_at : Z;
  unit_name : option string;
  type : option string;
  minimum_staff : option Z;
  current_staff : Z;
  available_staff : Z;
  readiness_score : Z;
  missing_certifications : list string;
  understaffed_flag : bool }.
End source.

(** [CURRENT_DATE()], in days, for timestamps in seconds. *)
Definition CURRENT_DATE (now : Z) : Z := (now `div` 86400)%Z.

Definition select_source (now : Z) (r : ur.row) : source.row :=
  {| source.unit_id := ur.unit_id r;
     source.date := CURRENT_DATE now;
     source.calculated_at := now;
     source.unit_name := ur.unit_name r;
     source.type := ur.type r;
     source.minimum_staff := ur.minimum_staff r;
     source.current_staff := ur.current_staff r;
     source.available_staff := ur.available_staff r;
     source.readiness_score := readiness_score r;
     (* COALESCE(ur.missing_certs, ARRAY_CONSTRUCT()) *)
     source.missing_certifications := ur.missing_certs r;
     source.understaffed_flag := understaffed_flag r |}.

(** The snapshots one run of the task computes at time [now]. *)
Definition process_personnel_readiness (now : Z) (db : RAW) : list source.row :=
  select_source now <$> unit_readiness (current_assignments now db).

(** *** [process_personnel_readiness_task]: the MERGE into
    [ANALYTICS.UNIT_READINESS_AGGREGATES] *)

Module target.
Record row := mk {
  unit_id : string;
  date : Z;
  calculated_at : Z;
  unit_name : option string;
  type : option string;
  minimum_staff : option Z;
  current_staff : Z;
  available_staff : Z;
  readiness_score : Z;
  missing_certifications : list string;
  understaffed_flag : bool;
  last_updated : Z }.
End target.

(** [ON target.unit_id = source.unit_id AND target.date = source.date]. *)
Definition on_target (t : target.row) (s : source.row) : Prop :=
  target.unit_id t = source.unit_id s ∧ target.date t = source.date s.
#[global] Instance on_target_dec t s : Decision (on_target t s).
Proof. unfold on_target. apply _. Defined.

(** [WHEN MATCHED THEN UPDATE SET ...]: [unit_name], [type] and
    [minimum_staff] are not in the [SET] list. *)
Definition update_set (now : Z) (t : target.row) (s : source.row) : target.row :=
  {| target.unit_id := target.unit_id t;
     target.date := target.date t;
     target.calculated_at := source.calculated_at s;
     target.unit_name := target.unit_name t;
     target.type := target.type t;
     target.minimum_staff := target.minimum_staff t;
     target.current_staff := source.current_staff s;
     target.available_staff := source.available_staff s;
     target.readiness_score := source.readiness_score s;
     target.missing_certifications := source.missing_certifications s;
     target.understaffed_flag := source.understaffed_flag s;
     target.last_updated := now |}.

(** [WHEN NOT MATCHED THEN INSERT (...) VALUES (...)]; [last_updated] takes
    its default, the current time. *)
Definition insert_values (now : Z) (s : source.row) : target.row :=
  {| target.unit_id := source.unit_id s;
     target.date := source.date s;
     target.calculated_at := source.calculated_at s;
     target.unit_name := source.unit_name s;
     target.type := source.type s;
     target.minimum_staff := source.minimum_staff s;
     target.current_staff := source.current_staff s;
     target.available_staff := source.available_staff s;
     target.readiness_score := source.readiness_score s;
     target.missing_certifications := source.missing_certifications s;
     target.understaffed_flag := source.understaffed_flag s;
     target.last_updated := now |}.

(** The MERGE. The source has one row per unit, so a target row has at most
    one partner; the first one is taken. *)
Definition merge_readiness (now : Z) (tgt : list target.row) (src : list source.row)
    : list target.row :=
  ((λ t, match filter (on_target t) src with
         | s :: _ => update_set now t s
         | [] => t
         end) <$> tgt) ++
  (insert_values now <$> filter (λ s, Forall (λ t, ¬ on_target t s) tgt) src).

(** One run of the task on the aggregates table. *)
Definition process_personnel_readiness_task (now : Z) (db : RAW) (tgt : list target.row)
    : list target.row :=
  merge_readiness now tgt (process_personnel_readiness now db).

(** *** The view [current_unit_readiness] *)

(** [CASE WHEN ura.readiness_score >= 85 THEN 'READY'
          WHEN ura.readiness_score >= 60 THEN 'NEEDS_ATTENTION'
          ELSE 'CRITICAL' END as readiness_status]. *)
Definition readiness_status (readiness_score : Z) : string :=
  if bool_decide (85 ≤ readiness_score)%Z then "READY"
  else if bool_decide (60 ≤ readiness_score)%Z then "NEEDS_ATTENTION"
  else "CRITICAL".

(** Rows of the view; [station_id], a column of UNITS that is not kept
    here, is left out. *)
Module current_readiness.
Record row := mk {
  unit_id : string;
  unit_name : option string;
  type : option string;
  minimum_staff : option Z;
  current_staff : Z;
  available_staff : Z;
  readiness_score : Z;
  missing_certifications : list string;
  understaffed_flag : bool;
  calculated_at : Z;
  readiness_status : string }.
End current_readiness.

(** [SELECT MAX(calculated_at) FROM UNIT_READINESS_AGGREGATES
     WHERE unit_id = ura.unit_id AND date = CURRENT_DATE()]. *)
Definition latest_calculated_at (now : Z) (tgt : list target.row) (unit_id : string)
    : option Z :=
  Sql.max Z.le
    (target.calculated_at <$>
       filter (λ t, target.unit_id t = unit_id ∧ target.date t = CURRENT_DATE now) tgt).

(** [ON ura.unit_id = u.unit_id]. *)
Definition on_units (ura : target.row) (u : UNITS.row) : Prop :=
  target.unit_id ura = UNITS.unit_id u.
#[global] Instance on_units_dec ura u : Decision (on_units ura u).
Proof. unfold on_units. apply _. Defined.

(** [WHERE ura.date = CURRENT_DATE() AND ura.calculated_at = (SELECT MAX ...)]. *)
Definition where_latest (now : Z) (tgt : list target.row) (ura : target.row) : Prop :=
  target.date ura = CURRENT_DATE now ∧
  latest_calculated_at now tgt (target.unit_id ura) = Some (target.calculated_at ura).
#[global] Instance where_latest_dec now tgt ura : Decision (where_latest now tgt ura).
Proof. unfold where_latest. apply _. Defined.

Definition select_current_readiness (j : target.row * UNITS.row) : current_readiness.row :=
  let ura := j.1 in
  {| current_readiness.unit_id := target.unit_id ura;
     current_readiness.unit_name := target.unit_name ura;
     current_readiness.type := target.type ura;
     current_readiness.minimum_staff := target.minimum_staff ura;
     current_readiness.current_staff := target.current_staff ura;
     current_readiness.available_staff := target.available_staff ura;
     current_readiness.readiness_score := target.readiness_score ura;
     current_readiness.missing_certifications := target.missing_certifications ura;
     current_readiness.understaffed_flag := target.understaffed_flag ura;
     current_readiness.calculated_at := target.calculated_at ura;
     current_readiness.readiness_status := readiness_status (target.readiness_score ura) |}.

(** [FROM UNIT_READINESS_AGGREGATES ura JOIN RAW.UNITS u ON ... WHERE ...]. *)
Definition current_unit_readiness (now : Z) (db : RAW) (tgt : list target.row)
    : list current_readiness.row :=
  select_current_readiness <$>
    filter (λ j, where_latest now tgt j.1) (Sql.join on_units tgt (RAW_UNITS db)).

(** *** The view [certification_expiration_summary] *)

(** [DATEDIFF(day, a, b)]: the number of day boundaries from [a] to [b]. *)
Definition DATEDIFF_day (a b : Z) : Z := (CURRENT_DATE b - CURRENT_DATE a)%Z.

Module expiration_summary.
Record row := mk {
  personnel_id : string;
  name : string;
  role : string;
  certification_name : string;
  expiration_date : Z;
  days_until_expiry : Z;
  status : string }.
End expiration_summary.

(** [CASE WHEN expiration < now THEN 'EXPIRED'
          WHEN DATEDIFF(day, now, expiration) <= 30 THEN 'EXPIRING_SOON'
          ELSE 'VALID' END]. *)
Definition expiration_status (now expiration_date : Z) : string :=
  if bool_decide (expiration_date < now)%Z then "EXPIRED"
  else if bool_decide (DATEDIFF_day now expiration_date ≤ 30)%Z then "EXPIRING_SOON"
  else "VALID".

Definition by_expiration_date : relation expiration_summary.row :=
  λ r1 r2, (expiration_summary.expiration_date r1 ≤ expiration_summary.expiration_date r2)%Z.
#[global] Instance by_expiration_date_dec : RelDecision by_expiration_date.
Proof. intros r1 r2. unfold by_expiration_date. apply _. Defined.

(** [FROM RAW.PERSONNEL p, LATERAL FLATTEN(INPUT => p.cert_expirations) cert
     ORDER BY expiration_date ASC]. *)
Definition certification_expiration_summary (now : Z) (db : RAW) : list expiration_summary.row :=
  merge_sort by_expiration_date
    (p ← RAW_PERSONNEL db;
     cert ← PERSONNEL.cert_expirations p;
     [{| expiration_summary.personnel_id := PERSONNEL.personnel_id p;
         expiration_summary.name := PERSONNEL.name p;
         expiration_summary.role := PERSONNEL.role p;
         expiration_summary.certification_name := cert.1;
         expiration_summary.expiration_date := cert.2;
         expiration_summary.days_until_expiry := DATEDIFF_day now cert.2;
         expiration_summary.status := expiration_status now cert.2 |}]).

(** *** [process_certification_expirations_task] *)

(** [WHERE EXISTS (SELECT 1 FROM LATERAL FLATTEN(INPUT => p.cert_expirations) cert_exp
      WHERE cert_exp.value::STRING::TIMESTAMP_NTZ < CURRENT_TIMESTAMP()
        AND p.availability_status != 'IN_TRAINING')]. With a [NULL] status
    the comparison is unknown, the inner [WHERE] takes no row and the
    person is not updated. *)
Definition where_expired (now : Z) (p : PERSONNEL.row) : Prop :=
  Exists (λ cert_exp : string * Z,
            Sql.is_true3
              (Sql.and3 (Some (bool_decide (cert_exp.2 < now)%Z))
                        (Sql.ne3 (PERSONNEL.availability_status p) "IN_TRAINING"))
            = true)
         (PERSONNEL.cert_expirations p).
#[global] Instance where_expired_dec now p : Decision (where_expired now p).
Proof. unfold where_expired. apply _. Defined.

(** [SET availability_status = 'IN_TRAINING', updated_at = CURRENT_TIMESTAMP()]. *)
Definition set_in_training (now : Z) (p : PERSONNEL.row) : PERSONNEL.row :=
  {| PERSONNEL.personnel_id := PERSONNEL.personnel_id p;
     PERSONNEL.name := PERSONNEL.name p;
     PERSONNEL.role := PERSONNEL.role p;
     PERSONNEL.certifications := PERSONNEL.certifications p;
     PERSONNEL.cert_expirations := PERSONNEL.cert_expirations p;
     PERSONNEL.availability_status := Some "IN_TRAINING";
     PERSONNEL.updated_at := now |}.

(** [UPDATE RAW.PERSONNEL p SET ... WHERE EXISTS (...)]: the table after one
    run of the task; the other tables are not written. *)
Definition process_certification_expirations (now : Z) (db : RAW) : RAW :=
  {| RAW_PERSONNEL :=
       (λ p, if decide (where_expired now p) then set_in_training now p else p)
         <$> RAW_PERSONNEL db;
     RAW_UNITS := RAW_UNITS db;
     RAW_UNIT_ASSIGNMENTS := RAW_UNIT_ASSIGNMENTS db |}.

(** *** Notions used to state the properties *)

(** A person row [p] is on shift on the unit row [u] at [now] through the
    assignment [ua]: the three rows join and [ua] passes the [WHERE]. *)
Definition on_shift_through (now : Z) (db : RAW)
    (ua : UNIT_ASSIGNMENTS.row) (p : PERSONNEL.row) (u : UNITS.row) : Prop :=
  ua ∈ RAW_UNIT_ASSIGNMENTS db ∧ p ∈ RAW_PERSONNEL db ∧ u ∈ RAW_UNITS db ∧
  UNIT_ASSIGNMENTS.personnel_id ua = PERSONNEL.personnel_id p ∧
  UNIT_ASSIGNMENTS.unit_id ua = UNITS.unit_id u ∧
  where_current now ua.

(** One more row in UNIT_ASSIGNMENTS, the other tables as they are. *)
Definition add_assignment (ua : UNIT_ASSIGNMENTS.row) (db : RAW) : RAW :=
  {| RAW_PERSONNEL := RAW_PERSONNEL db;
     RAW_UNITS := RAW_UNITS db;
     RAW_UNIT_ASSIGNMENTS := RAW_UNIT_ASSIGNMENTS db ++ [ua] |}.

(** The assignment [ua] is counted for its unit: [current_assignments] has
    a row with its unit, person, window and status. *)
Definition counts_toward_staffing (now : Z) (db : RAW) (ua : UNIT_ASSIGNMENTS.row) : Prop :=
  ∃ r, r ∈ current_assignments now db ∧
       ca.unit_id r = UNIT_ASSIGNMENTS.unit_id ua ∧
       ca.personnel_id r = UNIT_ASSIGNMENTS.personnel_id ua ∧
       ca.shift_start r = UNIT_ASSIGNMENTS.shift_start ua ∧
       ca.shift_end r = UNIT_ASSIGNMENTS.shift_end ua ∧
       ca.assignment_status r = UNIT_ASSIGNMENTS.assignment_status ua.

(** The persons counted for a unit: those of its rows in
    [current_assignments], each once. *)
Definition staff_of (now : Z) (db : RAW) (unit_id : string) : list string :=
  remove_dups (ca.personnel_id <$> filter (λ r, ca.unit_id r = unit_id)
                                          (current_assignments now db)).

(** Some certification of [p] has its recorded expiry before [now]. *)
Definition has_expired_certification (now : Z) (p : PERSONNEL.row) : Prop :=
  ∃ c t, (c, t) ∈ PERSONNEL.cert_expirations p ∧ (t < now)%Z.

(** Two tables hold the same rows, in whatever order and number. *)
Definition same_rows {A} (t1 t2 : list A) : Prop := ∀ x, x ∈ t1 ↔ x ∈ t2.

(** The columns of PERSONNEL the readiness task aggregates. *)
Definition readiness_columns (p : PERSONNEL.row) : string * option string * list string :=
  (PERSONNEL.personnel_id p, PERSONNEL.availability_status p, PERSONNEL.certifications p).

(** Two databases the readiness task cannot tell apart: the same units and
    assignments, and the same persons as far as [readiness_columns] go. *)
Definition same_for_readiness (db1 db2 : RAW) : Prop :=
  same_rows (readiness_columns <$> RAW_PERSONNEL db1)
            (readiness_columns <$> RAW_PERSONNEL db2) ∧
  same_rows (RAW_UNITS db1) (RAW_UNITS db2) ∧
  same_rows (RAW_UNIT_ASSIGNMENTS db1) (RAW_UNIT_ASSIGNMENTS db2).

(** The columns of [current_assignments] the aggregates of
    [unit_readiness] read. *)
Definition aggregated_columns (r : ca.row)
    : string * string * option string * list string * string * string * Z * list string :=
  (ca.unit_id r, ca.personnel_id r, ca.availability_status r, ca.certifications r,
   ca.unit_name r, ca.type r, ca.minimum_staff r, ca.required_certifications r).

(** The same without [availability_status]. *)
Definition staffing_columns (r : ca.row)
    : string * string * list string * string * string * Z * list string :=
  (ca.unit_id r, ca.personnel_id r, ca.certifications r,
   ca.unit_name r, ca.type r, ca.minimum_staff r, ca.required_certifications r).

(** The snapshot [s'] is the snapshot [s] of the same unit with possibly
    fewer available persons and a lower score; all else is equal. *)
Definition lowered (s s' : source.row) : Prop :=
  source.unit_id s' = source.unit_id s ∧
  source.unit_name s' = source.unit_name s ∧
  source.type s' = source.type s ∧
  source.minimum_staff s' = source.minimum_staff s ∧
  source.current_staff s' = source.current_staff s ∧
  source.missing_certifications s' = source.missing_certifications s ∧
  source.understaffed_flag s' = source.understaffed_flag s ∧
  (source.available_staff s' ≤ source.available_staff s)%Z ∧
  (source.readiness_score s' ≤ source.readiness_score s)%Z.

(** The group of a unit in [unit_readiness]. *)
Definition group_of (cas : list ca.row) (unit_id : string) : list joined :=
  filter (λ j : joined, ca.unit_id j.1 = unit_id)
         (Sql.left_join on_missing_cert cas (missing_cert_rows cas)).

End Warehouse.

(** ** The readiness page: [dashboard/app/readiness/page.tsx] *)

Module Dashboard.

Record AssignedPersonnel := mkAssignedPersonnel {
  personnel_id : string;
  name : string;
  role : string;
  certifications : list string }.

Record UnitReadiness := mkUnitReadiness {
  unit_id : string;
  unit_name : string;
  unit_type : string;
  readiness_score : Z;
  staff_required : Z;
  staff_present : Z;
  certifications_missing : list string;
  expired_certifications : list string;
  is_understaffed : bool;
  issues : list string;
  assigned_personnel : list AssignedPersonnel;
  timestamp : string }.

(** [ToastMessage]; the random [id] of a toast is left out. *)
Inductive ToastType := error | warning | info | success.
Record ToastMessage := mkToast { message : string; type : ToastType }.

#[global] Instance ToastType_eq_dec : EqDecision ToastType.
Proof. solve_decision. Defined.
#[global] Instance ToastMessage_eq_dec : EqDecision ToastMessage.
Proof. solve_decision. Defined.

(** [WebSocket.readyState]. *)
Inductive ReadyState := CONNECTING | OPEN | CLOSING | CLOSED.
#[global] Instance ReadyState_eq_dec : EqDecision ReadyState.
Proof. solve_decision. Defined.

Record WebSocket := mkWebSocket { url : string; readyState : ReadyState }.
#[global] Instance WebSocket_eq_dec : EqDecision WebSocket.
Proof. solve_decision. Defined.

(** The state of [ReadinessPage] the effect and the handlers touch.
    [sockets] holds every [WebSocket] object created so far; an object is
    named by its position, and [wsConnectionsRef] (the [Map] of the ref)
    sends a unit id to the object registered for it. *)
Record page := mkPage {
  units : list UnitReadiness;
  wsConnected : gset string;
  toasts : list ToastMessage;
  wsConnectionsRef : gmap string nat;
  sockets : list WebSocket }.

(** [`${wsUrl}/ws/unit-readiness/${unit.unit_id}`], with [wsUrl] the API base
    URL after its scheme was replaced. *)
Definition unit_readiness_url (wsUrl unit_id : string) : string :=
  wsUrl +:+ "/ws/unit-readiness/" +:+ unit_id.

(** [ws.readyState === WebSocket.OPEN || ws.readyState === WebSocket.CONNECTING]. *)
Definition open_or_connecting (ws : WebSocket) : bool :=
  bool_decide (readyState ws = OPEN) || bool_decide (readyState ws = CONNECTING).

(** [ws.close()] on an object that is OPEN or CONNECTING: the object enters
    CLOSING. *)
Definition close (ws : WebSocket) : WebSocket :=
  {| url := url ws; readyState := CLOSING |}.

(** [if (ws.readyState === OPEN || ws.readyState === CONNECTING) ws.close()]
    for the object at position [h]. *)
Definition close_if_live (h : nat) (ss : list WebSocket) : list WebSocket :=
  match ss !! h with
  | Some ws => if open_or_connecting ws then <[h := close ws]> ss else ss
  | None => ss
  end.

(** One turn of [wsConnectionsRef.current.forEach((ws, unitId) => ...)]
    in the clean-up of units that no longer exist. *)
Definition stale_step (currentUnitIds : gset string) (entry : string * nat) (st : page) : page :=
  let '(unitId, ws) := entry in
  if decide (unitId ∈ currentUnitIds) then st
  else
    {| units := units st;
       wsConnected := wsConnected st ∖ {[unitId]};
       toasts := toasts st;
       wsConnectionsRef := delete unitId (wsConnectionsRef st);
       sockets := close_if_live ws (sockets st) |}.

(** The whole loop; the turns for different entries commute, so the order
    in which the map is walked does not matter. *)
Definition close_stale (currentUnitIds : gset string) (st : page) : page :=
  foldr (stale_step currentUnitIds) st (map_to_list (wsConnectionsRef st)).

(** [new WebSocket(url)] followed by [wsConnectionsRef.current.set(unit_id, ws)]:
    the new object is CONNECTING. *)
Definition open_channel (wsUrl unit_id : string) (st : page) : page :=
  {| units := units st;
     wsConnected := wsConnected st;
     toasts := toasts st;
     wsConnectionsRef := <[unit_id := length (sockets st)]> (wsConnectionsRef st);
     sockets := sockets st ++ [mkWebSocket (unit_readiness_url wsUrl unit_id) CONNECTING] |}.

(** One turn of [units.forEach((unit) => ...)]: return early only when the
    registered object is OPEN. (A registered position always names an
    object; the last-but-one branch is there for totality.) *)
Definition subscribe (wsUrl unit_id : string) (st : page) : page :=
  match wsConnectionsRef st !! unit_id with
  | Some h =>
      match sockets st !! h with
      | Some existingWs =>
          if bool_decide (readyState existingWs = OPEN) then st
          else open_channel wsUrl unit_id st
      | None => open_channel wsUrl unit_id st
      end
  | None => open_channel wsUrl unit_id st
  end.

(** The body of the effect "Connect WebSockets after units are loaded". *)
Definition connect_effect (wsUrl : string) (st : page) : page :=
  match units st with
  | [] => st
  | _ =>
      let currentUnitIds : gset string := list_to_set (unit_id <$> units st) in
      foldl (λ st unit, subscribe wsUrl (unit_id unit) st)
            (close_stale currentUnitIds st) (units st)
  end.

(** The clean-up the effect returns: close what is registered, clear the map. *)
Definition effect_cleanup (st : page) : page :=
  {| units := units st;
     wsConnected := wsConnected st;
     toasts := toasts st;
     wsConnectionsRef := ∅;
     sockets := foldr (λ entry ss, close_if_live entry.2 ss) (sockets st)
                      (map_to_list (wsConnectionsRef st)) |}.

(** [ws.onopen], [ws.onerror] and [ws.onclose] of the object created for
    [unit_id]. *)
Definition ws_onopen (unit_id : string) (st : page) : page :=
  {| units := units st;
     wsConnected := wsConnected st ∪ {[unit_id]};
     toasts := toasts st;
     wsConnectionsRef := wsConnectionsRef st;
     sockets := sockets st |}.

Definition ws_onerror (unit_id : string) (st : page) : page :=
  {| units := units st;
     wsConnected := wsConnected st ∖ {[unit_id]};
     toasts := toasts st;
     wsConnectionsRef := wsConnectionsRef st;
     sockets := sockets st |}.

Definition ws_onclose (unit_id : string) (st : page) : page :=
  {| units := units st;
     wsConnected := wsConnected st ∖ {[unit_id]};
     toasts := toasts st;
     wsConnectionsRef := delete unit_id (wsConnectionsRef st);
     sockets := sockets st |}.

(** The three alerts of [ws.onmessage]. *)
Definition understaffed_toast (newData : UnitReadiness) : ToastMessage :=
  mkToast ("🚨 " +:+ unit_name newData +:+ " is now UNDERSTAFFED!") error.
Definition expired_toast (newData : UnitReadiness) : ToastMessage :=
  mkToast ("⏰ " +:+ unit_name newData +:+ " has expired certifications!") warning.
Definition missing_toast (newData : UnitReadiness) : ToastMessage :=
  mkToast ("📛 " +:+ unit_name newData +:+ " is missing required certifications!") warning.

(** The alerts raised when [newData] replaces [oldUnit]; without an old
    entry ([if (oldUnit)]) nothing is raised. *)
Definition alerts (oldUnit : option UnitReadiness) (newData : UnitReadiness) : list ToastMessage :=
  match oldUnit with
  | Some oldUnit =>
      (if is_understaffed newData && negb (is_understaffed oldUnit)
       then [understaffed_toast newData] else []) ++
      (if bool_decide (length (expired_certifications oldUnit)
                       < length (expired_certifications newData))
       then [expired_toast newData] else []) ++
      (if bool_decide (length (certifications_missing oldUnit)
                       < length (certifications_missing newData))
       then [missing_toast newData] else [])
  | None => []
  end.

(** [prev.find((u) => u.unit_id === id)]: the first entry for the unit. *)
Definition find_unit (id : string) (prev : list UnitReadiness) : option UnitReadiness :=
  snd <$> list_find (λ u, unit_id u = id) prev.

(** The updater passed to [setUnits]: the new list and the toasts added. *)
Definition update_units (newData : UnitReadiness) (prev : list UnitReadiness)
    : list UnitReadiness * list ToastMessage :=
  let oldUnit := find_unit (unit_id newData) prev in
  let updated := (λ u, if decide (unit_id u = unit_id newData) then newData else u) <$> prev in
  (updated, alerts oldUnit newData).

(** A parsed message [{type, data}] whose [data] is a [UnitReadiness], as
    the server sends them. *)
Record Message := mkMessage { msg_type : string; data : UnitReadiness }.

(** [ws.onmessage] on such a message; [None] stands for a payload
    [JSON.parse] rejects. What the handler does with any other text is
    [ws_onmessage_json] below. *)
Definition ws_onmessage (event : option Message) (st : page) : page :=
  match event with
  | Some message =>
      if decide (msg_type message = "unit_readiness") then
        let '(updated, new_toasts) := update_units (data message) (units st) in
        {| units := updated;
           wsConnected := wsConnected st;
           toasts := toasts st ++ new_toasts;
           wsConnectionsRef := wsConnectionsRef st;
           sockets := sockets st |}
      else st
  | None => st
  end.

(** [getReadinessColor]. *)
Definition getReadinessColor (score : Z) : string :=
  if bool_decide (85 ≤ score)%Z then "green"
  else if bool_decide (60 ≤ score)%Z then "yellow"
  else "red".

(** The three counters above the cards. *)
Definition totalUnits (units : list UnitReadiness) : nat := length units.
Definition readyUnits (units : list UnitReadiness) : nat :=
  length (filter (λ u, (85 ≤ readiness_score u)%Z) units).
Definition understaffedUnits (units : list UnitReadiness) : nat :=
  length (filter (λ u, is_understaffed u = true) units).

(** [fetchReadiness] when the request succeeds: [setUnits(data)]. *)
Definition set_units (data : list UnitReadiness) (st : page) : page :=
  {| units := data;
     wsConnected := wsConnected st;
     toasts := toasts st;
     wsConnectionsRef := wsConnectionsRef st;
     sockets := sockets st |}.

(** The "Create Personnel" form: the [cert_expirations] of the payload.
    [formData] gives the value of a field ([formData.get]); a date is
    recorded for each selected certification whose date field is filled, and
    the object is sent only when it has a key. *)
Definition cert_expiration_field (certName : string) : string :=
  "cert_expiration_" +:+ certName.

(** [cert_expirations[certName] = expirationDate] on the object made by
    [{}]. The assignment writes an own property, except under the name
    [__proto__]: there it reaches the setter inherited from
    [Object.prototype], which ignores a string, and no key is written. The
    map holds the own keys, those [Object.keys] counts and the payload
    carries. *)
Definition assign_property (certName expirationDate : string)
    (cert_expirations : gmap string string) : gmap string string :=
  if decide (certName = "__proto__") then cert_expirations
  else <[certName := expirationDate]> cert_expirations.

Definition collect_cert_expirations (formData : gmap string string)
    (selectedCerts : list string) : gmap string string :=
  foldl (λ cert_expirations certName,
           match formData !! cert_expiration_field certName with
           | Some expirationDate =>
               if decide (expirationDate = "") then cert_expirations
               else assign_property certName expirationDate cert_expirations
           | None => cert_expirations
           end) ∅ selectedCerts.

Definition payload_cert_expirations (formData : gmap string string)
    (selectedCerts : list string) : option (gmap string string) :=
  let cert_expirations := collect_cert_expirations formData selectedCerts in
  if decide (0 < size cert_expirations)%nat then Some cert_expirations else None.

(** *** What the browser does to a channel

    The browser changes [readyState] before it fires an event at an
    object: [open] is fired at an object that was CONNECTING and is OPEN by
    then; [close] at an object that is CLOSED by then, and when the
    connection failed [error] is fired just before [close], in the same
    task; [message] is fired at an OPEN object only. *)
Definition set_readyState (h : nat) (s : ReadyState) (st : page) : page :=
  {| units := units st;
     wsConnected := wsConnected st;
     toasts := toasts st;
     wsConnectionsRef := wsConnectionsRef st;
     sockets := match sockets st !! h with
                | Some ws => <[h := mkWebSocket (url ws) s]> (sockets st)
                | None => sockets st
                end |}.

(** The object at [h] is the one created for [unit_id] (its handlers close
    over that [unit], the one its URL names) and is in one of [states]. *)
Definition channel_in (wsUrl : string) (st : page) (h : nat) (unit_id : string)
    (states : list ReadyState) : bool :=
  match sockets st !! h with
  | Some ws =>
      bool_decide (url ws = unit_readiness_url wsUrl unit_id ∧ readyState ws ∈ states)
  | None => false
  end.

(** What can happen to the page, one step at a time: a fetch that succeeds,
    a run of the effect or of its clean-up (React runs the clean-up before
    it runs the effect again, and when the page is unmounted), and the events
    the browser fires at the object [h] created for [unit_id]. *)
Inductive action :=
  | Fetched (data : list UnitReadiness)
  | RunEffect
  | RunCleanup
  | OnOpen (h : nat) (unit_id : string)
  | OnClose (failed : bool) (h : nat) (unit_id : string)
  | OnMessage (h : nat) (unit_id : string) (event : option Message).

Definition step (wsUrl : string) (st : page) (a : action) : page :=
  match a with
  | Fetched data => set_units data st
  | RunEffect => connect_effect wsUrl st
  | RunCleanup => effect_cleanup st
  | OnOpen h unit_id =>
      if channel_in wsUrl st h unit_id [CONNECTING]
      then ws_onopen unit_id (set_readyState h OPEN st)
      else st
  | OnClose failed h unit_id =>
      if channel_in wsUrl st h unit_id [CONNECTING; OPEN; CLOSING]
      then
        let st := set_readyState h CLOSED st in
        ws_onclose unit_id (if failed then ws_onerror unit_id st else st)
      else st
  | OnMessage h unit_id event =>
      if channel_in wsUrl st h unit_id [OPEN] then ws_onmessage event st else st
  end.

Definition run (wsUrl : string) (st : page) (actions : list action) : page :=
  foldl (step wsUrl) st actions.

(** The page as [useState] and [useRef] create it. *)
Definition initial_page : page := mkPage [] ∅ [] ∅ [].

(** *** The page as React drives it

    The effect is run by React alone: after the first render, and after a
    render in which one of its dependencies changed; before such a re-run
    and when the page is unmounted React runs the clean-up the last run
    returned. The dependencies are the constant [apiBaseUrl] and the string
    [units.map(u => u.unit_id).sort().join(',')]; [sort] orders the ids by
    their code units, which for ASCII ids is [String.le]. React runs the
    effects of a render some time after it, and before the next render at
    the latest; the events of the channels can come in between. *)
Definition effect_key (units : list UnitReadiness) : string :=
  String.concat "," (merge_sort String.le (unit_id <$> units)).

(** The mounted page: its state, whether the last run of the effect
    returned its clean-up (it returns none when it leaves at
    [units.length === 0]), and whether the last render changed the
    dependencies and its effect is still to run. *)
Record component := mkComponent {
  state : page;
  cleanup_installed : bool;
  effect_pending : bool }.

(** After the first render the effect has run on the empty list. *)
Definition mount : component := mkComponent initial_page false false.

(** What happens to the mounted page: [fetchReadiness] succeeds and calls
    [setUnits(data)], React runs the effects of the last render, or the
    browser fires the events of a channel. A message keeps the unit ids of
    the list, so it does not change the dependencies. *)
Inductive page_event :=
  | FetchSucceeds (data : list UnitReadiness)
  | EffectsRun
  | ChannelOpens (h : nat) (unit_id : string)
  | ChannelCloses (failed : bool) (h : nat) (unit_id : string)
  | ChannelDelivers (h : nat) (unit_id : string) (event : option Message).

(** The steps of [EffectsRun]: the clean-up of the last run, if it returned
    one, and the effect. *)
Definition effect_actions (c : component) : list action :=
  if effect_pending c
  then (if cleanup_installed c then [RunCleanup] else []) ++ [RunEffect]
  else [].

Definition run_effects (wsUrl : string) (c : component) : component :=
  if effect_pending c then
    {| state := run wsUrl (state c) (effect_actions c);
       cleanup_installed := bool_decide (units (state c) ≠ []);
       effect_pending := false |}
  else c.

(** The steps an event consists of. Before a render React runs the effects
    that are still pending. *)
Definition actions_of (c : component) (e : page_event) : list action :=
  match e with
  | FetchSucceeds data => effect_actions c ++ [Fetched data]
  | EffectsRun => effect_actions c
  | ChannelOpens h unit_id => [OnOpen h unit_id]
  | ChannelCloses failed h unit_id => [OnClose failed h unit_id]
  | ChannelDelivers h unit_id event => [OnMessage h unit_id event]
  end.

Definition react (wsUrl : string) (c : component) (e : page_event) : component :=
  match e with
  | FetchSucceeds data =>
      let c := run_effects wsUrl c in
      {| state := set_units data (state c);
         cleanup_installed := cleanup_installed c;
         effect_pending := bool_decide (effect_key data ≠ effect_key (units (state c))) |}
  | EffectsRun => run_effects wsUrl c
  | _ =>
      {| state := run wsUrl (state c) (actions_of c e);
         cleanup_installed := cleanup_installed c;
         effect_pending := effect_pending c |}
  end.

Definition page_run (wsUrl : string) (c : component) (events : list page_event)
    : component :=
  foldl (react wsUrl) c events.

(** The page is unmounted (the user leaves it, or an error is thrown while
    it renders): the clean-up runs, when there is one. *)
Definition unmount (c : component) : page :=
  if cleanup_installed c then effect_cleanup (state c) else state c.

(** *** [ws.onmessage] on whatever the channel delivers

    What [JSON.parse] gives. The fields of [UnitReadiness] that are numbers
    hold integers, so a number that is not an integer is kept by its text
    and is never one of them. A name that occurs twice among the members of
    an object has the value of its last occurrence. *)
#[local] Unset Elimination Schemes.
Inductive json :=
  | JNull
  | JBool (b : bool)
  | JNumber (n : Z)
  | JFraction (text : string)
  | JString (s : string)
  | JArray (elements : list json)
  | JObject (members : list (string * json)).
#[local] Set Elimination Schemes.

(** [o.name] on an object made by [JSON.parse]; [None] is [undefined]. *)
Definition get (name : string) (members : list (string * json)) : option json :=
  snd <$> last (filter (λ m : string * json, m.1 = name) members).

(** [v === null || v === undefined]: reading a property of such a value
    throws a [TypeError]. *)
Definition nullish (v : option json) : bool :=
  match v with
  | None | Some JNull => true
  | Some _ => false
  end.

Definition as_string (v : json) : option string :=
  match v with JString s => Some s | _ => None end.
Definition as_number (v : json) : option Z :=
  match v with JNumber n => Some n | _ => None end.
Definition as_boolean (v : json) : option bool :=
  match v with JBool b => Some b | _ => None end.
Definition as_strings (v : json) : option (list string) :=
  match v with JArray elements => mapM as_string elements | _ => None end.

Definition as_AssignedPersonnel (v : json) : option AssignedPersonnel :=
  match v with
  | JObject members =>
      personnel_id ← get "personnel_id" members ≫= as_string;
      name ← get "name" members ≫= as_string;
      role ← get "role" members ≫= as_string;
      certifications ← get "certifications" members ≫= as_strings;
      Some (mkAssignedPersonnel personnel_id name role certifications)
  | _ => None
  end.

(** The value as a [UnitReadiness], when it is one: an object with every
    field of the interface, each of its type. *)
Definition as_UnitReadiness (v : json) : option UnitReadiness :=
  match v with
  | JObject members =>
      unit_id ← get "unit_id" members ≫= as_string;
      unit_name ← get "unit_name" members ≫= as_string;
      unit_type ← get "unit_type" members ≫= as_string;
      readiness_score ← get "readiness_score" members ≫= as_number;
      staff_required ← get "staff_required" members ≫= as_number;
      staff_present ← get "staff_present" members ≫= as_number;
      certifications_missing ← get "certifications_missing" members ≫= as_strings;
      expired_certifications ← get "expired_certifications" members ≫= as_strings;
      is_understaffed ← get "is_understaffed" members ≫= as_boolean;
      issues ← get "issues" members ≫= as_strings;
      assigned_personnel ←
        get "assigned_personnel" members ≫=
          (λ v, match v with
                | JArray elements => mapM as_AssignedPersonnel elements
                | _ => None
                end);
      timestamp ← get "timestamp" members ≫= as_string;
      Some (mkUnitReadiness unit_id unit_name unit_type readiness_score staff_required
              staff_present certifications_missing expired_certifications is_understaffed
              issues assigned_personnel timestamp)
  | _ => None
  end.

(** What the updater passed to [setUnits] does with [newData = message.data]
    on the list [prev]. It runs while React renders, outside the
    [try]/[catch] of the handler. *)
Inductive updater_result :=
  | Returns (updated : list UnitReadiness) (new_toasts : list ToastMessage)
  | Throws
  | ReturnsUntyped.

(** - [newData] is [null] or [undefined]: [newData.unit_id] throws at the
      first entry of the list; on the empty list no entry is visited.
    - [newData.unit_id] is not the [unit_id] of an entry ([===] holds
      between equal strings only): [find] finds nothing, [map] keeps every
      entry, no alert is looked at.
    - Otherwise an entry is replaced. When [newData] is a [UnitReadiness]
      this is [update_units]. When it is not, reading [.length] of
      [newData.expired_certifications] or of [newData.certifications_missing]
      throws if that value is [null] or [undefined]; if neither is, the list
      returned holds an object that is not a [UnitReadiness]
      ([ReturnsUntyped]), and what the page makes of it is not followed
      here. *)
Definition update_units_json (newData : option json) (prev : list UnitReadiness)
    : updater_result :=
  if nullish newData then
    match prev with
    | [] => Returns [] []
    | _ :: _ => Throws
    end
  else
    match newData with
    | Some (JObject members) =>
        match get "unit_id" members with
        | Some (JString id) =>
            match find_unit id prev with
            | Some oldUnit =>
                match as_UnitReadiness (JObject members) with
                | Some snapshot =>
                    let '(updated, new_toasts) := update_units snapshot prev in
                    Returns updated new_toasts
                | None =>
                    if nullish (get "expired_certifications" members)
                       || nullish (get "certifications_missing" members)
                    then Throws
                    else ReturnsUntyped
                end
            | None => Returns prev []
            end
        | _ => Returns prev []
        end
    | _ => Returns prev []
    end.

(** What a message leads to: the page renders the new state, or the updater
    throws and React unmounts the page ([unmount]), or the list holds an
    object that is not a [UnitReadiness]. *)
Inductive outcome :=
  | Rendered (st : page)
  | Unmounted
  | Untyped.

(** [ws.onmessage] on the result of [JSON.parse(event.data)], [None] when
    it throws. [message.type] throws on [null]; both are caught and logged.
    On a number, a string, a boolean or an array [message.type] is
    [undefined]. *)
Definition ws_onmessage_json (parsed : option json) (st : page) : outcome :=
  match parsed with
  | Some (JObject members) =>
      match get "type" members with
      | Some (JString type) =>
          if decide (type = "unit_readiness") then
            match update_units_json (get "data" members) (units st) with
            | Returns updated new_toasts =>
                Rendered {| units := updated;
                            wsConnected := wsConnected st;
                            toasts := toasts st ++ new_toasts;
                            wsConnectionsRef := wsConnectionsRef st;
                            sockets := sockets st |}
            | Throws => Unmounted
            | ReturnsUntyped => Untyped
            end
          else Rendered st
      | _ => Rendered st
      end
  | _ => Rendered st
  end.

(** *** Notions used to state the properties *)


(** The channels of a unit that are OPEN or CONNECTING, registered or not. *)
Definition live_channels (wsUrl unit_id : string) (st : page) : list WebSocket :=
  filter (λ ws, url ws = unit_readiness_url wsUrl unit_id ∧ open_or_connecting ws)
         (sockets st).

(** What the guarded [ws.close()] does to one object. *)
Definition close_live (ws : WebSocket) : WebSocket :=
  if open_or_connecting ws then close ws else ws.

(** No two units are registered with the same object. *)
Definition registry_injective (st : page) : Prop :=
  ∀ k1 k2 h, wsConnectionsRef st !! k1 = Some h →
             wsConnectionsRef st !! k2 = Some h → k1 = k2.

Definition registry_wf (st : page) : Prop :=
  registry_injective st ∧
  ∀ k h, wsConnectionsRef st !! k = Some h → (h < length (sockets st))%nat.

(** Every registered object is the channel of its unit. *)
Definition registry_urls (wsUrl : string) (st : page) : Prop :=
  ∀ k h ws, wsConnectionsRef st !! k = Some h → sockets st !! h = Some ws →
            url ws = unit_readiness_url wsUrl k.

(** The unit is registered with an object that is OPEN or CONNECTING. *)
Definition registered_live (st : page) (unit_id : string) : Prop :=
  ∃ h ws, wsConnectionsRef st !! unit_id = Some h ∧ sockets st !! h = Some ws ∧
          open_or_connecting ws = true.

End Dashboard.

(** ** Concrete tables *)

Module WarehouseData.
Import Warehouse.

Local Open Scope Z_scope.

(** Medic 1 needs one person and requires EMT-P. Ann lists EMT-P, expired
    at time 50; Bob lists nothing; Cy lists EMT-P with no expiry recorded. *)
Definition ann := PERSONNEL.mk "P1" "Ann" "Paramedic" ["EMT-P"] [("EMT-P", 50)] (Some "AVAILABLE") 0.
Definition bob := PERSONNEL.mk "P2" "Bob" "Driver" [] [] (Some "AVAILABLE") 0.
Definition cy := PERSONNEL.mk "P3" "Cy" "Paramedic" ["EMT-P"] [] (Some "AVAILABLE") 0.
Definition medic1 := UNITS.mk "U1" "Medic 1" "MEDIC" 1 ["EMT-P"].

(** Ann's shift ends at 100; Bob and Cy are on shift until 200. *)
Definition ann_on_medic1 := UNIT_ASSIGNMENTS.mk "U1" "P1" 0 100 "ON_SHIFT".
Definition bob_on_medic1 := UNIT_ASSIGNMENTS.mk "U1" "P2" 0 200 "ON_SHIFT".
Definition cy_on_medic1 := UNIT_ASSIGNMENTS.mk "U1" "P3" 0 200 "ON_SHIFT".

Definition db_ann : RAW := mkRAW [ann; bob; cy] [medic1] [ann_on_medic1].
Definition db_bob_cy : RAW := mkRAW [ann; bob; cy] [medic1] [bob_on_medic1; cy_on_medic1].

Definition snapshot_ann : source.row :=
  source.mk "U1" 0 100 (Some "Medic 1") (Some "MEDIC") (Some 1) 1 1 100 [] false.
Definition snapshot_bob_cy : source.row :=
  source.mk "U1" 0 100 (Some "Medic 1") (Some "MEDIC") (Some 1) 2 2 85 ["EMT-P"] false.

(** Rescue 7 requires ACLS and EMT-P. Dee lists both; Eli lists EMT-P only,
    valid until 1000. *)
Definition dee := PERSONNEL.mk "P4" "Dee" "Paramedic" ["ACLS"; "EMT-P"] [] (Some "AVAILABLE") 0.
Definition eli := PERSONNEL.mk "P5" "Eli" "EMT" ["EMT-P"] [("EMT-P", 1000)] (Some "AVAILABLE") 0.
Definition fay := PERSONNEL.mk "P6" "Fay" "Paramedic" ["EMT-P"; "ACLS"] [] (Some "ON_CALL") 0.
Definition rescue7 := UNITS.mk "U7" "Rescue 7" "RESCUE" 3 ["ACLS"; "EMT-P"].
Definition dee_on_rescue7 := UNIT_ASSIGNMENTS.mk "U7" "P4" 0 200 "ON_SHIFT".
Definition eli_on_rescue7 := UNIT_ASSIGNMENTS.mk "U7" "P5" 0 200 "ON_SHIFT".
Definition fay_on_rescue7 := UNIT_ASSIGNMENTS.mk "U7" "P6" 0 200 "ON_SHIFT".

Definition db_dee : RAW := mkRAW [dee; eli; fay] [rescue7] [dee_on_rescue7].

Definition snapshot_dee : source.row :=
  source.mk "U7" 0 100 (Some "Rescue 7") (Some "RESCUE") (Some 3) 1 1 30 [] true.
Definition snapshot_dee_eli : source.row :=
  source.mk "U7" 0 100 (Some "Rescue 7") (Some "RESCUE") (Some 3) 2 2 30 ["ACLS"] true.
Definition snapshot_dee_fay : source.row :=
  source.mk "U7" 0 100 (Some "Rescue 7") (Some "RESCUE") (Some 3) 2 1 30 [] true.

(** Eli alone on Rescue 7, and Bob, who lists no certification. *)
Definition bob_on_rescue7 := UNIT_ASSIGNMENTS.mk "U7" "P2" 0 200 "ON_SHIFT".
Definition db_eli : RAW := mkRAW [bob; dee; eli; fay] [rescue7] [eli_on_rescue7].

Definition snapshot_eli : source.row :=
  source.mk "U7" 0 100 (Some "Rescue 7") (Some "RESCUE") (Some 3) 1 1 30 ["ACLS"] true.
Definition snapshot_eli_bob : source.row :=
  source.mk "U7" 0 100 (Some "Rescue 7") (Some "RESCUE") (Some 3) 2 2 30 ["ACLS"; "EMT-P"] true.

(** A row stored earlier in the day, when Rescue 7 needed one person. *)
Definition stored_dee : target.row :=
  target.mk "U7" 0 40 (Some "Rescue 7") (Some "RESCUE") (Some 1) 1 1 100 [] false 40.

(** Engine 5 needs five people and requires nothing; Ann, Bob, Cy and Dee
    are on shift on it. *)
Definition engine5 := UNITS.mk "U5" "Engine 5" "ENGINE" 5 [].
Definition ann_on_engine5 := UNIT_ASSIGNMENTS.mk "U5" "P1" 0 200 "ON_SHIFT".
Definition bob_on_engine5 := UNIT_ASSIGNMENTS.mk "U5" "P2" 0 200 "ON_SHIFT".
Definition cy_on_engine5 := UNIT_ASSIGNMENTS.mk "U5" "P3" 0 200 "ON_SHIFT".
Definition dee_on_engine5 := UNIT_ASSIGNMENTS.mk "U5" "P4" 0 200 "ON_SHIFT".

Definition db_engine5 : RAW :=
  mkRAW [ann; bob; cy; dee] [engine5]
        [ann_on_engine5; bob_on_engine5; cy_on_engine5; dee_on_engine5].

Definition snapshot_engine5 : source.row :=
  source.mk "U5" 0 100 (Some "Engine 5") (Some "ENGINE") (Some 5) 4 4 50 [] true.

(** The tables of [db_ann] with the rows in another order, Ann's row and
    her assignment twice, and another name, role and expiry for Ann. *)
Definition ann_renamed :=
  PERSONNEL.mk "P1" "Ann B." "Captain" ["EMT-P"] [("EMT-P", 5000)] (Some "AVAILABLE") 60.

Definition db_ann_shuffled : RAW :=
  mkRAW [cy; ann_renamed; bob; ann] [medic1] [ann_on_medic1; ann_on_medic1].

(** Eli's EMT-P is valid until 1000, Ann's expired at 50. *)
Definition db_eli_ann : RAW := mkRAW [eli; ann] [medic1] [].

(** Gus holds an EMT-P that expired at 50; his [availability_status] is
    [NULL]. *)
Definition gus := PERSONNEL.mk "P7" "Gus" "EMT" ["EMT-P"] [("EMT-P", 50)] None 0.
Definition db_gus : RAW := mkRAW [gus] [medic1] [].

Definition expiry_ann : expiration_summary.row :=
  expiration_summary.mk "P1" "Ann" "Paramedic" "EMT-P" 50 0 "EXPIRED".
Definition expiry_eli : expiration_summary.row :=
  expiration_summary.mk "P5" "Eli" "EMT" "EMT-P" 1000 0 "EXPIRING_SOON".

End WarehouseData.

(** ** Concrete page states *)

Module DashboardData.
Import Dashboard.

Local Open Scope Z_scope.

Definition wsUrl : string := "ws://localhost:8000".

(** Rescue 7 needs three people; first with three present, then with two. *)
Definition rescue7_staffed : UnitReadiness :=
  mkUnitReadiness "U7" "Rescue 7" "RESCUE" 100 3 3 [] [] false [] [] "2025-01-01T10:00:00".
Definition rescue7_understaffed : UnitReadiness :=
  mkUnitReadiness "U7" "Rescue 7" "RESCUE" 30 3 2 [] [] true ["Understaffed"] []
                  "2025-01-01T10:05:00".
Definition medic1_staffed : UnitReadiness :=
  mkUnitReadiness "U1" "Medic 1" "MEDIC" 100 1 1 [] [] false [] [] "2025-01-01T10:00:00".

(** The unit list holds the same unit twice and nothing is registered yet. *)
Definition page_duplicate_unit : page :=
  mkPage [rescue7_staffed; rescue7_staffed] ∅ [] ∅ [].

(** Rescue 7 is registered with an OPEN channel, Medic 1 with a CONNECTING
    one; only Rescue 7 is live. *)
Definition page_two_units : page :=
  mkPage [rescue7_staffed; medic1_staffed] {["U7"]} []
         (<["U7" := 0%nat]> (<["U1" := 1%nat]> ∅))
         [mkWebSocket (unit_readiness_url wsUrl "U7") OPEN;
          mkWebSocket (unit_readiness_url wsUrl "U1") CONNECTING].

(** The text of the snapshot [rescue7_understaffed], parsed, and a message
    for Rescue 7 without the two certification arrays. *)
Definition rescue7_understaffed_json : json :=
  JObject [("unit_id", JString "U7"); ("unit_name", JString "Rescue 7");
           ("unit_type", JString "RESCUE"); ("readiness_score", JNumber 30);
           ("staff_required", JNumber 3); ("staff_present", JNumber 2);
           ("certifications_missing", JArray []); ("expired_certifications", JArray []);
           ("is_understaffed", JBool true); ("issues", JArray [JString "Understaffed"]);
           ("assigned_personnel", JArray []);
           ("timestamp", JString "2025-01-01T10:05:00")].

Definition message_without_arrays : json :=
  JObject [("type", JString "unit_readiness");
           ("data", JObject [("unit_id", JString "U7")])].

End DashboardData.

(** * Part II: properties *)

(** ** Facts about the SQL operators *)

Module SqlFacts.

Section relational.
Context {A B : Type}.

Lemma elem_of_join (on : A → B → Prop) `{!∀ a b, Decision (on a b)} l r a b :
  (a, b) ∈ Sql.join on l r ↔ a ∈ l ∧ b ∈ r ∧ on a b.
Proof.
  unfold Sql.join. rewrite list_elem_of_bind. split.
  - intros (a' & Hin & Ha'). apply list_elem_of_fmap in Hin as (b' & Heq & Hb').
    injection Heq as -> ->. apply list_elem_of_filter in Hb' as [Hon Hb'].
    done.
  - intros (Ha & Hb & Hon). exists a. split; [|done].
    apply list_elem_of_fmap. exists b. split; [done|].
    by apply list_elem_of_filter.
Qed.

Lemma elem_of_left_join_Some (on : A → B → Prop) `{!∀ a b, Decision (on a b)} l r a b :
  (a, Some b) ∈ Sql.left_join on l r ↔ a ∈ l ∧ b ∈ r ∧ on a b.
Proof.
  unfold Sql.left_join. rewrite list_elem_of_bind. split.
  - intros (a' & Hin & Ha').
    destruct (filter (on a') r) as [|b0 bs] eqn:Hf.
    + apply list_elem_of_singleton in Hin. discriminate.
    + apply list_elem_of_fmap in Hin as (b' & Heq & Hb').
      injection Heq as -> ->.
      rewrite <- Hf in Hb'. apply list_elem_of_filter in Hb' as [Hon Hb']. done.
  - intros (Ha & Hb & Hon). exists a. split; [|done].
    assert (b ∈ filter (on a) r) as Hin by by apply list_elem_of_filter.
    destruct (filter (on a) r) as [|b0 bs] eqn:Hf.
    + by apply elem_of_nil in Hin.
    + apply list_elem_of_fmap. by exists b.
Qed.

Lemma elem_of_left_join_fst (on : A → B → Prop) `{!∀ a b, Decision (on a b)} l r a :
  a ∈ l ↔ ∃ ob, (a, ob) ∈ Sql.left_join on l r.
Proof.
  unfold Sql.left_join. split.
  - intros Ha. destruct (filter (on a) r) as [|b0 bs] eqn:Hf.
    + exists None. apply list_elem_of_bind. exists a. rewrite Hf.
      split; [by apply list_elem_of_singleton|done].
    + exists (Some b0). apply list_elem_of_bind. exists a. rewrite Hf.
      split; [|done]. apply list_elem_of_fmap. exists b0. split; [done|left].
  - intros (ob & Hin). apply list_elem_of_bind in Hin as (a' & Hin & Ha').
    destruct (filter (on a') r) as [|b0 bs].
    + apply list_elem_of_singleton in Hin. by injection Hin as -> _.
    + apply list_elem_of_fmap in Hin as (b' & Heq & Hb'). by injection Heq as -> _.
Qed.

End relational.

Lemma max_is_Some {A} (le : relation A) `{!RelDecision le} (l : list A) :
  l ≠ [] → is_Some (Sql.max le l).
Proof.
  destruct l as [|x l]; [done|]. intros _. simpl.
  destruct (Sql.max le l); eauto.
Qed.

Lemma is_true3_and3 a b :
  Sql.is_true3 (Sql.and3 a b) = Sql.is_true3 a && Sql.is_true3 b.
Proof. by destruct a as [[]|], b as [[]|]. Qed.

Lemma elem_of_array_agg_distinct {A} (e : A → option string) (l : list A) c :
  c ∈ Sql.array_agg_distinct e l ↔ ∃ x, x ∈ l ∧ e x = Some c.
Proof.
  unfold Sql.array_agg_distinct. rewrite merge_sort_Permutation.
  rewrite elem_of_remove_dups. apply list_elem_of_omap.
Qed.

End SqlFacts.

(** ** The readiness task *)

Module WarehouseSpec.
Import Warehouse.

Local Open Scope Z_scope.

(** Every snapshot is the aggregate of a non-empty [unit_id] group. *)
Lemma elem_of_unit_readiness cas r :
  r ∈ unit_readiness cas →
  ∃ g, g ≠ [] ∧ r = aggregate (ur.unit_id r) g ∧
       g = filter (λ j : joined, ca.unit_id j.1 = ur.unit_id r)
                  (Sql.left_join on_missing_cert cas (missing_cert_rows cas)).
Proof.
  unfold unit_readiness. intros Hr.
  apply list_elem_of_fmap in Hr as (k & -> & Hk).
  apply elem_of_remove_dups, list_elem_of_fmap in Hk as (j & -> & Hj).
  eexists. split; [|split; reflexivity]. simpl.
  apply (elem_of_not_nil j). by apply list_elem_of_filter.
Qed.

Lemma elem_of_process now db s :
  s ∈ process_personnel_readiness now db →
  ∃ r, r ∈ unit_readiness (current_assignments now db) ∧ s = select_source now r.
Proof.
  unfold process_personnel_readiness. intros Hs.
  apply list_elem_of_fmap in Hs as (r & -> & Hr). eauto.
Qed.

(** [minimum_staff] is never [NULL] in a snapshot. *)
Lemma minimum_staff_not_null cas r :
  r ∈ unit_readiness cas → is_Some (ur.minimum_staff r).
Proof.
  intros Hr. apply elem_of_unit_readiness in Hr as (g & Hg & -> & _). simpl.
  apply SqlFacts.max_is_Some. by destruct g.
Qed.

(** The decision table of the [CASE], for a known [minimum_staff]. *)
Lemma readiness_score_table r m :
  ur.minimum_staff r = Some m →
  let cur := ur.current_staff r in
  let avail := ur.available_staff r in
  (readiness_score r = 100 ↔ m ≤ cur ∧ m ≤ avail ∧ ur.missing_certs r = []) ∧
  (readiness_score r = 85 ↔ m ≤ cur ∧ m ≤ avail ∧ ur.missing_certs r ≠ []) ∧
  (readiness_score r = 70 ↔ m ≤ cur ∧ ¬ m ≤ avail) ∧
  (readiness_score r = 50 ↔ ¬ m ≤ cur ∧ 8 * m ≤ 10 * cur) ∧
  (readiness_score r = 30 ↔ ¬ m ≤ cur ∧ ¬ 8 * m ≤ 10 * cur).
Proof.
  intros Hm. unfold readiness_score. rewrite !SqlFacts.is_true3_and3, Hm. simpl.
  repeat case_bool_decide; simpl; intuition (try lia; try congruence).
Qed.

(** C1. In every snapshot computed by [process_personnel_readiness_task],
    [minimum_staff] is not [NULL] and [understaffed_flag] is exactly
    [current_staff < minimum_staff], whatever the readiness score is. *)
Theorem understaffed_flag_iff_below_minimum now db s :
  s ∈ process_personnel_readiness now db →
  ∃ m, source.minimum_staff s = Some m ∧
       source.understaffed_flag s = bool_decide (source.current_staff s < m).
Proof.
  intros Hs. apply elem_of_process in Hs as (r & Hr & ->).
  destruct (minimum_staff_not_null _ _ Hr) as [m Hm].
  exists m. simpl. split; [done|].
  unfold understaffed_flag. rewrite Hm. simpl. by case_bool_decide.
Qed.

(** A snapshot of a unit without a row for the day is stored as computed,
    so the stored row satisfies the same equation. *)
Lemma inserted_row_keeps_flag now db tgt s :
  s ∈ process_personnel_readiness now db →
  Forall (λ t, ¬ on_target t s) tgt →
  ∃ t m, t ∈ process_personnel_readiness_task now db tgt ∧
         target.unit_id t = source.unit_id s ∧
         target.minimum_staff t = Some m ∧
         target.understaffed_flag t = bool_decide (target.current_staff t < m).
Proof.
  intros Hs Hnew.
  destruct (elem_of_process _ _ _ Hs) as (r & Hr & ->).
  destruct (minimum_staff_not_null _ _ Hr) as [m Hm].
  exists (insert_values now (select_source now r)), m. split; [|split; [done|]].
  - unfold process_personnel_readiness_task, merge_readiness.
    apply elem_of_app. right. apply list_elem_of_fmap_2.
    by apply list_elem_of_filter.
  - simpl. split; [done|]. unfold understaffed_flag. rewrite Hm. simpl.
    by case_bool_decide.
Qed.

(** C3. The readiness score of every snapshot is one of 30, 50, 70, 85
    and 100. *)
Theorem readiness_score_values now db s :
  s ∈ process_personnel_readiness now db →
  source.readiness_score s ∈ [30; 50; 70; 85; 100].
Proof.
  intros Hs. apply elem_of_process in Hs as (r & Hr & ->). simpl.
  unfold readiness_score.
  destruct (Sql.is_true3 _); [repeat constructor|].
  destruct (Sql.is_true3 _); [repeat constructor|].
  destruct (Sql.is_true3 _); [repeat constructor|].
  destruct (Sql.is_true3 _); repeat constructor.
Qed.

(** C2, as the task has it. The score follows the decision table, first
    match first: it is 100 exactly when [current_staff] and
    [available_staff] both reach [minimum_staff] and [missing_certifications]
    is empty, 85 when only the array is not empty, 70 when only
    [current_staff] reaches the minimum, 50 when [current_staff] is below it
    but at least 0.8 times it, and 30 otherwise. No expiry date enters the
    table. *)
Theorem readiness_score_decision_table now db s :
  s ∈ process_personnel_readiness now db →
  ∃ m, source.minimum_staff s = Some m ∧
    let cur := source.current_staff s in
    let avail := source.available_staff s in
    let missing := source.missing_certifications s in
    (source.readiness_score s = 100 ↔ m ≤ cur ∧ m ≤ avail ∧ missing = []) ∧
    (source.readiness_score s = 85 ↔ m ≤ cur ∧ m ≤ avail ∧ missing ≠ []) ∧
    (source.readiness_score s = 70 ↔ m ≤ cur ∧ ¬ m ≤ avail) ∧
    (source.readiness_score s = 50 ↔ ¬ m ≤ cur ∧ 8 * m ≤ 10 * cur) ∧
    (source.readiness_score s = 30 ↔ ¬ m ≤ cur ∧ ¬ 8 * m ≤ 10 * cur).
Proof.
  intros Hs. apply elem_of_process in Hs as (r & Hr & ->).
  destruct (minimum_staff_not_null _ _ Hr) as [m Hm].
  exists m. split; [done|]. simpl. by apply readiness_score_table.
Qed.

(** *** Who is counted: the rows of [current_assignments] *)

Lemma elem_of_current_assignments now db r :
  r ∈ current_assignments now db ↔
  ∃ ua p u, on_shift_through now db ua p u ∧ r = select_ca (ua, p, u).
Proof.
  unfold current_assignments, on_shift_through.
  rewrite elem_of_remove_dups, list_elem_of_fmap. split.
  - intros ([[ua p] u] & -> & Hj).
    apply list_elem_of_filter in Hj as [Hw Hj].
    apply SqlFacts.elem_of_join in Hj as (Hj & Hu & Hon2).
    apply SqlFacts.elem_of_join in Hj as (Hua & Hp & Hon1).
    exists ua, p, u. done.
  - intros (ua & p & u & (Hua & Hp & Hu & Hon1 & Hon2 & Hw) & ->).
    exists (ua, p, u). split; [done|].
    apply list_elem_of_filter. split; [done|].
    apply SqlFacts.elem_of_join. split; [|done].
    apply SqlFacts.elem_of_join. done.
Qed.

(** *** What [missing_certifications] holds *)

Lemma elem_of_missing_cert_rows cas m :
  m ∈ missing_cert_rows cas ↔
  ∃ ca2, ca2 ∈ cas ∧
         missing_cert.cert m ∈ ca.required_certifications ca2 ∧
         (missing_cert.cert m ∉ ca.certifications ca2) ∧
         missing_cert.unit_id m = ca.unit_id ca2 ∧
         missing_cert.personnel_id m = ca.personnel_id ca2.
Proof.
  unfold missing_cert_rows. rewrite elem_of_remove_dups, list_elem_of_bind. split.
  - intros (ca2 & Hm & Hca2). exists ca2. split; [done|].
    apply list_elem_of_bind in Hm as (c & Hm & Hc).
    apply list_elem_of_singleton in Hm as ->. simpl.
    apply list_elem_of_filter in Hc as [Hnot Hreq]. done.
  - intros (ca2 & Hca2 & Hreq & Hnot & Hu & Hp). exists ca2. split; [|done].
    apply list_elem_of_bind. exists (missing_cert.cert m). split.
    + apply list_elem_of_singleton. destruct m; simpl in *. by subst.
    + by apply list_elem_of_filter.
Qed.

Lemma elem_of_missing_certs cas r c :
  r ∈ unit_readiness cas →
  (c ∈ ur.missing_certs r ↔
   ∃ ca2, ca2 ∈ cas ∧ ca.unit_id ca2 = ur.unit_id r ∧
          c ∈ ca.required_certifications ca2 ∧ c ∉ ca.certifications ca2).
Proof.
  intros Hr. apply elem_of_unit_readiness in Hr as (g & _ & Hagg & ->).
  rewrite Hagg at 1. simpl.
  rewrite SqlFacts.elem_of_array_agg_distinct. split.
  - intros ([r0 [m|]] & Hj & Hc); [|done]. simpl in Hc. injection Hc as <-.
    apply list_elem_of_filter in Hj as [Hk Hj]. simpl in Hk.
    apply SqlFacts.elem_of_left_join_Some in Hj as (Hr0 & Hm & [Hu Hp]).
    apply elem_of_missing_cert_rows in Hm as (ca2 & Hca2 & Hreq & Hnot & Hu2 & _).
    exists ca2. split; [done|]. split; [congruence|done].
  - intros (ca2 & Hca2 & Hk & Hreq & Hnot).
    exists (ca2, Some (missing_cert.mk (ca.unit_id ca2) (ca.personnel_id ca2) c)).
    split; [|done]. apply list_elem_of_filter. split; [done|].
    apply SqlFacts.elem_of_left_join_Some. split; [done|]. split; [|done].
    apply elem_of_missing_cert_rows. exists ca2. done.
Qed.

Lemma elem_of_missing_certifications now db s c :
  s ∈ process_personnel_readiness now db →
  (c ∈ source.missing_certifications s ↔
   ∃ ua p u, on_shift_through now db ua p u ∧
             UNITS.unit_id u = source.unit_id s ∧
             c ∈ UNITS.required_certifications u ∧
             c ∉ PERSONNEL.certifications p).
Proof.
  intros Hs. apply elem_of_process in Hs as (r & Hr & ->). simpl.
  rewrite (elem_of_missing_certs _ _ _ Hr). split.
  - intros (ca2 & Hca2 & Hk & Hreq & Hnot).
    apply elem_of_current_assignments in Hca2 as (ua & p & u & Hon & ->).
    exists ua, p, u. simpl in *. destruct Hon as (? & ? & ? & ? & Hu & ?).
    split; [done|]. split; [congruence|done].
  - intros (ua & p & u & Hon & Hk & Hreq & Hnot).
    exists (select_ca (ua, p, u)). split.
    + apply elem_of_current_assignments. eauto.
    + simpl. destruct Hon as (? & ? & ? & ? & Hu & ?). split; [congruence|done].
Qed.

(** C4, as the task has it. A certification is in [missing_certifications]
    of a unit's snapshot exactly when the unit requires it and some person
    on shift on the unit does not list it in [certifications]; expiry dates
    are not read. *)
Theorem missing_certifications_iff_some_person_lacks now db s c :
  s ∈ process_personnel_readiness now db →
  (c ∈ source.missing_certifications s ↔
   ∃ ua p u, on_shift_through now db ua p u ∧
             UNITS.unit_id u = source.unit_id s ∧
             c ∈ UNITS.required_certifications u ∧
             c ∉ PERSONNEL.certifications p).
Proof. apply elem_of_missing_certifications. Qed.

(** *** Adding an assignment *)

Lemma on_shift_through_add now db ua' ua p u :
  on_shift_through now (add_assignment ua' db) ua p u ↔
  on_shift_through now db ua p u ∨
  (ua = ua' ∧ p ∈ RAW_PERSONNEL db ∧ u ∈ RAW_UNITS db ∧
   UNIT_ASSIGNMENTS.personnel_id ua' = PERSONNEL.personnel_id p ∧
   UNIT_ASSIGNMENTS.unit_id ua' = UNITS.unit_id u ∧ where_current now ua').
Proof.
  unfold on_shift_through, add_assignment. simpl.
  rewrite elem_of_app, list_elem_of_singleton. split.
  - intros ([Hua| ->] & ?); [left|right]; tauto.
  - intros [(? & ?)|(-> & ?)]; tauto.
Qed.

(** C5, as the task has it. Putting one more person on shift on a unit never
    takes a certification out of [missing_certifications]. The array
    afterwards holds what it held before and, besides, the certifications the
    unit requires and that person does not list: so when every row of that
    person lists every certification the unit requires nothing is put in and
    the array keeps its entries, and otherwise the certifications the person
    lacks are put in. *)
Theorem missing_certifications_add_assignment now db ua' s s' :
  s ∈ process_personnel_readiness now db →
  s' ∈ process_personnel_readiness now (add_assignment ua' db) →
  source.unit_id s' = source.unit_id s →
  (∀ c, c ∈ source.missing_certifications s → c ∈ source.missing_certifications s') ∧
  (∀ c, c ∈ source.missing_certifications s' ↔
        c ∈ source.missing_certifications s ∨
        (where_current now ua' ∧
         ∃ p u, p ∈ RAW_PERSONNEL db ∧ u ∈ RAW_UNITS db ∧
                UNIT_ASSIGNMENTS.personnel_id ua' = PERSONNEL.personnel_id p ∧
                UNIT_ASSIGNMENTS.unit_id ua' = UNITS.unit_id u ∧
                UNITS.unit_id u = source.unit_id s ∧
                c ∈ UNITS.required_certifications u ∧
                c ∉ PERSONNEL.certifications p)) ∧
  ((∀ p u, p ∈ RAW_PERSONNEL db → u ∈ RAW_UNITS db →
           UNIT_ASSIGNMENTS.personnel_id ua' = PERSONNEL.personnel_id p →
           UNIT_ASSIGNMENTS.unit_id ua' = UNITS.unit_id u →
           UNITS.required_certifications u ⊆ PERSONNEL.certifications p) →
   ∀ c, c ∈ source.missing_certifications s' → c ∈ source.missing_certifications s).
Proof.
  intros Hs Hs' Hk.
  assert (∀ c, c ∈ source.missing_certifications s' ↔
               c ∈ source.missing_certifications s ∨
               (where_current now ua' ∧
                ∃ p u, p ∈ RAW_PERSONNEL db ∧ u ∈ RAW_UNITS db ∧
                       UNIT_ASSIGNMENTS.personnel_id ua' = PERSONNEL.personnel_id p ∧
                       UNIT_ASSIGNMENTS.unit_id ua' = UNITS.unit_id u ∧
                       UNITS.unit_id u = source.unit_id s ∧
                       c ∈ UNITS.required_certifications u ∧
                       c ∉ PERSONNEL.certifications p)) as Hiff.
  { intros c.
    rewrite (elem_of_missing_certifications _ _ _ c Hs'),
            (elem_of_missing_certifications _ _ _ c Hs), Hk.
    split.
    - intros (ua & p & u & Hon & Hu & Hreq & Hnot).
      apply on_shift_through_add in Hon as [Hon|(-> & Hp & Hu' & Hpid & Huid & Hw)].
      + left. by exists ua, p, u.
      + right. split; [done|]. by exists p, u.
    - intros [(ua & p & u & Hon & Hu & Hreq & Hnot)
             |(Hw & p & u & Hp & Hu & Hpid & Huid & Hk' & Hreq & Hnot)].
      + exists ua, p, u. split; [apply on_shift_through_add; by left|done].
      + exists ua', p, u. split; [apply on_shift_through_add; right; done|done]. }
  split; [|split; [exact Hiff|]].
  - intros c Hc. apply Hiff. by left.
  - intros Hall c [Hc|(_ & p & u & Hp & Hu & Hpid & Huid & _ & Hreq & Hnot)]%Hiff;
      [done|].
    exfalso. apply Hnot. by apply (Hall p u).
Qed.

(** *** Which assignments are counted *)

(** [current_staff] is the number of persons counted for the unit. *)
Lemma current_staff_counts_rows now db s :
  s ∈ process_personnel_readiness now db →
  source.current_staff s = Z.of_nat (length (staff_of now db (source.unit_id s))).
Proof.
  intros Hs. apply elem_of_process in Hs as (r & Hr & ->). simpl.
  apply elem_of_unit_readiness in Hr as (g & _ & Hagg & ->).
  rewrite Hagg at 1. simpl. unfold Sql.count_distinct, staff_of. f_equal.
  apply Permutation_length, NoDup_Permutation; [apply NoDup_remove_dups..|].
  intros pid. rewrite !elem_of_remove_dups, list_elem_of_omap, list_elem_of_fmap.
  split.
  - intros ([r0 ob] & Hj & Hpid). simpl in Hpid. injection Hpid as <-.
    apply list_elem_of_filter in Hj as [Hk Hj]. simpl in Hk.
    exists r0. split; [done|]. apply list_elem_of_filter. split; [done|].
    eapply SqlFacts.elem_of_left_join_fst. eauto.
  - intros (r0 & -> & Hr0). apply list_elem_of_filter in Hr0 as [Hk Hr0].
    apply (SqlFacts.elem_of_left_join_fst on_missing_cert _
             (missing_cert_rows (current_assignments now db))) in Hr0 as [ob Hj].
    exists (r0, ob). split; [|done]. by apply list_elem_of_filter.
Qed.

(** A unit with a row in [current_assignments] has a snapshot. *)
Lemma snapshot_of_row now db r :
  r ∈ current_assignments now db →
  ∃ s, s ∈ process_personnel_readiness now db ∧ source.unit_id s = ca.unit_id r.
Proof.
  intros Hr.
  apply (SqlFacts.elem_of_left_join_fst on_missing_cert _
           (missing_cert_rows (current_assignments now db))) in Hr as [ob Hj].
  eexists (select_source now (aggregate (ca.unit_id r) _)). split; [|done].
  unfold process_personnel_readiness, unit_readiness.
  apply list_elem_of_fmap_2.
  apply (list_elem_of_fmap_2' _ _ (ca.unit_id r)); [|done].
  apply elem_of_remove_dups.
  by apply (list_elem_of_fmap_2' _ _ (r, ob)).
Qed.

(** C6, as the task has it. An assignment of the table is counted exactly
    when its status is ON_SHIFT, the reference time lies in the closed
    window from [shift_start] to [shift_end], both ends included, and its
    person and its unit have a row. When it is counted, its unit has a
    snapshot, its person is among the persons counted for the unit, and
    [current_staff] is the number of those persons. *)
Theorem counts_iff_on_shift_in_closed_window now db ua :
  ua ∈ RAW_UNIT_ASSIGNMENTS db →
  (counts_toward_staffing now db ua ↔
   UNIT_ASSIGNMENTS.assignment_status ua = "ON_SHIFT" ∧
   UNIT_ASSIGNMENTS.shift_start ua ≤ now ≤ UNIT_ASSIGNMENTS.shift_end ua ∧
   (∃ p, p ∈ RAW_PERSONNEL db ∧
         PERSONNEL.personnel_id p = UNIT_ASSIGNMENTS.personnel_id ua) ∧
   (∃ u, u ∈ RAW_UNITS db ∧ UNITS.unit_id u = UNIT_ASSIGNMENTS.unit_id ua)) ∧
  (counts_toward_staffing now db ua →
   ∃ s, s ∈ process_personnel_readiness now db ∧
        source.unit_id s = UNIT_ASSIGNMENTS.unit_id ua ∧
        UNIT_ASSIGNMENTS.personnel_id ua ∈ staff_of now db (source.unit_id s) ∧
        source.current_staff s = Z.of_nat (length (staff_of now db (source.unit_id s)))).
Proof.
  intros Hua. unfold counts_toward_staffing. split; [split|].
  - intros (r & Hr & Hu & Hp & Hs & He & Hst).
    apply elem_of_current_assignments in Hr
      as (ua0 & p & u & (_ & Hp0 & Hu0 & Hon1 & Hon2 & [Hw1 Hw2]) & ->).
    simpl in *. unfold Sql.between in Hw2.
    split; [congruence|]. split; [lia|]. split.
    + exists p. split; [done|congruence].
    + exists u. split; [done|congruence].
  - intros (Hst & Hwin & (p & Hp & Hpid) & (u & Hu & Huid)).
    exists (select_ca (ua, p, u)). split; [|done].
    apply elem_of_current_assignments. exists ua, p, u. split; [|done].
    unfold on_shift_through, where_current, Sql.between. done.
  - intros (r & Hr & Hu & Hp & _).
    destruct (snapshot_of_row _ _ _ Hr) as (s & Hs & Hk).
    exists s. split; [done|]. split; [congruence|].
    split; [|by apply current_staff_counts_rows].
    unfold staff_of. apply elem_of_remove_dups.
    apply (list_elem_of_fmap_2' _ _ r); [|done].
    by apply list_elem_of_filter.
Qed.

(** *** The expiration task *)

Lemma where_expired_iff now p :
  where_expired now p ↔
  has_expired_certification now p ∧
  ∃ status, PERSONNEL.availability_status p = Some status ∧ status ≠ "IN_TRAINING".
Proof.
  unfold where_expired, has_expired_certification. rewrite Exists_exists. split.
  - intros ([c t] & Hin & Htrue). cbn [snd] in Htrue.
    destruct (PERSONNEL.availability_status p) as [status|]; simpl in Htrue.
    + repeat case_bool_decide; simpl in Htrue; try done.
      split; [by exists c, t|by exists status].
    + by case_bool_decide.
  - intros ((c & t & Hin & Hlt) & status & Hst & Hne). exists (c, t).
    split; [done|]. rewrite Hst. simpl. by rewrite !bool_decide_eq_true_2.
Qed.

(** A row whose status is [NULL] does not pass the [WHERE]. *)
Lemma where_expired_null now p :
  PERSONNEL.availability_status p = None → ¬ where_expired now p.
Proof.
  intros Hnull (_ & status & Hst & _)%where_expired_iff. congruence.
Qed.

(** C10, as the task has it. One run of
    [process_certification_expirations_task] rewrites the PERSONNEL table row
    by row and writes no other table: a person with a certification whose
    expiry is before the current time, and whose status is set and is not
    IN_TRAINING, gets [availability_status] IN_TRAINING and [updated_at] the
    current time, the other columns kept; every other row is left as it
    was, a row whose status is [NULL] among them. *)
Theorem expirations_task_rewrites_personnel now db i p :
  RAW_PERSONNEL db !! i = Some p →
  let db' := process_certification_expirations now db in
  RAW_UNITS db' = RAW_UNITS db ∧
  RAW_UNIT_ASSIGNMENTS db' = RAW_UNIT_ASSIGNMENTS db ∧
  length (RAW_PERSONNEL db') = length (RAW_PERSONNEL db) ∧
  (has_expired_certification now p ∧
   (∃ status, PERSONNEL.availability_status p = Some status ∧ status ≠ "IN_TRAINING") →
   ∃ p', RAW_PERSONNEL db' !! i = Some p' ∧
         PERSONNEL.availability_status p' = Some "IN_TRAINING" ∧
         PERSONNEL.updated_at p' = now ∧
         PERSONNEL.personnel_id p' = PERSONNEL.personnel_id p ∧
         PERSONNEL.name p' = PERSONNEL.name p ∧
         PERSONNEL.role p' = PERSONNEL.role p ∧
         PERSONNEL.certifications p' = PERSONNEL.certifications p ∧
         PERSONNEL.cert_expirations p' = PERSONNEL.cert_expirations p) ∧
  (¬ (has_expired_certification now p ∧
      ∃ status, PERSONNEL.availability_status p = Some status ∧ status ≠ "IN_TRAINING") →
   RAW_PERSONNEL db' !! i = Some p) ∧
  (PERSONNEL.availability_status p = None → RAW_PERSONNEL db' !! i = Some p).
Proof.
  intros Hi. simpl. split; [done|]. split; [done|].
  split; [apply length_fmap|].
  rewrite list_lookup_fmap, Hi. simpl. rewrite <- where_expired_iff.
  split; [|split]; intros Hw; rewrite decide_bool_decide.
  - rewrite bool_decide_eq_true_2 by done. by eexists.
  - by rewrite bool_decide_eq_false_2.
  - rewrite bool_decide_eq_false_2; [done|]. by apply where_expired_null.
Qed.

End WarehouseSpec.

(** ** The readiness task on concrete tables *)

Module WarehouseScenarios.
Import Warehouse WarehouseSpec WarehouseData.

Local Open Scope Z_scope.

Lemma run_db_ann : process_personnel_readiness 100 db_ann = [snapshot_ann].
Proof. vm_compute. reflexivity. Defined.

Lemma run_db_bob_cy : process_personnel_readiness 100 db_bob_cy = [snapshot_bob_cy].
Proof. vm_compute. reflexivity. Defined.

Lemma run_db_dee : process_personnel_readiness 100 db_dee = [snapshot_dee].
Proof. vm_compute. reflexivity. Defined.

Lemma run_db_dee_eli :
  process_personnel_readiness 100 (add_assignment eli_on_rescue7 db_dee) = [snapshot_dee_eli].
Proof. vm_compute. reflexivity. Defined.

Lemma run_db_dee_fay :
  process_personnel_readiness 100 (add_assignment fay_on_rescue7 db_dee) = [snapshot_dee_fay].
Proof. vm_compute. reflexivity. Defined.

Lemma run_db_eli : process_personnel_readiness 100 db_eli = [snapshot_eli].
Proof. vm_compute. reflexivity. Defined.

Lemma run_db_eli_bob :
  process_personnel_readiness 100 (add_assignment bob_on_rescue7 db_eli) = [snapshot_eli_bob].
Proof. vm_compute. reflexivity. Defined.

Ltac in_table := solve [repeat constructor].
Ltac on_shift :=
  unfold on_shift_through, where_current, Sql.between; simpl;
  repeat split; first [in_table | lia | reflexivity].

(** Understaffed Rescue 7 (one person for a minimum of three) is flagged. *)
Lemma understaffed_flag_witness :
  snapshot_dee ∈ process_personnel_readiness 100 db_dee ∧
  ∃ m, source.minimum_staff snapshot_dee = Some m ∧
       source.understaffed_flag snapshot_dee
       = bool_decide (source.current_staff snapshot_dee < m).
Proof.
  assert (snapshot_dee ∈ process_personnel_readiness 100 db_dee) as Hin
    by (rewrite run_db_dee; in_table).
  split; [exact Hin|]. exact (understaffed_flag_iff_below_minimum _ _ _ Hin).
Defined.

(** Rescue 7 now needs three. The MERGE finds the row stored earlier in the
    day: it refreshes the counts, the score and the flag and keeps the
    stored minimum of one. *)
Lemma merge_keeps_stored_minimum_staff :
  process_personnel_readiness_task 100 db_dee [stored_dee]
  = [target.mk "U7" 0 100 (Some "Rescue 7") (Some "RESCUE") (Some 1) 1 1 30 [] true 100].
Proof. vm_compute. reflexivity. Qed.

Lemma readiness_score_values_witness :
  snapshot_bob_cy ∈ process_personnel_readiness 100 db_bob_cy ∧
  source.readiness_score snapshot_bob_cy ∈ [30; 50; 70; 85; 100].
Proof.
  assert (snapshot_bob_cy ∈ process_personnel_readiness 100 db_bob_cy) as Hin
    by (rewrite run_db_bob_cy; in_table).
  split; [exact Hin|]. exact (readiness_score_values _ _ _ Hin).
Defined.

(** Against C2 as stated: Ann is on shift on Medic 1 with an EMT-P that the
    expiration view reports EXPIRED, the staffing conditions hold, and the
    score is 100. *)
Lemma score_100_with_expired_certification :
  snapshot_ann ∈ process_personnel_readiness 100 db_ann ∧
  source.readiness_score snapshot_ann = 100 ∧
  on_shift_through 100 db_ann ann_on_medic1 ann medic1 ∧
  ∃ e, e ∈ certification_expiration_summary 100 db_ann ∧
       expiration_summary.personnel_id e = PERSONNEL.personnel_id ann ∧
       expiration_summary.certification_name e = "EMT-P" ∧
       expiration_summary.status e = "EXPIRED".
Proof.
  split; [rewrite run_db_ann; in_table|]. split; [reflexivity|].
  split; [on_shift|].
  exists (expiration_summary.mk "P1" "Ann" "Paramedic" "EMT-P" 50 0 "EXPIRED").
  split; [vm_compute; in_table|]. done.
Qed.

Lemma readiness_score_decision_table_witness :
  snapshot_ann ∈ process_personnel_readiness 100 db_ann ∧
  (source.readiness_score snapshot_ann = 100 ↔
   1 ≤ source.current_staff snapshot_ann ∧ 1 ≤ source.available_staff snapshot_ann ∧
   source.missing_certifications snapshot_ann = []).
Proof.
  assert (snapshot_ann ∈ process_personnel_readiness 100 db_ann) as Hin
    by (rewrite run_db_ann; in_table).
  split; [exact Hin|].
  destruct (readiness_score_decision_table _ _ _ Hin) as (m & Hm & H100 & _).
  injection Hm as <-. exact H100.
Defined.

(** Against C4 as stated: Cy, on shift on Medic 1, lists EMT-P with no
    expiry, and EMT-P is reported missing because Bob does not list it. *)
Lemma missing_although_held :
  snapshot_bob_cy ∈ process_personnel_readiness 100 db_bob_cy ∧
  "EMT-P" ∈ source.missing_certifications snapshot_bob_cy ∧
  on_shift_through 100 db_bob_cy cy_on_medic1 cy medic1 ∧
  UNITS.unit_id medic1 = source.unit_id snapshot_bob_cy ∧
  "EMT-P" ∈ PERSONNEL.certifications cy ∧
  PERSONNEL.cert_expirations cy = [].
Proof.
  split; [rewrite run_db_bob_cy; in_table|]. split; [in_table|].
  split; [on_shift|]. split; [reflexivity|]. split; [in_table|reflexivity].
Qed.

Lemma missing_certifications_witness :
  snapshot_bob_cy ∈ process_personnel_readiness 100 db_bob_cy ∧
  ("EMT-P" ∈ source.missing_certifications snapshot_bob_cy ↔
   ∃ ua p u, on_shift_through 100 db_bob_cy ua p u ∧
             UNITS.unit_id u = source.unit_id snapshot_bob_cy ∧
             "EMT-P" ∈ UNITS.required_certifications u ∧
             "EMT-P" ∉ PERSONNEL.certifications p).
Proof.
  assert (snapshot_bob_cy ∈ process_personnel_readiness 100 db_bob_cy) as Hin
    by (rewrite run_db_bob_cy; in_table).
  split; [exact Hin|].
  exact (missing_certifications_iff_some_person_lacks _ _ _ "EMT-P" Hin).
Defined.

(** Against C5 as stated: Eli holds a valid EMT-P, which Rescue 7 requires;
    putting Eli on shift adds ACLS to the missing certifications. *)
Lemma adding_certified_person_adds_missing :
  snapshot_dee ∈ process_personnel_readiness 100 db_dee ∧
  snapshot_dee_eli ∈ process_personnel_readiness 100 (add_assignment eli_on_rescue7 db_dee) ∧
  "EMT-P" ∈ UNITS.required_certifications rescue7 ∧
  "EMT-P" ∈ PERSONNEL.certifications eli ∧
  (∀ t, ("EMT-P", t) ∈ PERSONNEL.cert_expirations eli → 100 ≤ t) ∧
  ("ACLS" ∉ source.missing_certifications snapshot_dee) ∧
  "ACLS" ∈ source.missing_certifications snapshot_dee_eli.
Proof.
  split; [rewrite run_db_dee; in_table|].
  split; [rewrite run_db_dee_eli; in_table|].
  split; [in_table|]. split; [in_table|].
  split; [intros t Ht; apply list_elem_of_singleton in Ht; injection Ht as ->; lia|].
  split; [apply not_elem_of_nil|in_table].
Qed.

(** Eli is on shift on Rescue 7 and lacks ACLS. Putting Bob on shift, who
    lists nothing, keeps ACLS in the missing certifications and adds EMT-P,
    the other certification the unit requires. *)
Lemma missing_certifications_add_assignment_witness :
  snapshot_eli ∈ process_personnel_readiness 100 db_eli ∧
  snapshot_eli_bob ∈ process_personnel_readiness 100 (add_assignment bob_on_rescue7 db_eli) ∧
  source.unit_id snapshot_eli_bob = source.unit_id snapshot_eli ∧
  source.missing_certifications snapshot_eli = ["ACLS"] ∧
  source.missing_certifications snapshot_eli_bob = ["ACLS"; "EMT-P"] ∧
  (∀ c, c ∈ source.missing_certifications snapshot_eli →
        c ∈ source.missing_certifications snapshot_eli_bob) ∧
  (∀ c, c ∈ source.missing_certifications snapshot_eli_bob ↔
        c ∈ source.missing_certifications snapshot_eli ∨
        (where_current 100 bob_on_rescue7 ∧
         ∃ p u, p ∈ RAW_PERSONNEL db_eli ∧ u ∈ RAW_UNITS db_eli ∧
                UNIT_ASSIGNMENTS.personnel_id bob_on_rescue7 = PERSONNEL.personnel_id p ∧
                UNIT_ASSIGNMENTS.unit_id bob_on_rescue7 = UNITS.unit_id u ∧
                UNITS.unit_id u = source.unit_id snapshot_eli ∧
                c ∈ UNITS.required_certifications u ∧
                c ∉ PERSONNEL.certifications p)).
Proof.
  assert (snapshot_eli ∈ process_personnel_readiness 100 db_eli) as Hs
    by (rewrite run_db_eli; in_table).
  assert (snapshot_eli_bob ∈
          process_personnel_readiness 100 (add_assignment bob_on_rescue7 db_eli)) as Hs'
    by (rewrite run_db_eli_bob; in_table).
  destruct (missing_certifications_add_assignment 100 db_eli bob_on_rescue7
              snapshot_eli snapshot_eli_bob Hs Hs' eq_refl) as (Hkeep & Hiff & _).
  split; [exact Hs|]. split; [exact Hs'|]. split; [reflexivity|].
  split; [reflexivity|]. split; [reflexivity|].
  split; [exact Hkeep|exact Hiff].
Defined.

(** Against C6 as stated: Ann's shift ends at 100, the reference time is
    100, and she is the one person counted for Medic 1. *)
Lemma shift_end_instant_counts :
  UNIT_ASSIGNMENTS.assignment_status ann_on_medic1 = "ON_SHIFT" ∧
  UNIT_ASSIGNMENTS.shift_end ann_on_medic1 = 100 ∧
  counts_toward_staffing 100 db_ann ann_on_medic1 ∧
  process_personnel_readiness 100 db_ann = [snapshot_ann] ∧
  source.current_staff snapshot_ann = 1.
Proof.
  split; [reflexivity|]. split; [reflexivity|]. split.
  - exists (select_ca (ann_on_medic1, ann, medic1)).
    split; [vm_compute; in_table|done].
  - split; [apply run_db_ann|reflexivity].
Qed.

Lemma counts_witness :
  ann_on_medic1 ∈ RAW_UNIT_ASSIGNMENTS db_ann ∧
  counts_toward_staffing 100 db_ann ann_on_medic1 ∧
  ∃ s, s ∈ process_personnel_readiness 100 db_ann ∧
       source.unit_id s = UNIT_ASSIGNMENTS.unit_id ann_on_medic1 ∧
       UNIT_ASSIGNMENTS.personnel_id ann_on_medic1 ∈ staff_of 100 db_ann (source.unit_id s) ∧
       source.current_staff s = Z.of_nat (length (staff_of 100 db_ann (source.unit_id s))).
Proof.
  assert (ann_on_medic1 ∈ RAW_UNIT_ASSIGNMENTS db_ann) as Hin by in_table.
  destruct (counts_iff_on_shift_in_closed_window 100 db_ann _ Hin) as [Hiff Hstaff].
  assert (counts_toward_staffing 100 db_ann ann_on_medic1) as Hcounts.
  { apply Hiff. split; [reflexivity|]. split; [simpl; lia|]. split.
    - exists ann. split; [in_table|reflexivity].
    - exists medic1. split; [in_table|reflexivity]. }
  split; [exact Hin|]. split; [exact Hcounts|]. exact (Hstaff Hcounts).
Defined.

(** One hour later the expiration task takes Ann out of AVAILABLE. *)
Lemma expirations_task_witness :
  RAW_PERSONNEL db_ann !! 0%nat = Some ann ∧
  ∃ p', RAW_PERSONNEL (process_certification_expirations 100 db_ann) !! 0%nat = Some p' ∧
        PERSONNEL.availability_status p' = Some "IN_TRAINING" ∧
        PERSONNEL.updated_at p' = 100.
Proof.
  split; [reflexivity|].
  destruct (expirations_task_rewrites_personnel 100 db_ann 0 ann eq_refl)
    as (_ & _ & _ & Hupd & _).
  destruct Hupd as (p' & Hp' & Hst & Hat & _).
  - split; [exists "EMT-P", 50; split; [in_table|lia]|].
    exists "AVAILABLE". split; [reflexivity|discriminate].
  - exists p'. done.
Defined.

(** Against C10 as stated: Gus has a certification that expired at 50 and
    his status is not IN_TRAINING, it is [NULL]; the task at 100 leaves his
    row as it was, status and [updated_at] included. *)
Lemma null_status_is_not_rewritten :
  gus ∈ RAW_PERSONNEL db_gus ∧
  ("EMT-P", 50) ∈ PERSONNEL.cert_expirations gus ∧ 50 < 100 ∧
  PERSONNEL.availability_status gus ≠ Some "IN_TRAINING" ∧
  RAW_PERSONNEL (process_certification_expirations 100 db_gus) = [gus] ∧
  PERSONNEL.availability_status gus = None ∧
  PERSONNEL.updated_at gus ≠ 100.
Proof.
  split; [in_table|]. split; [in_table|]. split; [lia|]. split; [discriminate|].
  split; [vm_compute; reflexivity|]. split; [reflexivity|discriminate].
Qed.

End WarehouseScenarios.

(** ** The readiness page *)

Module DashboardSpec.
Import Dashboard.

(** *** Alerts of [ws.onmessage] *)

Lemma find_unit_cons id u prev :
  find_unit id (u :: prev)
  = if decide (unit_id u = id) then Some u else find_unit id prev.
Proof.
  unfold find_unit. simpl. case_decide; [done|].
  by destruct (list_find _ prev) as [[i v]|].
Qed.

(** After [newData] was merged into the list, the entry found for its unit
    is [newData] itself, when the unit was listed at all. *)
Lemma find_unit_updated newData prev :
  find_unit (unit_id newData) (update_units newData prev).1
  = (λ _, newData) <$> find_unit (unit_id newData) prev.
Proof.
  unfold update_units. simpl.
  induction prev as [|u prev IH]; [done|].
  rewrite fmap_cons, !find_unit_cons.
  destruct (decide (unit_id u = unit_id newData)) as [Heq|Hne].
  - by rewrite decide_True.
  - by rewrite decide_False.
Qed.

Lemma update_units_snd newData prev :
  (update_units newData prev).2 = alerts (find_unit (unit_id newData) prev) newData.
Proof. reflexivity. Qed.



(** *** Subscribing: one turn of [units.forEach] *)

(** A request for a unit whose registered channel is OPEN changes nothing. *)
Lemma subscribe_OPEN_is_noop wsUrl unit_id st h ws :
  wsConnectionsRef st !! unit_id = Some h →
  sockets st !! h = Some ws →
  readyState ws = OPEN →
  subscribe wsUrl unit_id st = st.
Proof.
  intros Hreg Hws Hopen. unfold subscribe. rewrite Hreg, Hws.
  by rewrite bool_decide_eq_true_2.
Qed.

(** A request for a unit whose registered channel is still CONNECTING opens
    another channel and registers it; the first one is left as it is. *)
Lemma subscribe_CONNECTING_opens_another wsUrl unit_id st h ws :
  wsConnectionsRef st !! unit_id = Some h →
  sockets st !! h = Some ws →
  readyState ws = CONNECTING →
  let st' := subscribe wsUrl unit_id st in
  sockets st' = sockets st ++ [mkWebSocket (unit_readiness_url wsUrl unit_id) CONNECTING] ∧
  wsConnectionsRef st' !! unit_id = Some (length (sockets st)) ∧
  sockets st' !! h = Some ws.
Proof.
  intros Hreg Hws Hconn. unfold subscribe. rewrite Hreg, Hws.
  rewrite bool_decide_eq_false_2 by (rewrite Hconn; discriminate).
  simpl. split; [done|]. split; [apply lookup_insert_eq|].
  by apply lookup_app_l_Some.
Qed.

(** *** Clean-up of units that no longer exist *)

Lemma close_live_idemp ws : close_live (close_live ws) = close_live ws.
Proof. unfold close_live. by destruct ws as [u []]. Qed.

Lemma close_if_live_lookup h ss h' :
  close_if_live h ss !! h'
  = if decide (h = h') then close_live <$> ss !! h' else ss !! h'.
Proof.
  unfold close_if_live, close_live.
  destruct (ss !! h) as [ws|] eqn:Hws.
  - destruct (open_or_connecting ws) eqn:Hlive.
    + destruct (decide (h = h')) as [<-|Hne].
      * rewrite list_lookup_insert_eq by (by eapply lookup_lt_Some).
        rewrite Hws. simpl. by rewrite Hlive.
      * by rewrite list_lookup_insert_ne.
    + destruct (decide (h = h')) as [<-|Hne]; [|done].
      rewrite Hws. simpl. by rewrite Hlive.
  - destruct (decide (h = h')) as [<-|Hne]; [|done]. by rewrite Hws.
Qed.

Lemma close_if_live_length h ss : length (close_if_live h ss) = length ss.
Proof.
  unfold close_if_live. destruct (ss !! h) as [ws|]; [|done].
  destruct (open_or_connecting ws); [apply length_insert|done].
Qed.

Section stale_loop.
Context (currentUnitIds : gset string).

Lemma stale_step_known st k h :
  k ∈ currentUnitIds → stale_step currentUnitIds (k, h) st = st.
Proof. intros Hk. unfold stale_step. by rewrite decide_True. Qed.

Lemma stale_step_stale st k h :
  k ∉ currentUnitIds →
  stale_step currentUnitIds (k, h) st
  = mkPage (units st) (wsConnected st ∖ {[k]}) (toasts st)
           (delete k (wsConnectionsRef st)) (close_if_live h (sockets st)).
Proof. intros Hk. unfold stale_step. by rewrite decide_False. Qed.

Lemma stale_loop_registry_stale st l unitId :
  unitId ∉ currentUnitIds → unitId ∈ l.*1 →
  wsConnectionsRef (foldr (stale_step currentUnitIds) st l) !! unitId = None ∧
  unitId ∉ wsConnected (foldr (stale_step currentUnitIds) st l).
Proof.
  intros Hstale. induction l as [|[k h] l IH]; cbn [foldr fmap list_fmap fst].
  { by intros ?%elem_of_nil. }
  intros Hin. destruct (decide (k ∈ currentUnitIds)) as [Hk|Hk].
  - rewrite stale_step_known by done.
    apply IH. apply elem_of_cons in Hin as [->|Hin]; done.
  - rewrite stale_step_stale by done. cbn [wsConnectionsRef wsConnected].
    rewrite elem_of_difference, elem_of_singleton.
    destruct (decide (unitId = k)) as [->|Hne].
    + split; [apply lookup_delete_eq|tauto].
    + apply elem_of_cons in Hin as [?|Hin]; [done|].
      destruct (IH Hin) as [IH1 IH2].
      split; [by rewrite lookup_delete_ne|tauto].
Qed.

Lemma stale_loop_registry_known st l unitId :
  unitId ∈ currentUnitIds →
  wsConnectionsRef (foldr (stale_step currentUnitIds) st l) !! unitId
  = wsConnectionsRef st !! unitId ∧
  (unitId ∈ wsConnected (foldr (stale_step currentUnitIds) st l)
   ↔ unitId ∈ wsConnected st).
Proof.
  intros Hknown. induction l as [|[k h] l IH]; cbn [foldr]; [done|].
  destruct (decide (k ∈ currentUnitIds)) as [Hk|Hk].
  - by rewrite stale_step_known.
  - rewrite stale_step_stale by done. cbn [wsConnectionsRef wsConnected].
    destruct IH as [IH1 IH2].
    assert (k ≠ unitId) by congruence.
    rewrite elem_of_difference, elem_of_singleton.
    split; [by rewrite lookup_delete_ne|]. rewrite IH2. split; [tauto|].
    intros ?. split; [done|congruence].
Qed.

Lemma stale_loop_frame st l :
  units (foldr (stale_step currentUnitIds) st l) = units st ∧
  toasts (foldr (stale_step currentUnitIds) st l) = toasts st ∧
  length (sockets (foldr (stale_step currentUnitIds) st l)) = length (sockets st).
Proof.
  induction l as [|[k h] l IH]; cbn [foldr]; [done|].
  destruct (decide (k ∈ currentUnitIds)) as [Hk|Hk].
  - by rewrite stale_step_known.
  - rewrite stale_step_stale by done. cbn [units toasts sockets].
    by rewrite close_if_live_length.
Qed.

(** The object [h] is closed by the loop when a stale entry names it, and
    is not touched otherwise. *)
Lemma stale_loop_sockets st l h :
  sockets (foldr (stale_step currentUnitIds) st l) !! h
  = if decide (Exists (λ e : string * nat, (e.1 ∉ currentUnitIds) ∧ e.2 = h) l)
    then close_live <$> sockets st !! h else sockets st !! h.
Proof.
  induction l as [|[k h0] l IH]; cbn [foldr].
  { destruct (decide (Exists _ [])) as [Hex|_]; [|done]. by apply Exists_nil in Hex. }
  destruct (decide (k ∈ currentUnitIds)) as [Hk|Hk].
  - rewrite stale_step_known by done. rewrite IH.
    destruct (decide (Exists _ l)) as [Hex|Hex];
      destruct (decide (Exists _ (_ :: _))) as [Hex'|Hex']; try done.
    + exfalso. apply Hex'. by right.
    + exfalso. apply Exists_cons in Hex' as [[Hk' _]|?]; done.
  - rewrite stale_step_stale by done. cbn [sockets].
    rewrite close_if_live_lookup, IH.
    destruct (decide (h0 = h)) as [->|Hne].
    + destruct (decide (Exists _ (_ :: _))) as [_|Hex']; [|exfalso; apply Hex'; by left].
      destruct (decide (Exists _ l)); [|done].
      rewrite <- option_fmap_compose. apply option_fmap_ext.
      intros ws. apply close_live_idemp.
    + destruct (decide (Exists _ l)) as [Hex|Hex];
        destruct (decide (Exists _ (_ :: _))) as [Hex'|Hex']; try done.
      * exfalso. apply Hex'. by right.
      * exfalso. apply Exists_cons in Hex' as [[_ Hh]|?]; done.
Qed.

End stale_loop.

(** A unit that disappeared: its channel is closed if it was OPEN or
    CONNECTING, its entry leaves the registry and the live set. *)
Lemma close_stale_disappeared currentUnitIds st unitId h :
  unitId ∉ currentUnitIds →
  wsConnectionsRef st !! unitId = Some h →
  let st' := close_stale currentUnitIds st in
  wsConnectionsRef st' !! unitId = None ∧
  (unitId ∉ wsConnected st') ∧
  sockets st' !! h = close_live <$> sockets st !! h.
Proof.
  intros Hstale Hreg. simpl. unfold close_stale.
  assert ((unitId, h) ∈ map_to_list (wsConnectionsRef st)) as Hin
    by by apply elem_of_map_to_list.
  destruct (stale_loop_registry_stale currentUnitIds st
              (map_to_list (wsConnectionsRef st)) unitId Hstale) as [H1 H2].
  { apply list_elem_of_fmap. by exists (unitId, h). }
  split; [done|]. split; [done|].
  rewrite stale_loop_sockets. rewrite decide_True; [done|].
  apply Exists_exists. by exists (unitId, h).
Qed.

(** A unit that is still known keeps its entry, its live flag and, in a
    registry without sharing, its channel. *)
Lemma close_stale_known currentUnitIds st unitId :
  unitId ∈ currentUnitIds →
  let st' := close_stale currentUnitIds st in
  wsConnectionsRef st' !! unitId = wsConnectionsRef st !! unitId ∧
  (unitId ∈ wsConnected st' ↔ unitId ∈ wsConnected st) ∧
  (registry_injective st →
   ∀ h, wsConnectionsRef st !! unitId = Some h → sockets st' !! h = sockets st !! h).
Proof.
  intros Hknown. simpl. unfold close_stale.
  destruct (stale_loop_registry_known currentUnitIds st
              (map_to_list (wsConnectionsRef st)) unitId Hknown) as [H1 H2].
  split; [done|]. split; [done|].
  intros Hinj h Hreg. rewrite stale_loop_sockets. rewrite decide_False; [done|].
  intros ([k h'] & Hin & Hk & Hh)%Exists_exists. simpl in *. subst h'.
  apply elem_of_map_to_list in Hin.
  assert (k = unitId) as -> by by eapply Hinj. done.
Qed.

(** *** The registry never shares an object *)

Lemma registry_wf_open_channel wsUrl unit_id st :
  registry_wf st → registry_wf (open_channel wsUrl unit_id st).
Proof.
  intros [Hinj Hlt]. unfold registry_wf, registry_injective, open_channel.
  cbn [wsConnectionsRef sockets]. rewrite length_app. simpl. split.
  - intros k1 k2 h. rewrite !lookup_insert.
    repeat case_decide; intros H1 H2; simplify_eq; try done.
    + apply Hlt in H2. lia.
    + apply Hlt in H1. lia.
    + by eapply Hinj.
  - intros k h. rewrite lookup_insert. case_decide; intros Hk; simplify_eq; [lia|].
    apply Hlt in Hk. lia.
Qed.

Lemma registry_wf_subscribe wsUrl unit_id st :
  registry_wf st → registry_wf (subscribe wsUrl unit_id st).
Proof.
  intros Hwf. unfold subscribe.
  destruct (wsConnectionsRef st !! unit_id) as [h|];
    [destruct (sockets st !! h) as [ws|]; [case_bool_decide; [done|]|]|];
    by apply registry_wf_open_channel.
Qed.

Lemma registry_wf_stale_step currentUnitIds e st :
  registry_wf st → registry_wf (stale_step currentUnitIds e st).
Proof.
  intros [Hinj Hlt]. destruct e as [k h].
  destruct (decide (k ∈ currentUnitIds)) as [Hk|Hk].
  - by rewrite stale_step_known.
  - rewrite stale_step_stale by done. unfold registry_wf, registry_injective.
    cbn [wsConnectionsRef sockets]. rewrite close_if_live_length. split.
    + intros k1 k2 h' H1%lookup_delete_Some H2%lookup_delete_Some.
      eapply Hinj; [apply H1|apply H2].
    + intros k' h' H1%lookup_delete_Some. eapply Hlt. apply H1.
Qed.

Lemma registry_wf_close_stale currentUnitIds st :
  registry_wf st → registry_wf (close_stale currentUnitIds st).
Proof.
  intros Hwf. unfold close_stale.
  induction (map_to_list (wsConnectionsRef st)) as [|e l IH]; [done|].
  cbn [foldr]. by apply registry_wf_stale_step.
Qed.

(** The effect keeps the registry free of sharing, and so do the handlers. *)
Lemma registry_wf_connect_effect wsUrl st :
  registry_wf st → registry_wf (connect_effect wsUrl st).
Proof.
  intros Hwf. unfold connect_effect. destruct (units st) as [|u us] eqn:Hu; [done|].
  generalize (u :: us). intros l.
  generalize (list_to_set (unit_id <$> l) : gset string). intros ids.
  apply (registry_wf_close_stale ids) in Hwf.
  revert Hwf. generalize (close_stale ids st). clear.
  induction l as [|unit l IH]; intros st0 Hwf; [done|].
  simpl. apply IH. by apply registry_wf_subscribe.
Qed.

Lemma registry_wf_handlers unit_id event st :
  registry_wf st →
  registry_wf (ws_onopen unit_id st) ∧ registry_wf (ws_onerror unit_id st) ∧
  registry_wf (ws_onclose unit_id st) ∧ registry_wf (ws_onmessage event st).
Proof.
  intros [Hinj Hlt]. split; [done|]. split; [done|]. split.
  - unfold registry_wf, registry_injective, ws_onclose.
    cbn [wsConnectionsRef sockets]. split.
    + intros k1 k2 h' H1%lookup_delete_Some H2%lookup_delete_Some.
      eapply Hinj; [apply H1|apply H2].
    + intros k' h' H1%lookup_delete_Some. eapply Hlt. apply H1.
  - unfold ws_onmessage. destruct event as [m|]; [|done].
    case_decide; [|done]. by destruct (update_units _ _).
Qed.

End DashboardSpec.

(** ** The readiness page on concrete states *)

Module DashboardScenarios.
Import Dashboard DashboardSpec DashboardData.

Local Open Scope Z_scope.



(** C8 on the list that holds Rescue 7 twice. The second turn of the loop finds the channel of the
    first turn registered but still CONNECTING, opens a second channel for
    the unit and registers it in place of the first, which stays
    CONNECTING: the unit has two live channels. *)
Theorem duplicate_unit_opens_two_channels :
  let st' := connect_effect wsUrl page_duplicate_unit in
  sockets st' = [mkWebSocket (unit_readiness_url wsUrl "U7") CONNECTING;
                 mkWebSocket (unit_readiness_url wsUrl "U7") CONNECTING] ∧
  wsConnectionsRef st' !! "U7" = Some 1%nat ∧
  length (live_channels wsUrl "U7" st') = 2%nat.
Proof. repeat split; vm_compute; reflexivity. Qed.

(** C9 on the page that shows Rescue 7 and Medic 1, both with an OPEN
    channel, when the next fetch brings Medic 1 alone. React runs the
    clean-up of the effect before it runs the effect again: the channel of
    Medic 1, a unit that is still known, is closed like the one of Rescue 7,
    and a new channel is opened and registered for Medic 1. *)
Theorem unit_disappears_every_channel_reopened :
  let before := page_run wsUrl mount
                  [FetchSucceeds [rescue7_staffed; medic1_staffed]; EffectsRun;
                   ChannelOpens 0 "U7"; ChannelOpens 1 "U1"] in
  let after := page_run wsUrl before [FetchSucceeds [medic1_staffed]; EffectsRun] in
  sockets (state before) = [mkWebSocket (unit_readiness_url wsUrl "U7") OPEN;
                            mkWebSocket (unit_readiness_url wsUrl "U1") OPEN] ∧
  wsConnectionsRef (state before) !! "U7" = Some 0%nat ∧
  wsConnectionsRef (state before) !! "U1" = Some 1%nat ∧
  sockets (state after) = [mkWebSocket (unit_readiness_url wsUrl "U7") CLOSING;
                           mkWebSocket (unit_readiness_url wsUrl "U1") CLOSING;
                           mkWebSocket (unit_readiness_url wsUrl "U1") CONNECTING] ∧
  wsConnectionsRef (state after) !! "U7" = None ∧
  wsConnectionsRef (state after) !! "U1" = Some 2%nat.
Proof. repeat split; vm_compute; reflexivity. Qed.

(** What follows. The new channel of Medic 1 opens, and then the closed
    one reports its [close]: [ws.onclose] deletes the entry of the unit,
    which names the new channel by now, and takes the unit out of the live
    set, while the new channel is OPEN. *)
Lemma late_close_unregisters_new_channel :
  let after := page_run wsUrl mount
                 [FetchSucceeds [rescue7_staffed; medic1_staffed]; EffectsRun;
                  ChannelOpens 0 "U7"; ChannelOpens 1 "U1";
                  FetchSucceeds [medic1_staffed]; EffectsRun] in
  let later := page_run wsUrl after [ChannelOpens 2 "U1"; ChannelCloses false 1 "U1"] in
  wsConnectionsRef (state after) !! "U1" = Some 2%nat ∧
  wsConnectionsRef (state later) !! "U1" = None ∧
  bool_decide ("U1" ∈ wsConnected (state later)) = false ∧
  sockets (state later) !! 1%nat = Some (mkWebSocket (unit_readiness_url wsUrl "U1") CLOSED) ∧
  sockets (state later) !! 2%nat = Some (mkWebSocket (unit_readiness_url wsUrl "U1") OPEN).
Proof. repeat split; vm_compute; reflexivity. Qed.

(** A transport error on the channel of Rescue 7: the object is CLOSED,
    [ws.onerror] and [ws.onclose] run, the entry and the live flag of the
    unit are gone, and Medic 1 keeps its entry and its channel. *)
Lemma transport_error_is_local :
  let before := page_run wsUrl mount
                  [FetchSucceeds [rescue7_staffed; medic1_staffed]; EffectsRun;
                   ChannelOpens 0 "U7"; ChannelOpens 1 "U1"] in
  let after := react wsUrl before (ChannelCloses true 0 "U7") in
  sockets (state after) = [mkWebSocket (unit_readiness_url wsUrl "U7") CLOSED;
                           mkWebSocket (unit_readiness_url wsUrl "U1") OPEN] ∧
  wsConnectionsRef (state after) !! "U7" = None ∧
  wsConnectionsRef (state after) !! "U1" = Some 1%nat ∧
  bool_decide ("U7" ∈ wsConnected (state after)) = false ∧
  bool_decide ("U1" ∈ wsConnected (state after)) = true.
Proof. repeat split; vm_compute; reflexivity. Qed.

End DashboardScenarios.

(** ** More on the readiness task *)

Module WarehouseProperties.
Import Warehouse WarehouseSpec.

Local Open Scope Z_scope.

(** [COUNT(DISTINCT e)] is monotone in what [e] keeps. *)
Lemma count_distinct_nonneg {A K} `{!EqDecision K} (e : A → option K) l :
  0 ≤ Sql.count_distinct e l.
Proof. unfold Sql.count_distinct. lia. Qed.

Lemma count_distinct_pos {A K} `{!EqDecision K} (e : A → option K) l x k :
  x ∈ l → e x = Some k → 1 ≤ Sql.count_distinct e l.
Proof.
  intros Hx He. unfold Sql.count_distinct.
  assert (k ∈ remove_dups (omap e l)) as Hin.
  { apply elem_of_remove_dups, list_elem_of_omap. eauto. }
  destruct (remove_dups (omap e l)); [by apply elem_of_nil in Hin|simpl; lia].
Qed.

Lemma count_distinct_subseteq {A B K} `{!EqDecision K}
    (e1 : A → option K) (e2 : B → option K) l1 l2 :
  (∀ k, k ∈ omap e1 l1 → k ∈ omap e2 l2) →
  Sql.count_distinct e1 l1 ≤ Sql.count_distinct e2 l2.
Proof.
  intros Hsub. unfold Sql.count_distinct. apply inj_le.
  apply submseteq_length, NoDup_submseteq; [apply NoDup_remove_dups|].
  intros k. rewrite !elem_of_remove_dups. apply Hsub.
Qed.

Lemma count_distinct_le {A K} `{!EqDecision K} (e1 e2 : A → option K) l :
  (∀ x k, e1 x = Some k → e2 x = Some k) →
  Sql.count_distinct e1 l ≤ Sql.count_distinct e2 l.
Proof.
  intros Himp. apply count_distinct_subseteq. intros k.
  rewrite !list_elem_of_omap. intros (x & Hx & He). eauto.
Qed.

(** The groups of [unit_readiness] are cut from the left join; these facts
    read them back as rows of [current_assignments]. *)
Lemma elem_of_group cas k (j : joined) :
  j ∈ filter (λ j : joined, ca.unit_id j.1 = k)
        (Sql.left_join on_missing_cert cas (missing_cert_rows cas)) →
  j.1 ∈ cas ∧ ca.unit_id j.1 = k.
Proof.
  intros [Hk Hj]%list_elem_of_filter. split; [|done].
  destruct j as [r ob]. eapply SqlFacts.elem_of_left_join_fst. eauto.
Qed.

Lemma group_of_row cas r :
  r ∈ cas →
  ∃ ob, (r, ob) ∈ filter (λ j : joined, ca.unit_id j.1 = ca.unit_id r)
                    (Sql.left_join on_missing_cert cas (missing_cert_rows cas)).
Proof.
  intros Hr.
  apply (SqlFacts.elem_of_left_join_fst on_missing_cert _ (missing_cert_rows cas))
    in Hr as [ob Hj].
  exists ob. by apply list_elem_of_filter.
Qed.

Lemma elem_of_unit_readiness_keys cas r :
  r ∈ unit_readiness cas ↔
  ∃ r0, r0 ∈ cas ∧
        r = aggregate (ca.unit_id r0)
              (filter (λ j : joined, ca.unit_id j.1 = ca.unit_id r0)
                 (Sql.left_join on_missing_cert cas (missing_cert_rows cas))).
Proof.
  unfold unit_readiness. rewrite list_elem_of_fmap. split.
  - intros (k & -> & Hk).
    apply elem_of_remove_dups, list_elem_of_fmap in Hk as ([r0 ob] & -> & Hj).
    exists r0. split; [|done]. eapply SqlFacts.elem_of_left_join_fst. eauto.
  - intros (r0 & Hr0 & ->). exists (ca.unit_id r0). split; [done|].
    apply elem_of_remove_dups.
    apply (SqlFacts.elem_of_left_join_fst on_missing_cert _ (missing_cert_rows cas))
      in Hr0 as [ob Hj].
    by apply (list_elem_of_fmap_2' _ _ (r0, ob)).
Qed.

Lemma snapshot_iff_on_shift now db unit_id :
  (∃ s, s ∈ process_personnel_readiness now db ∧ source.unit_id s = unit_id) ↔
  (∃ ua p u, on_shift_through now db ua p u ∧ UNITS.unit_id u = unit_id).
Proof.
  split.
  - intros (s & Hs & <-). apply elem_of_process in Hs as (r & Hr & ->). simpl.
    apply elem_of_unit_readiness_keys in Hr as (r0 & Hr0 & ->). simpl.
    apply elem_of_current_assignments in Hr0 as (ua & p & u & Hon & ->).
    exists ua, p, u. split; [done|]. simpl.
    by destruct Hon as (_ & _ & _ & _ & <- & _).
  - intros (ua & p & u & Hon & <-).
    destruct (snapshot_of_row now db (select_ca (ua, p, u))) as (s & Hs & Hk).
    { apply elem_of_current_assignments. eauto. }
    exists s. split; [done|]. rewrite Hk. simpl.
    by destruct Hon as (_ & _ & _ & _ & <- & _).
Qed.

(** X1. A unit has a snapshot exactly when somebody is on shift on it: a
    unit of the UNITS table with no current assignment gets no row at all,
    so the task never reports it, understaffed or not. *)
Theorem snapshot_iff_somebody_on_shift now db unit_id :
  (∃ s, s ∈ process_personnel_readiness now db ∧ source.unit_id s = unit_id) ↔
  (∃ ua p u, on_shift_through now db ua p u ∧ UNITS.unit_id u = unit_id).
Proof. apply snapshot_iff_on_shift. Qed.


Lemma snapshot_ids_NoDup now db :
  NoDup (source.unit_id <$> process_personnel_readiness now db).
Proof.
  unfold process_personnel_readiness, unit_readiness.
  rewrite <- !list_fmap_compose.
  match goal with |- NoDup (?f <$> ?l) => replace (f <$> l) with l end;
    [apply NoDup_remove_dups|].
  induction (remove_dups _) as [|k ks IH]; [done|].
  rewrite fmap_cons. by f_equal.
Qed.

Lemma snapshot_unique now db s1 s2 :
  s1 ∈ process_personnel_readiness now db →
  s2 ∈ process_personnel_readiness now db →
  source.unit_id s1 = source.unit_id s2 → s1 = s2.
Proof.
  intros (i & Hi)%list_elem_of_lookup (j & Hj)%list_elem_of_lookup Hk.
  assert (i = j) as ->; [|congruence].
  apply (NoDup_lookup _ i j (source.unit_id s1) (snapshot_ids_NoDup now db));
    rewrite list_lookup_fmap; [by rewrite Hi|by rewrite Hj, Hk].
Qed.

(** X2. The task computes one snapshot per unit: no two rows of a run have
    the same [unit_id]. *)
Theorem one_snapshot_per_unit now db :
  NoDup (source.unit_id <$> process_personnel_readiness now db).
Proof. apply snapshot_ids_NoDup. Qed.

(** X3. In every snapshot at least one person is counted, and the persons
    counted as available are among the persons counted:
    [1 <= current_staff] and [0 <= available_staff <= current_staff]. *)
Theorem staff_counts_bounds now db s :
  s ∈ process_personnel_readiness now db →
  1 ≤ source.current_staff s ∧
  0 ≤ source.available_staff s ≤ source.current_staff s.
Proof.
  intros Hs. apply elem_of_process in Hs as (r & Hr & ->). simpl.
  apply elem_of_unit_readiness in Hr as (g & Hg & -> & _). simpl.
  split; [|split].
  - destruct g as [|j g]; [done|].
    apply (count_distinct_pos _ _ j (ca.personnel_id j.1)); [left|done].
  - apply count_distinct_nonneg.
  - apply count_distinct_le. intros j k Hk. by case_decide.
Qed.

(** X4. [missing_certifications] is in ascending order without repetition,
    and each of its entries is required by the unit of the snapshot. *)
Theorem missing_certifications_sorted now db s :
  s ∈ process_personnel_readiness now db →
  StronglySorted String.le (source.missing_certifications s) ∧
  NoDup (source.missing_certifications s) ∧
  ∀ c, c ∈ source.missing_certifications s →
       ∃ u, u ∈ RAW_UNITS db ∧ UNITS.unit_id u = source.unit_id s ∧
            c ∈ UNITS.required_certifications u.
Proof.
  intros Hs. split; [|split].
  - apply elem_of_process in Hs as (r & Hr & ->). simpl.
    apply elem_of_unit_readiness in Hr as (g & _ & -> & _). simpl.
    apply StronglySorted_merge_sort; apply _.
  - apply elem_of_process in Hs as (r & Hr & ->). simpl.
    apply elem_of_unit_readiness in Hr as (g & _ & -> & _). simpl.
    unfold Sql.array_agg_distinct. rewrite merge_sort_Permutation.
    apply NoDup_remove_dups.
  - intros c Hc.
    apply (elem_of_missing_certifications _ _ _ _ Hs) in Hc
      as (ua & p & u & Hon & Hu & Hreq & _).
    exists u. by destruct Hon as (_ & _ & ? & _).
Qed.

(** X5. The flag and the score agree: a snapshot is flagged understaffed
    exactly when its score is 50 or 30, and not flagged exactly when it is
    70, 85 or 100. *)
Theorem understaffed_iff_low_score now db s :
  s ∈ process_personnel_readiness now db →
  (source.understaffed_flag s = true ↔ source.readiness_score s ≤ 50) ∧
  (source.understaffed_flag s = false ↔ 70 ≤ source.readiness_score s).
Proof.
  intros Hs. apply elem_of_process in Hs as (r & Hr & ->). simpl.
  destruct (minimum_staff_not_null _ _ Hr) as [m Hm].
  unfold understaffed_flag, readiness_score.
  rewrite !SqlFacts.is_true3_and3, Hm. simpl.
  repeat case_bool_decide; simpl; split; split; intros; first [lia|done].
Qed.

(** X6. The score 50 needs a crew of five: when a snapshot scores 50, the
    unit's [minimum_staff] is at least 5 and at least 4 persons are counted.
    A smaller unit that is short of staff scores 30. *)
Theorem score_50_needs_minimum_of_five now db s :
  s ∈ process_personnel_readiness now db →
  source.readiness_score s = 50 →
  ∃ m, source.minimum_staff s = Some m ∧ 5 ≤ m ∧ 4 ≤ source.current_staff s < m.
Proof.
  intros Hs H50. apply elem_of_process in Hs as (r & Hr & ->). simpl in *.
  destruct (minimum_staff_not_null _ _ Hr) as [m Hm].
  destruct (readiness_score_table r m Hm) as (_ & _ & _ & H50' & _).
  apply H50' in H50. exists m. split; [done|]. lia.
Qed.

(** *** The aggregates see the rows as a set *)

Lemma max_spec {A} (le : relation A) `{!RelDecision le, !PreOrder le, !Total le} l m :
  Sql.max le l = Some m → m ∈ l ∧ ∀ x, x ∈ l → le x m.
Proof.
  revert m. induction l as [|y l IH]; intros m; simpl; [done|].
  destruct (Sql.max le l) as [m0|] eqn:Hmax.
  - destruct (IH m0 eq_refl) as [Hin Hle]. intros [= <-].
    destruct (decide (le y m0)) as [Hy|Hy].
    + split; [by right|]. intros x [->|Hx]%elem_of_cons; auto.
    + assert (le m0 y) by (destruct (total le y m0); done).
      split; [left|]. intros x [->|Hx]%elem_of_cons; [done|].
      by trans m0; [apply Hle|].
  - intros [= <-]. destruct l as [|z l]; [|simpl in Hmax; by destruct (Sql.max le l)].
    split; [left|]. by intros x ->%list_elem_of_singleton.
Qed.

Lemma max_ext {A} (le : relation A)
    `{!RelDecision le, !PartialOrder le, !Total le} l1 l2 :
  same_rows l1 l2 → Sql.max le l1 = Sql.max le l2.
Proof.
  intros Hsame.
  destruct (Sql.max le l1) as [m1|] eqn:H1, (Sql.max le l2) as [m2|] eqn:H2.
  - apply max_spec in H1 as [Hin1 Hle1]; [|apply _..].
    apply max_spec in H2 as [Hin2 Hle2]; [|apply _..].
    f_equal. apply (anti_symm le); [apply Hle2, Hsame|apply Hle1, Hsame]; done.
  - apply max_spec in H1 as [Hin1 _]; [|apply _..]. apply Hsame in Hin1.
    destruct l2; [by apply elem_of_nil in Hin1|].
    simpl in H2. by destruct (Sql.max le l2).
  - apply max_spec in H2 as [Hin2 _]; [|apply _..]. apply Hsame in Hin2.
    destruct l1; [by apply elem_of_nil in Hin2|].
    simpl in H1. by destruct (Sql.max le l1).
  - done.
Qed.

Lemma count_distinct_ext {A B K} `{!EqDecision K}
    (e1 : A → option K) (e2 : B → option K) l1 l2 :
  same_rows (omap e1 l1) (omap e2 l2) →
  Sql.count_distinct e1 l1 = Sql.count_distinct e2 l2.
Proof.
  intros Hsame. apply Z.le_antisymm; apply count_distinct_subseteq;
    intros k; apply Hsame.
Qed.

Lemma array_agg_distinct_ext {A B} (e1 : A → option string) (e2 : B → option string) l1 l2 :
  same_rows (omap e1 l1) (omap e2 l2) →
  Sql.array_agg_distinct e1 l1 = Sql.array_agg_distinct e2 l2.
Proof.
  intros Hsame. unfold Sql.array_agg_distinct.
  apply (StronglySorted_unique String.le);
    [apply StronglySorted_merge_sort; apply _..|].
  rewrite !merge_sort_Permutation.
  apply NoDup_Permutation; [apply NoDup_remove_dups..|].
  intros c. rewrite !elem_of_remove_dups. apply Hsame.
Qed.

(** What a group offers to the aggregates, read on [current_assignments]. *)
Lemma group_column {B} cas k (f : ca.row → B) x :
  x ∈ (λ j : joined, f j.1) <$> group_of cas k ↔
  ∃ r, r ∈ cas ∧ ca.unit_id r = k ∧ f r = x.
Proof.
  rewrite list_elem_of_fmap. split.
  - intros (j & -> & Hj). apply elem_of_group in Hj as [Hj Hk]. eauto.
  - intros (r & Hr & <- & <-). destruct (group_of_row cas r Hr) as [ob Hj].
    by exists (r, ob).
Qed.

Lemma group_option_column {K} cas k (e : ca.row → option K) x :
  x ∈ omap (λ j : joined, e j.1) (group_of cas k) ↔
  ∃ r, r ∈ cas ∧ ca.unit_id r = k ∧ e r = Some x.
Proof.
  rewrite list_elem_of_omap. split.
  - intros (j & Hj & He). apply elem_of_group in Hj as [Hj Hk]. eauto.
  - intros (r & Hr & <- & He). destruct (group_of_row cas r Hr) as [ob Hj].
    by exists (r, ob).
Qed.

Lemma group_missing_cert cas k c :
  c ∈ omap (λ j : joined, missing_cert.cert <$> j.2) (group_of cas k) ↔
  ∃ r, r ∈ cas ∧ ca.unit_id r = k ∧
       c ∈ ca.required_certifications r ∧ c ∉ ca.certifications r.
Proof.
  rewrite list_elem_of_omap. split.
  - intros ([r0 [m|]] & Hj & Hc); [|done]. simpl in Hc. injection Hc as <-.
    apply list_elem_of_filter in Hj as [Hk Hj]. simpl in Hk.
    apply SqlFacts.elem_of_left_join_Some in Hj as (Hr0 & Hm & [Hu Hp]).
    apply elem_of_missing_cert_rows in Hm as (ca2 & Hca2 & Hreq & Hnot & Hu2 & _).
    exists ca2. split; [done|]. split; [congruence|done].
  - intros (ca2 & Hca2 & Hk & Hreq & Hnot).
    exists (ca2, Some (missing_cert.mk (ca.unit_id ca2) (ca.personnel_id ca2) c)).
    split; [|done]. apply list_elem_of_filter. split; [done|].
    apply SqlFacts.elem_of_left_join_Some. split; [done|]. split; [|done].
    apply elem_of_missing_cert_rows. exists ca2. done.
Qed.

Lemma group_available cas k x :
  x ∈ omap (λ j : joined, if decide (ca.availability_status j.1 = Some "AVAILABLE")
                          then Some (ca.personnel_id j.1) else None)
           (group_of cas k) ↔
  ∃ r, r ∈ cas ∧ ca.unit_id r = k ∧
       ca.availability_status r = Some "AVAILABLE" ∧ ca.personnel_id r = x.
Proof.
  rewrite list_elem_of_omap. split.
  - intros (j & Hj & He). apply elem_of_group in Hj as [Hj Hk].
    exists j.1. case_decide; [|done]. injection He as <-. done.
  - intros (r & Hr & <- & Hst & <-). destruct (group_of_row cas r Hr) as [ob Hj].
    exists (r, ob). split; [done|]. simpl. by rewrite decide_True.
Qed.

Lemma elem_of_unit_readiness_group cas r :
  r ∈ unit_readiness cas ↔
  ∃ r0, r0 ∈ cas ∧ r = aggregate (ca.unit_id r0) (group_of cas (ca.unit_id r0)).
Proof. exact (elem_of_unit_readiness_keys cas r). Qed.

Lemma same_image {A K} (κ : A → K) (l1 l2 : list A) (P : K → Prop) :
  same_rows (κ <$> l1) (κ <$> l2) →
  (∃ r, r ∈ l1 ∧ P (κ r)) → ∃ r, r ∈ l2 ∧ P (κ r).
Proof.
  intros Hsame (r & Hr & HP).
  assert (κ r ∈ κ <$> l2) as (r' & Heq & Hr')%list_elem_of_fmap
    by by apply Hsame, list_elem_of_fmap_2.
  exists r'. split; [done|]. by rewrite <- Heq.
Qed.

Lemma same_rows_sym {A} (l1 l2 : list A) : same_rows l1 l2 → same_rows l2 l1.
Proof. intros H x. symmetry. apply H. Qed.

Lemma unit_readiness_same_columns cas1 cas2 r :
  same_rows (aggregated_columns <$> cas1) (aggregated_columns <$> cas2) →
  r ∈ unit_readiness cas1 → r ∈ unit_readiness cas2.
Proof.
  intros Hsame (r0 & Hr0 & ->)%elem_of_unit_readiness_group.
  assert (∀ P : _ → Prop,
            (∃ r, r ∈ cas1 ∧ P (aggregated_columns r)) ↔
            (∃ r, r ∈ cas2 ∧ P (aggregated_columns r))) as Himg.
  { intros P. split; apply same_image; [done|by apply same_rows_sym]. }
  destruct (proj1 (Himg (λ c, c = aggregated_columns r0))) as (r0' & Hr0' & Heq);
    [by exists r0|].
  apply elem_of_unit_readiness_group. exists r0'. split; [done|].
  assert (ca.unit_id r0' = ca.unit_id r0) as -> by (by injection Heq).
  set (k := ca.unit_id r0). unfold aggregate. f_equal.
  - apply max_ext; [apply _..|]. intros x. rewrite !group_column.
    apply (Himg (λ c, c.1.1.1.1.1.1.1 = k ∧ c.1.1.1.2 = x)).
  - apply max_ext; [apply _..|]. intros x. rewrite !group_column.
    apply (Himg (λ c, c.1.1.1.1.1.1.1 = k ∧ c.1.1.2 = x)).
  - apply max_ext; [apply _..|]. intros x. rewrite !group_column.
    apply (Himg (λ c, c.1.1.1.1.1.1.1 = k ∧ c.1.2 = x)).
  - apply count_distinct_ext. intros x.
    rewrite !(group_option_column _ _ (λ r, Some (ca.personnel_id r))).
    apply (Himg (λ c, c.1.1.1.1.1.1.1 = k ∧ Some c.1.1.1.1.1.1.2 = Some x)).
  - apply count_distinct_ext. intros x.
    rewrite !group_available.
    apply (Himg (λ c, c.1.1.1.1.1.1.1 = k ∧ c.1.1.1.1.1.2 = Some "AVAILABLE" ∧
                      c.1.1.1.1.1.1.2 = x)).
  - apply array_agg_distinct_ext. intros c. rewrite !group_missing_cert.
    apply (Himg (λ a, a.1.1.1.1.1.1.1 = k ∧ c ∈ a.2 ∧ c ∉ a.1.1.1.1.2)).
Qed.

Lemma current_assignments_same_columns now db1 db2 x :
  same_for_readiness db1 db2 →
  x ∈ aggregated_columns <$> current_assignments now db1 →
  x ∈ aggregated_columns <$> current_assignments now db2.
Proof.
  intros (HP & HU & HA) (r & -> & Hr)%list_elem_of_fmap.
  apply elem_of_current_assignments in Hr
    as (ua & p & u & (Hua & Hp & Hu & Hpid & Huid & Hw) & ->).
  assert (readiness_columns p ∈ readiness_columns <$> RAW_PERSONNEL db2)
    as (p2 & Heq & Hp2)%list_elem_of_fmap
    by by apply HP, list_elem_of_fmap_2.
  injection Heq as Hid Hst Hcerts.
  apply list_elem_of_fmap. exists (select_ca (ua, p2, u)). split.
  - unfold aggregated_columns. simpl. by rewrite Hid, Hst, Hcerts.
  - apply elem_of_current_assignments. exists ua, p2, u. split; [|done].
    split; [by apply HA|]. split; [done|]. split; [by apply HU|].
    split; [congruence|done].
Qed.

Lemma same_for_readiness_sym db1 db2 :
  same_for_readiness db1 db2 → same_for_readiness db2 db1.
Proof. intros (? & ? & ?). split; [|split]; by apply same_rows_sym. Qed.

(** X7. The snapshots depend on the tables only as sets of rows, and on a
    person only through [personnel_id], [availability_status] and
    [certifications]: reordering or repeating rows, or changing names,
    roles, [cert_expirations] or [updated_at], leaves the computed snapshots
    the same. *)
Theorem readiness_reads_rows_as_sets now db1 db2 :
  same_for_readiness db1 db2 →
  same_rows (process_personnel_readiness now db1) (process_personnel_readiness now db2).
Proof.
  assert (∀ db1 db2 s, same_for_readiness db1 db2 →
            s ∈ process_personnel_readiness now db1 →
            s ∈ process_personnel_readiness now db2) as Hdir.
  { clear. intros db1 db2 s Hsame (r & -> & Hr)%list_elem_of_fmap.
    apply list_elem_of_fmap_2.
    apply (unit_readiness_same_columns (current_assignments now db1)); [|done].
    intros x. split; apply current_assignments_same_columns;
      [done|by apply same_for_readiness_sym]. }
  intros Hsame s. split; apply Hdir; [done|by apply same_for_readiness_sym].
Qed.

(** *** The expiration task *)

Lemma elem_of_expirations now db p' :
  p' ∈ RAW_PERSONNEL (process_certification_expirations now db) ↔
  ∃ p, p ∈ RAW_PERSONNEL db ∧
       p' = if decide (where_expired now p) then set_in_training now p else p.
Proof.
  unfold process_certification_expirations. simpl. rewrite list_elem_of_fmap.
  split; intros (p & H1 & H2); exists p; done.
Qed.

(** X8. After a run of the expiration task a person with a certification
    expired at that time is IN_TRAINING, unless the status is [NULL]: a
    [NULL] status is never rewritten, whatever has expired. A second run at
    the same time changes nothing. *)
Theorem expirations_task_settles now db :
  (∀ p', p' ∈ RAW_PERSONNEL (process_certification_expirations now db) →
         has_expired_certification now p' →
         PERSONNEL.availability_status p' = Some "IN_TRAINING" ∨
         PERSONNEL.availability_status p' = None) ∧
  (∀ i p, RAW_PERSONNEL db !! i = Some p →
          PERSONNEL.availability_status p = None →
          RAW_PERSONNEL (process_certification_expirations now db) !! i = Some p) ∧
  process_certification_expirations now (process_certification_expirations now db)
  = process_certification_expirations now db.
Proof.
  assert (∀ p, ¬ where_expired now
                 (if decide (where_expired now p) then set_in_training now p else p))
    as Hdone.
  { intros p. case_decide as Hw; [|done].
    rewrite where_expired_iff. simpl. intros (_ & status & [= <-] & Hne). done. }
  split; [|split].
  - intros p' (p & Hp & ->)%elem_of_expirations Hexp.
    destruct (PERSONNEL.availability_status
                (if decide (where_expired now p) then set_in_training now p else p))
      as [status|] eqn:Hst; [|by right].
    destruct (decide (status = "IN_TRAINING")) as [->|Hne]; [by left|].
    exfalso. apply (Hdone p). apply where_expired_iff. split; [done|].
    by exists status.
  - intros i p Hi Hnull. unfold process_certification_expirations. simpl.
    rewrite list_lookup_fmap, Hi. simpl. rewrite decide_False; [done|].
    by apply where_expired_null.
  - unfold process_certification_expirations. simpl. f_equal.
    rewrite <- list_fmap_compose. apply list_fmap_ext.
    intros i p _. simpl. by rewrite decide_False.
Qed.

Lemma readiness_score_mono r r' :
  ur.minimum_staff r' = ur.minimum_staff r →
  ur.current_staff r' = ur.current_staff r →
  ur.missing_certs r' = ur.missing_certs r →
  ur.available_staff r' ≤ ur.available_staff r →
  readiness_score r' ≤ readiness_score r.
Proof.
  intros Hm Hc Hmiss Ha. unfold readiness_score.
  rewrite !SqlFacts.is_true3_and3, Hm, Hc, Hmiss.
  destruct (ur.minimum_staff r) as [m|]; simpl; [|done].
  repeat case_bool_decide; simpl; lia.
Qed.

(** Rows that agree on the staffing columns, with no more available
    persons on the primed side, give a lowered snapshot. *)
Lemma lowered_aggregate now cas cas' k :
  same_rows (staffing_columns <$> cas) (staffing_columns <$> cas') →
  (∀ x, (∃ r, r ∈ cas' ∧ ca.unit_id r = k ∧
              ca.availability_status r = Some "AVAILABLE" ∧ ca.personnel_id r = x) →
        ∃ r, r ∈ cas ∧ ca.unit_id r = k ∧
             ca.availability_status r = Some "AVAILABLE" ∧ ca.personnel_id r = x) →
  lowered (select_source now (aggregate k (group_of cas k)))
          (select_source now (aggregate k (group_of cas' k))).
Proof.
  intros Hsame Havail.
  assert (∀ P : _ → Prop,
            (∃ r, r ∈ cas' ∧ P (staffing_columns r)) ↔
            (∃ r, r ∈ cas ∧ P (staffing_columns r))) as Himg.
  { intros P. split; apply same_image; [by apply same_rows_sym|done]. }
  assert (ur.unit_name (aggregate k (group_of cas' k))
          = ur.unit_name (aggregate k (group_of cas k))) as Hname.
  { simpl. apply max_ext; [apply _..|]. intros x. rewrite !group_column.
    apply (Himg (λ c, c.1.1.1.1.1.1 = k ∧ c.1.1.1.2 = x)). }
  assert (ur.type (aggregate k (group_of cas' k))
          = ur.type (aggregate k (group_of cas k))) as Htype.
  { simpl. apply max_ext; [apply _..|]. intros x. rewrite !group_column.
    apply (Himg (λ c, c.1.1.1.1.1.1 = k ∧ c.1.1.2 = x)). }
  assert (ur.minimum_staff (aggregate k (group_of cas' k))
          = ur.minimum_staff (aggregate k (group_of cas k))) as Hmin.
  { simpl. apply max_ext; [apply _..|]. intros x. rewrite !group_column.
    apply (Himg (λ c, c.1.1.1.1.1.1 = k ∧ c.1.2 = x)). }
  assert (ur.current_staff (aggregate k (group_of cas' k))
          = ur.current_staff (aggregate k (group_of cas k))) as Hcur.
  { simpl. apply count_distinct_ext. intros x.
    rewrite !(group_option_column _ _ (λ r, Some (ca.personnel_id r))).
    apply (Himg (λ c, c.1.1.1.1.1.1 = k ∧ Some c.1.1.1.1.1.2 = Some x)). }
  assert (ur.missing_certs (aggregate k (group_of cas' k))
          = ur.missing_certs (aggregate k (group_of cas k))) as Hmiss.
  { simpl. apply array_agg_distinct_ext. intros c. rewrite !group_missing_cert.
    apply (Himg (λ a, a.1.1.1.1.1.1 = k ∧ c ∈ a.2 ∧ c ∉ a.1.1.1.1.2)). }
  assert (ur.available_staff (aggregate k (group_of cas' k))
          ≤ ur.available_staff (aggregate k (group_of cas k))) as Hav.
  { simpl. apply count_distinct_subseteq. intros x.
    rewrite !group_available. apply Havail. }
  unfold lowered. cbn [select_source source.unit_id source.unit_name source.type
    source.minimum_staff source.current_staff source.missing_certifications
    source.understaffed_flag source.available_staff source.readiness_score].
  split; [done|]. split; [done|]. split; [done|]. split; [done|].
  split; [done|]. split; [done|].
  split; [unfold understaffed_flag; by rewrite Hmin, Hcur|].
  split; [done|]. by apply readiness_score_mono.
Qed.

Lemma current_assignments_after_expirations now0 now db :
  let cas := current_assignments now db in
  let cas' := current_assignments now (process_certification_expirations now0 db) in
  same_rows (staffing_columns <$> cas) (staffing_columns <$> cas') ∧
  ∀ k x, (∃ r, r ∈ cas' ∧ ca.unit_id r = k ∧
                ca.availability_status r = Some "AVAILABLE" ∧ ca.personnel_id r = x) →
         ∃ r, r ∈ cas ∧ ca.unit_id r = k ∧
              ca.availability_status r = Some "AVAILABLE" ∧ ca.personnel_id r = x.
Proof.
  cbv zeta. split.
  - intros c. rewrite !list_elem_of_fmap. split.
    + intros (r & -> & Hr).
      apply elem_of_current_assignments in Hr
        as (ua & p & u & (Hua & Hp & Hu & Hpid & Huid & Hw) & ->).
      exists (select_ca (ua, if decide (where_expired now0 p)
                             then set_in_training now0 p else p, u)).
      split; [by case_decide|].
      apply elem_of_current_assignments. eexists ua, _, u. split; [|done].
      split; [done|]. split; [apply elem_of_expirations; eauto|].
      split; [done|]. split; [by case_decide|done].
    + intros (r & -> & Hr).
      apply elem_of_current_assignments in Hr
        as (ua & p' & u & (Hua & Hp' & Hu & Hpid & Huid & Hw) & ->).
      apply elem_of_expirations in Hp' as (p & Hp & ->).
      exists (select_ca (ua, p, u)). split; [by case_decide|].
      apply elem_of_current_assignments. exists ua, p, u. split; [|done].
      split; [done|]. split; [done|]. split; [done|].
      split; [by case_decide|done].
  - intros k x (r & Hr & Hk & Hst & Hx).
    apply elem_of_current_assignments in Hr
      as (ua & p' & u & (Hua & Hp' & Hu & Hpid & Huid & Hw) & ->).
    apply elem_of_expirations in Hp' as (p & Hp & ->).
    case_decide as Hexp; [done|].
    exists (select_ca (ua, p, u)). split; [|done].
    apply elem_of_current_assignments. exists ua, p, u. done.
Qed.

(** X9. The expiration task can only lower readiness. Whatever the times of
    the two tasks, each unit has a snapshot after the expiration task
    exactly when it had one before, with the same [minimum_staff],
    [current_staff], [missing_certifications] and [understaffed_flag], and
    with [available_staff] and [readiness_score] not greater than before. *)
Theorem expirations_only_lower_readiness now0 now db :
  let db' := process_certification_expirations now0 db in
  (∀ s, s ∈ process_personnel_readiness now db →
        ∃ s', s' ∈ process_personnel_readiness now db' ∧ lowered s s') ∧
  (∀ s', s' ∈ process_personnel_readiness now db' →
         ∃ s, s ∈ process_personnel_readiness now db ∧ lowered s s').
Proof.
  cbv zeta.
  destruct (current_assignments_after_expirations now0 now db) as [Hsame Havail].
  split.
  - intros s (r & -> & Hr)%list_elem_of_fmap.
    apply elem_of_unit_readiness_group in Hr as (r0 & Hr0 & ->).
    destruct (same_image staffing_columns _ _
                (λ c, c = staffing_columns r0) Hsame) as (r0' & Hr0' & Heq);
      [by exists r0|].
    assert (ca.unit_id r0' = ca.unit_id r0) as Hk by (by injection Heq).
    exists (select_source now
              (aggregate (ca.unit_id r0)
                 (group_of (current_assignments now
                              (process_certification_expirations now0 db))
                           (ca.unit_id r0)))).
    split; [|apply lowered_aggregate; [exact Hsame|apply Havail]].
    apply list_elem_of_fmap_2, elem_of_unit_readiness_group.
    exists r0'. by rewrite Hk.
  - intros s' (r & -> & Hr)%list_elem_of_fmap.
    apply elem_of_unit_readiness_group in Hr as (r0' & Hr0' & ->).
    destruct (same_image staffing_columns _ _
                (λ c, c = staffing_columns r0') (same_rows_sym _ _ Hsame))
      as (r0 & Hr0 & Heq); [by exists r0'|].
    assert (ca.unit_id r0 = ca.unit_id r0') as Hk by (by injection Heq).
    exists (select_source now
              (aggregate (ca.unit_id r0')
                 (group_of (current_assignments now db) (ca.unit_id r0')))).
    split; [|apply lowered_aggregate; [exact Hsame|apply Havail]].
    apply list_elem_of_fmap_2, elem_of_unit_readiness_group.
    exists r0. by rewrite Hk.
Qed.

(** *** The MERGE into the aggregates table *)

Lemma snapshot_date now db s :
  s ∈ process_personnel_readiness now db →
  source.date s = CURRENT_DATE now ∧ source.calculated_at s = now.
Proof. by intros (r & -> & _)%list_elem_of_fmap. Qed.

(** The row a stored row becomes. *)
Lemma merged_row_cases now src t :
  let t' := match filter (on_target t) src with
            | s :: _ => update_set now t s
            | [] => t
            end in
  (t' = t ∧ ∀ s, s ∈ src → ¬ on_target t s) ∨
  (∃ s, s ∈ src ∧ on_target t s ∧ t' = update_set now t s).
Proof.
  cbv zeta. destruct (filter (on_target t) src) as [|s0 l] eqn:Hf.
  - left. split; [done|]. intros s Hs Hon.
    by apply (filter_nil_not_elem_of _ _ s Hf).
  - right. exists s0.
    assert (s0 ∈ filter (on_target t) src) as [??]%list_elem_of_filter
      by (rewrite Hf; left).
    done.
Qed.

Lemma elem_of_task now db tgt t' :
  t' ∈ process_personnel_readiness_task now db tgt ↔
  (∃ t, t ∈ tgt ∧
        t' = match filter (on_target t) (process_personnel_readiness now db) with
             | s :: _ => update_set now t s
             | [] => t
             end) ∨
  (∃ s, s ∈ process_personnel_readiness now db ∧
        Forall (λ t, ¬ on_target t s) tgt ∧ t' = insert_values now s).
Proof.
  unfold process_personnel_readiness_task, merge_readiness.
  rewrite elem_of_app, !list_elem_of_fmap. split.
  - intros [(t & -> & Ht)|(s & -> & [Hnew Hs]%list_elem_of_filter)]; [left|right]; eauto.
  - intros [(t & Ht & ->)|(s & Hs & Hnew & ->)]; [left|right]; eauto.
    exists s. split; [done|]. by apply list_elem_of_filter.
Qed.

Lemma task_stores_snapshot_exists now db tgt s :
  s ∈ process_personnel_readiness now db →
  ∃ t, t ∈ process_personnel_readiness_task now db tgt ∧ on_target t s.
Proof.
  intros Hs.
  destruct (decide (Exists (λ t, on_target t s) tgt)) as [Hex|Hnew].
  - apply Exists_exists in Hex as (t0 & Ht0 & Hon).
    destruct (merged_row_cases now (process_personnel_readiness now db) t0)
      as [[_ Hno]|(s0 & Hs0 & Hon0 & Heq)]; [by destruct (Hno s Hs)|].
    eexists. split; [apply elem_of_task; left; eauto|].
    rewrite Heq. exact Hon.
  - exists (insert_values now s). split; [|done].
    apply elem_of_task. right. exists s. split; [done|]. split; [|done].
    apply Forall_forall. intros t Ht Hon. apply Hnew, Exists_exists. eauto.
Qed.

Lemma task_stored_columns now db tgt s t :
  s ∈ process_personnel_readiness now db →
  t ∈ process_personnel_readiness_task now db tgt → on_target t s →
  target.calculated_at t = now ∧
  target.current_staff t = source.current_staff s ∧
  target.available_staff t = source.available_staff s ∧
  target.readiness_score t = source.readiness_score s ∧
  target.missing_certifications t = source.missing_certifications s ∧
  target.understaffed_flag t = source.understaffed_flag s ∧
  target.last_updated t = now.
Proof.
  intros Hs. destruct (snapshot_date _ _ _ Hs) as [Hdate Hat].
  intros [(t0 & Ht0 & ->)|(s1 & Hs1 & _ & ->)]%elem_of_task Hon.
  - destruct (merged_row_cases now (process_personnel_readiness now db) t0)
      as [[Heq Hno]|(s0 & Hs0 & Hon0 & Heq)]; rewrite Heq in Hon |- *.
    + by destruct (Hno s Hs).
    + assert (s0 = s) as ->.
      { apply (snapshot_unique now db); [done..|].
        destruct Hon0 as [<- _]. by destruct Hon as [<- _]. }
      simpl. by rewrite Hat.
  - assert (s1 = s) as -> by (apply (snapshot_unique now db); [done..|apply Hon]).
    simpl. by rewrite Hat.
Qed.

(** X10. After a run, the aggregates table holds every computed snapshot:
    for each snapshot there is a stored row of its unit and day, and every
    stored row of that unit and day carries the snapshot's
    [calculated_at], [current_staff], [available_staff],
    [readiness_score], [missing_certifications] and [understaffed_flag]. *)
Theorem task_stores_snapshot now db tgt s :
  s ∈ process_personnel_readiness now db →
  (∃ t, t ∈ process_personnel_readiness_task now db tgt ∧ on_target t s) ∧
  ∀ t, t ∈ process_personnel_readiness_task now db tgt → on_target t s →
       target.calculated_at t = now ∧
       target.current_staff t = source.current_staff s ∧
       target.available_staff t = source.available_staff s ∧
       target.readiness_score t = source.readiness_score s ∧
       target.missing_certifications t = source.missing_certifications s ∧
       target.understaffed_flag t = source.understaffed_flag s ∧
       target.last_updated t = now.
Proof.
  intros Hs. split; [by apply task_stores_snapshot_exists|].
  intros t. by apply task_stored_columns.
Qed.

(** X11. The MERGE never deletes or moves a stored row and never rewrites
    its [unit_id], [date], [unit_name], [type] or [minimum_staff]; a row of
    another day, or of a unit without a snapshot in this run, is left
    exactly as it was. *)
Theorem task_keeps_stored_rows now db tgt i t :
  tgt !! i = Some t →
  ∃ t', process_personnel_readiness_task now db tgt !! i = Some t' ∧
        target.unit_id t' = target.unit_id t ∧
        target.date t' = target.date t ∧
        target.unit_name t' = target.unit_name t ∧
        target.type t' = target.type t ∧
        target.minimum_staff t' = target.minimum_staff t ∧
        ((∀ s, s ∈ process_personnel_readiness now db → ¬ on_target t s) → t' = t).
Proof.
  intros Hi. unfold process_personnel_readiness_task, merge_readiness.
  rewrite lookup_app_l by (rewrite length_fmap; by eapply lookup_lt_Some).
  rewrite list_lookup_fmap, Hi. simpl. eexists. split; [done|].
  destruct (merged_row_cases now (process_personnel_readiness now db) t)
    as [[Heq Hno]|(s0 & Hs0 & Hon0 & Heq)]; rewrite Heq.
  - done.
  - simpl. do 5 (split; [done|]). intros Hno. by destruct (Hno s0 Hs0).
Qed.

Lemma filter_none {A} (P : A → Prop) `{!∀ x, Decision (P x)} (l : list A) :
  (∀ x, x ∈ l → ¬ P x) → filter P l = [].
Proof.
  induction l as [|x l IH]; intros Hno; [done|].
  rewrite filter_cons_False by (apply Hno; left).
  apply IH. intros y Hy. apply Hno. by right.
Qed.

Lemma merged_row_idem now db t :
  let f := λ t, match filter (on_target t) (process_personnel_readiness now db) with
                | s :: _ => update_set now t s
                | [] => t
                end in
  f (f t) = f t.
Proof.
  cbv zeta.
  destruct (merged_row_cases now (process_personnel_readiness now db) t)
    as [[Heq Hno]|(s0 & Hs0 & Hon0 & Heq)]; rewrite Heq.
  - exact Heq.
  - destruct (merged_row_cases now (process_personnel_readiness now db)
                (update_set now t s0))
      as [[Heq1 _]|(s1 & Hs1 & Hon1 & Heq1)]; rewrite Heq1; [done|].
    assert (s1 = s0) as ->; [|done].
    apply (snapshot_unique now db); [done..|].
    destruct Hon0 as [<- _]. by destruct Hon1 as [<- _].
Qed.

Lemma merged_inserted_row now db s :
  s ∈ process_personnel_readiness now db →
  match filter (on_target (insert_values now s)) (process_personnel_readiness now db) with
  | s0 :: _ => update_set now (insert_values now s) s0
  | [] => insert_values now s
  end = insert_values now s.
Proof.
  intros Hs.
  destruct (merged_row_cases now (process_personnel_readiness now db)
              (insert_values now s))
    as [[Heq _]|(s1 & Hs1 & Hon1 & Heq)]; rewrite Heq; [done|].
  assert (s1 = s) as ->; [|done].
  apply (snapshot_unique now db); [done..|]. by destruct Hon1 as [<- _].
Qed.

(** X12. Running the task again at the same time on the same tables
    changes nothing: the aggregates table after two runs is the table after
    one. *)
Theorem task_idempotent now db tgt :
  process_personnel_readiness_task now db (process_personnel_readiness_task now db tgt)
  = process_personnel_readiness_task now db tgt.
Proof.
  unfold process_personnel_readiness_task at 1. unfold merge_readiness.
  rewrite (filter_none _ (process_personnel_readiness now db)).
  - rewrite app_nil_r. unfold process_personnel_readiness_task, merge_readiness.
    rewrite fmap_app. f_equal.
    + rewrite <- list_fmap_compose. apply list_fmap_ext. intros i t _.
      apply (merged_row_idem now db t).
    + rewrite <- list_fmap_compose. apply list_fmap_ext. intros i s Hi.
      apply list_elem_of_lookup_2, list_elem_of_filter in Hi as [_ Hs].
      by apply merged_inserted_row.
  - intros s Hs Hnew. rewrite Forall_forall in Hnew.
    destruct (task_stores_snapshot_exists now db tgt s Hs) as (t & Ht & Hon).
    by apply (Hnew t).
Qed.

(** *** The view [current_unit_readiness] *)

Lemma elem_of_current_unit_readiness now db tgt v :
  v ∈ current_unit_readiness now db tgt ↔
  ∃ t u, t ∈ tgt ∧ u ∈ RAW_UNITS db ∧ on_units t u ∧ where_latest now tgt t ∧
         v = select_current_readiness (t, u).
Proof.
  unfold current_unit_readiness. rewrite list_elem_of_fmap. split.
  - intros ([t u] & -> & [Hw Hj]%list_elem_of_filter).
    apply SqlFacts.elem_of_join in Hj as (Ht & Hu & Hon). exists t, u. done.
  - intros (t & u & Ht & Hu & Hon & Hw & ->). exists (t, u). split; [done|].
    apply list_elem_of_filter. split; [done|]. by apply SqlFacts.elem_of_join.
Qed.

(** After a run the latest calculation of a unit with a snapshot is the
    one of this run. *)
Lemma latest_after_run now db tgt s :
  s ∈ process_personnel_readiness now db →
  latest_calculated_at now (process_personnel_readiness_task now db tgt)
                       (source.unit_id s) = Some now.
Proof.
  intros Hs. destruct (snapshot_date _ _ _ Hs) as [Hdate _].
  unfold latest_calculated_at.
  set (l := target.calculated_at <$> filter _ _).
  assert (∀ x, x ∈ l → x = now) as Hall.
  { intros x (t & -> & [[Hu Hd] Ht]%list_elem_of_filter)%list_elem_of_fmap.
    apply (task_stored_columns now db tgt s t Hs Ht). split; congruence. }
  assert (l ≠ []) as Hne.
  { destruct (task_stores_snapshot_exists now db tgt s Hs) as (t & Ht & [Hu Hd]).
    apply (elem_of_not_nil (target.calculated_at t)).
    apply list_elem_of_fmap_2, list_elem_of_filter. split; [|done].
    split; congruence. }
  destruct (SqlFacts.max_is_Some Z.le l Hne) as [m Hm]. rewrite Hm. f_equal.
  apply Hall. apply (max_spec Z.le l m Hm).
Qed.

(** X13. Right after a run the view [current_unit_readiness] shows every
    unit that got a snapshot, and each row it shows for such a unit carries
    the values of this run: its time, counts, score, missing
    certifications and flag, and the status computed from the score. *)
Theorem view_shows_latest_run now db tgt s :
  s ∈ process_personnel_readiness now db →
  let view := current_unit_readiness now db (process_personnel_readiness_task now db tgt) in
  (∃ v, v ∈ view ∧ current_readiness.unit_id v = source.unit_id s) ∧
  ∀ v, v ∈ view → current_readiness.unit_id v = source.unit_id s →
       current_readiness.calculated_at v = now ∧
       current_readiness.current_staff v = source.current_staff s ∧
       current_readiness.available_staff v = source.available_staff s ∧
       current_readiness.readiness_score v = source.readiness_score s ∧
       current_readiness.missing_certifications v = source.missing_certifications s ∧
       current_readiness.understaffed_flag v = source.understaffed_flag s ∧
       current_readiness.readiness_status v = readiness_status (source.readiness_score s).
Proof.
  intros Hs. cbv zeta. destruct (snapshot_date _ _ _ Hs) as [Hdate Hat]. split.
  - destruct (task_stores_snapshot_exists now db tgt s Hs) as (t & Ht & [Hu Hd]).
    destruct (proj1 (snapshot_iff_on_shift now db (source.unit_id s)))
      as (ua & p & u & Hon & Hk); [eauto|].
    exists (select_current_readiness (t, u)). split; [|done].
    apply elem_of_current_unit_readiness. exists t, u. split; [done|].
    split; [by destruct Hon as (_ & _ & ? & _)|].
    split; [unfold on_units; congruence|]. split; [|done].
    split; [congruence|]. rewrite Hu, (latest_after_run now db tgt s Hs).
    f_equal. symmetry. apply (task_stored_columns now db tgt s t Hs Ht). by split.
  - intros v (t & u & Ht & Hu & Hon & [Hd Hlatest] & ->)%elem_of_current_unit_readiness Hk.
    simpl in *.
    destruct (task_stored_columns now db tgt s t Hs Ht) as (H1 & H2 & H3 & H4 & H5 & H6 & _).
    { split; congruence. }
    rewrite H4. done.
Qed.

(** X14. The status of the view follows staffing: for a computed snapshot
    it is CRITICAL exactly when the unit is flagged understaffed,
    NEEDS_ATTENTION exactly when the score is 70, and READY exactly when
    both [current_staff] and [available_staff] reach [minimum_staff]. *)
Theorem readiness_status_of_snapshot now db s :
  s ∈ process_personnel_readiness now db →
  (readiness_status (source.readiness_score s) = "CRITICAL" ↔
   source.understaffed_flag s = true) ∧
  (readiness_status (source.readiness_score s) = "NEEDS_ATTENTION" ↔
   source.readiness_score s = 70) ∧
  (readiness_status (source.readiness_score s) = "READY" ↔
   ∃ m, source.minimum_staff s = Some m ∧
        m ≤ source.current_staff s ∧ m ≤ source.available_staff s).
Proof.
  intros Hs. apply elem_of_process in Hs as (r & Hr & ->). simpl.
  destruct (minimum_staff_not_null _ _ Hr) as [m Hm].
  unfold readiness_status, understaffed_flag, readiness_score.
  rewrite !SqlFacts.is_true3_and3, Hm. simpl.
  repeat case_bool_decide; simpl in *; try lia; (split; [|split]); split;
    first [done | lia
          | intros (m' & [= <-] & ? & ?); lia
          | intros _; exists m; split; [done|lia] ].
Qed.

(** *** The view [certification_expiration_summary] *)

Lemma by_expiration_date_trans : Transitive by_expiration_date.
Proof. intros r1 r2 r3. unfold by_expiration_date. lia. Qed.

Lemma by_expiration_date_total : Total by_expiration_date.
Proof. intros r1 r2. unfold by_expiration_date. lia. Qed.

Lemma StronglySorted_lookup_lt {A} (R : relation A) l i j x y :
  StronglySorted R l → (i < j)%nat → l !! i = Some x → l !! j = Some y → R x y.
Proof.
  intros Hsorted. revert i j. induction Hsorted as [|a l Hs IH Hall]; [done|].
  intros [|i] [|j] Hlt Hi Hj; try lia; simpl in *.
  - injection Hi as <-. rewrite Forall_forall in Hall.
    apply Hall. by eapply list_elem_of_lookup_2.
  - apply (IH i j); [lia|done..].
Qed.

Lemma elem_of_expiration_summary now db e :
  e ∈ certification_expiration_summary now db ↔
  ∃ p c t, p ∈ RAW_PERSONNEL db ∧ (c, t) ∈ PERSONNEL.cert_expirations p ∧
           e = expiration_summary.mk (PERSONNEL.personnel_id p) (PERSONNEL.name p)
                 (PERSONNEL.role p) c t (DATEDIFF_day now t) (expiration_status now t).
Proof.
  unfold certification_expiration_summary. rewrite merge_sort_Permutation.
  rewrite list_elem_of_bind. split.
  - intros (p & He & Hp). apply list_elem_of_bind in He as ([c t] & He & Hc).
    apply list_elem_of_singleton in He as ->. exists p, c, t. done.
  - intros (p & c & t & Hp & Hc & ->). exists p. split; [|done].
    apply list_elem_of_bind. exists (c, t). split; [|done].
    by apply list_elem_of_singleton.
Qed.

Lemma expiration_summary_status_iff now db e :
  e ∈ certification_expiration_summary now db →
  (expiration_summary.status e = "EXPIRED" ↔
   expiration_summary.expiration_date e < now) ∧
  expiration_summary.days_until_expiry e
  = DATEDIFF_day now (expiration_summary.expiration_date e).
Proof.
  intros (p & c & t & _ & _ & ->)%elem_of_expiration_summary. simpl.
  split; [|done]. unfold expiration_status.
  repeat case_bool_decide; split; intros; first [done|lia].
Qed.

(** X15. In [certification_expiration_summary] a row is EXPIRED exactly
    when its expiry lies before the current time, EXPIRING_SOON exactly when
    it does not and the expiry day is at most 30 days ahead, VALID exactly
    when the expiry day is more than 30 days ahead. [days_until_expiry]
    counts calendar days, so it is at most 0 on an EXPIRED row, and 0 both
    for a certification that expired earlier today and for one that expires
    later today. *)
Theorem expiration_summary_status now db e :
  e ∈ certification_expiration_summary now db →
  let exp := expiration_summary.expiration_date e in
  let days := expiration_summary.days_until_expiry e in
  days = exp `div` 86400 - now `div` 86400 ∧
  (expiration_summary.status e = "EXPIRED" ↔ exp < now) ∧
  (expiration_summary.status e = "EXPIRING_SOON" ↔ now ≤ exp ∧ days ≤ 30) ∧
  (expiration_summary.status e = "VALID" ↔ 30 < days) ∧
  (exp < now → days ≤ 0) ∧
  (now ≤ exp → 0 ≤ days).
Proof.
  intros (p & c & t & _ & _ & ->)%elem_of_expiration_summary. simpl.
  unfold expiration_status, DATEDIFF_day, CURRENT_DATE.
  assert (t < now → t `div` 86400 ≤ now `div` 86400)
    by (intros; apply Z.div_le_mono; lia).
  assert (now ≤ t → now `div` 86400 ≤ t `div` 86400)
    by (intros; apply Z.div_le_mono; lia).
  split; [done|].
  repeat case_bool_decide; repeat split; intros; first [done|lia].
Qed.

(** X16. The view lists the certifications by ascending expiry, so the
    EXPIRED rows come first: no EXPIRED row follows a row that is not. *)
Theorem expiration_summary_sorted now db i j ei ej :
  (i < j)%nat →
  certification_expiration_summary now db !! i = Some ei →
  certification_expiration_summary now db !! j = Some ej →
  expiration_summary.expiration_date ei ≤ expiration_summary.expiration_date ej ∧
  (expiration_summary.status ej = "EXPIRED" → expiration_summary.status ei = "EXPIRED").
Proof.
  intros Hlt Hi Hj.
  assert (expiration_summary.expiration_date ei ≤ expiration_summary.expiration_date ej)
    as Hle.
  { apply (StronglySorted_lookup_lt by_expiration_date
             (certification_expiration_summary now db) i j ei ej); [|done..].
    apply StronglySorted_merge_sort;
      [apply by_expiration_date_trans|apply by_expiration_date_total]. }
  split; [done|].
  destruct (expiration_summary_status_iff now db ei) as [Hei _];
    [by eapply list_elem_of_lookup_2|].
  destruct (expiration_summary_status_iff now db ej) as [Hej _];
    [by eapply list_elem_of_lookup_2|].
  rewrite Hei, Hej. lia.
Qed.

(** X17. The view and the expiration task agree on who is expired: a
    person id has an EXPIRED row in the view exactly when some PERSONNEL row
    with that id has a certification expired at that time, which are the rows
    the task moves to IN_TRAINING unless they are there already or their
    status is [NULL]. *)
Theorem expired_rows_match_expired_persons now db personnel_id :
  (∃ e, e ∈ certification_expiration_summary now db ∧
        expiration_summary.personnel_id e = personnel_id ∧
        expiration_summary.status e = "EXPIRED") ↔
  (∃ p, p ∈ RAW_PERSONNEL db ∧ PERSONNEL.personnel_id p = personnel_id ∧
        has_expired_certification now p).
Proof.
  split.
  - intros (e & He & Hid & Hst).
    destruct (expiration_summary_status_iff now db e He) as [Hexp _].
    apply Hexp in Hst.
    apply elem_of_expiration_summary in He as (p & c & t & Hp & Hc & ->).
    exists p. split; [done|]. split; [done|]. exists c, t. done.
  - intros (p & Hp & Hid & c & t & Hc & Hlt).
    exists (expiration_summary.mk (PERSONNEL.personnel_id p) (PERSONNEL.name p)
              (PERSONNEL.role p) c t (DATEDIFF_day now t) (expiration_status now t)).
    split; [apply elem_of_expiration_summary; by exists p, c, t|].
    split; [done|]. simpl. unfold expiration_status.
    by rewrite bool_decide_eq_true_2.
Qed.

End WarehouseProperties.

(** ** More on the readiness page *)

Module DashboardProperties.
Import Dashboard DashboardSpec.

(** *** [ws.onmessage] *)

Lemma update_units_fst newData prev :
  (update_units newData prev).1
  = (λ u, if decide (unit_id u = unit_id newData) then newData else u) <$> prev.
Proof. reflexivity. Qed.

Lemma find_unit_None id prev :
  find_unit id prev = None ↔ ∀ u, u ∈ prev → unit_id u ≠ id.
Proof.
  induction prev as [|u prev IH]; [split; [by intros _ u ?%elem_of_nil|done]|].
  rewrite find_unit_cons. case_decide as Hu.
  - split; [done|]. intros Hall. destruct (Hall u); [left|done].
  - rewrite IH. split.
    + intros Hall v [->|Hv]%elem_of_cons; auto.
    + intros Hall v Hv. apply Hall. by right.
Qed.

Lemma update_units_unknown newData prev :
  find_unit (unit_id newData) prev = None →
  update_units newData prev = (prev, []).
Proof.
  intros Hnone. unfold update_units. rewrite Hnone. simpl. f_equal.
  rewrite find_unit_None in Hnone.
  induction prev as [|u prev IH]; [done|].
  rewrite fmap_cons, decide_False by (apply Hnone; left).
  f_equal. apply IH. intros v Hv. apply Hnone. by right.
Qed.

Lemma onmessage_frame event st :
  wsConnected (ws_onmessage event st) = wsConnected st ∧
  wsConnectionsRef (ws_onmessage event st) = wsConnectionsRef st ∧
  sockets (ws_onmessage event st) = sockets st ∧
  unit_id <$> units (ws_onmessage event st) = unit_id <$> units st ∧
  toasts st `prefix_of` toasts (ws_onmessage event st).
Proof.
  unfold ws_onmessage. destruct event as [m|]; [|done].
  case_decide as Hty; [|done].
  rewrite (surjective_pairing (update_units (data m) (units st))).
  cbn [wsConnected wsConnectionsRef sockets units toasts].
  do 3 (split; [done|]). split; [|by apply prefix_app_r].
  rewrite update_units_fst, <- list_fmap_compose. apply list_fmap_ext.
  intros i u _. simpl. by case_decide.
Qed.

(** [ws.onmessage] on parsed text *)

Lemma as_UnitReadiness_fields members newData :
  as_UnitReadiness (JObject members) = Some newData →
  get "unit_id" members = Some (JString (unit_id newData)) ∧
  nullish (get "expired_certifications" members) = false ∧
  nullish (get "certifications_missing" members) = false.
Proof.
  unfold as_UnitReadiness. intros Hdec.
  destruct (get "unit_id" members) as [[| | | |id| |]|] eqn:Hid; try done.
  destruct (get "certifications_missing" members) as [[| | | | | |]|] eqn:Hmiss;
    [simplify_option_eq..| |simplify_option_eq| ]; try done.
  - destruct (get "expired_certifications" members) as [[| | | | | |]|] eqn:Hexp;
      [simplify_option_eq..| |simplify_option_eq| ]; try done.
    + simplify_option_eq. done.
    + simplify_option_eq.
  - simplify_option_eq.
Qed.

Lemma update_units_json_typed members newData prev :
  as_UnitReadiness (JObject members) = Some newData →
  update_units_json (Some (JObject members)) prev
  = Returns (update_units newData prev).1 (update_units newData prev).2.
Proof.
  intros Hdec. destruct (as_UnitReadiness_fields _ _ Hdec) as (Hid & _ & _).
  unfold update_units_json. cbn [nullish]. rewrite Hid.
  destruct (find_unit (unit_id newData) prev) as [oldUnit|] eqn:Hold.
  - rewrite Hdec. by destruct (update_units newData prev).
  - by rewrite (update_units_unknown _ _ Hold).
Qed.

Lemma update_units_json_Returns newData prev updated new_toasts :
  update_units_json newData prev = Returns updated new_toasts →
  unit_id <$> updated = unit_id <$> prev.
Proof.
  unfold update_units_json. destruct (nullish newData).
  { destruct prev; [|done]. by intros [= <- _]. }
  destruct newData as [[| | | | | |members]|]; try by intros [= <- _].
  destruct (get "unit_id" members) as [[| | | |id| |]|]; try by intros [= <- _].
  destruct (find_unit id prev); [|by intros [= <- _]].
  destruct (as_UnitReadiness (JObject members)) as [typed|].
  - rewrite (surjective_pairing (update_units typed prev)). intros [= <- _].
    rewrite <- list_fmap_compose. apply list_fmap_ext.
    intros i u0 _. simpl. by case_decide.
  - by destruct (_ || _).
Qed.

Lemma update_units_json_Throws newData prev :
  update_units_json newData prev = Throws ↔
  (nullish newData = true ∧ prev ≠ []) ∨
  ∃ fields id, newData = Some (JObject fields) ∧
               get "unit_id" fields = Some (JString id) ∧
               is_Some (find_unit id prev) ∧
               (nullish (get "expired_certifications" fields) = true ∨
                nullish (get "certifications_missing" fields) = true).
Proof.
  unfold update_units_json. destruct (nullish newData) eqn:Hnull.
  { destruct prev as [|u prev].
    - split; [done|]. intros [[_ ?]|(fields & id & -> & _)]; done.
    - split; [by left|done]. }
  split.
  - intros Hthrows. right.
    destruct newData as [[| | | | | |fields]|]; try done.
    destruct (get "unit_id" fields) as [[| | | |id| |]|] eqn:Hid; try done.
    destruct (find_unit id prev) as [oldUnit|] eqn:Hold; [|done].
    destruct (as_UnitReadiness (JObject fields)) as [typed|].
    { by destruct (update_units typed prev). }
    destruct (nullish (get "expired_certifications" fields)) eqn:Hexp.
    { exists fields, id. eauto 6. }
    destruct (nullish (get "certifications_missing" fields)) eqn:Hmiss; [|done].
    exists fields, id. eauto 6.
  - intros [[? _]|(fields & id & -> & Hid & [oldUnit Hold] & Harrays)]; [congruence|].
    rewrite Hid, Hold.
    destruct (as_UnitReadiness (JObject fields)) as [typed|] eqn:Hdec.
    { destruct (as_UnitReadiness_fields _ _ Hdec) as (_ & Hexp & Hmiss).
      destruct Harrays; congruence. }
    destruct Harrays as [-> | ->]; [done|]. by rewrite orb_true_r.
Qed.

(** X18. What a message does, whatever text the channel delivers. When the
    page renders afterwards, the live set, the registry and the channels are
    as before, the list has the same unit ids in the same places and the
    toasts shown before are still there, in front. The updater, which runs
    outside the [try]/[catch] of the handler, throws exactly when the text
    is a [unit_readiness] message whose [data] is [null] or absent while
    units are listed, or whose [data] names a listed unit and lacks
    [expired_certifications] or [certifications_missing]; React then
    unmounts the page. A text that does not parse or is no object, a
    message of another type and the snapshot of a unit that is not listed
    leave the page as it was, and a message whose [data] is a
    [UnitReadiness] does what [ws_onmessage] does. *)
Theorem onmessage_keeps_connections parsed st :
  (∀ st', ws_onmessage_json parsed st = Rendered st' →
          wsConnected st' = wsConnected st ∧
          wsConnectionsRef st' = wsConnectionsRef st ∧
          sockets st' = sockets st ∧
          unit_id <$> units st' = unit_id <$> units st ∧
          toasts st `prefix_of` toasts st') ∧
  (ws_onmessage_json parsed st = Unmounted ↔
   ∃ members, parsed = Some (JObject members) ∧
     get "type" members = Some (JString "unit_readiness") ∧
     ((nullish (get "data" members) = true ∧ units st ≠ []) ∨
      ∃ fields id, get "data" members = Some (JObject fields) ∧
                   get "unit_id" fields = Some (JString id) ∧
                   is_Some (find_unit id (units st)) ∧
                   (nullish (get "expired_certifications" fields) = true ∨
                    nullish (get "certifications_missing" fields) = true))) ∧
  ((∀ members, parsed = Some (JObject members) →
      get "type" members ≠ Some (JString "unit_readiness") ∨
      ∃ fields id, get "data" members = Some (JObject fields) ∧
                   get "unit_id" fields = Some (JString id) ∧
                   find_unit id (units st) = None) →
   ws_onmessage_json parsed st = Rendered st) ∧
  (∀ members fields newData,
     parsed = Some (JObject members) →
     get "type" members = Some (JString "unit_readiness") →
     get "data" members = Some (JObject fields) →
     as_UnitReadiness (JObject fields) = Some newData →
     ws_onmessage_json parsed st
     = Rendered (ws_onmessage (Some (mkMessage "unit_readiness" newData)) st)).
Proof.
  split; [|split; [|split]].
  - intros st'. unfold ws_onmessage_json.
    destruct parsed as [[| | | | | |members]|]; try by intros [= <-].
    destruct (get "type" members) as [[| | | |type| |]|]; try by intros [= <-].
    case_decide; [|by intros [= <-]].
    destruct (update_units_json _ _) as [updated new_toasts| |] eqn:Hupd; [|done..].
    intros [= <-]. cbn [wsConnected wsConnectionsRef sockets units toasts].
    do 3 (split; [done|]). split; [|by apply prefix_app_r].
    by eapply update_units_json_Returns.
  - unfold ws_onmessage_json. split.
    + destruct parsed as [[| | | | | |members]|]; try done.
      destruct (get "type" members) as [[| | | |type| |]|] eqn:Hty; try done.
      case_decide as Htype; [subst type|done].
      destruct (update_units_json _ _) as [updated new_toasts| |] eqn:Hupd; [done| |done].
      intros _. exists members. split; [done|]. split; [done|].
      by apply update_units_json_Throws.
    + intros (members & -> & -> & Hthrows). rewrite decide_True by done.
      apply update_units_json_Throws in Hthrows. by rewrite Hthrows.
  - unfold ws_onmessage_json. intros Hquiet.
    destruct parsed as [[| | | | | |members]|]; try done.
    destruct (Hquiet members eq_refl) as [Hty|(fields & id & Hdata & Hid & Hnone)].
    + destruct (get "type" members) as [[| | | |type| |]|]; try done.
      case_decide; [congruence|done].
    + destruct (get "type" members) as [[| | | |type| |]|]; try done.
      case_decide; [|done]. rewrite Hdata. unfold update_units_json.
      cbn [nullish]. rewrite Hid, Hnone. rewrite app_nil_r. by destruct st.
  - intros members fields newData -> Hty Hdata Hdec. unfold ws_onmessage_json.
    rewrite Hty, decide_True by done. rewrite Hdata.
    rewrite (update_units_json_typed _ _ _ Hdec).
    unfold ws_onmessage. cbn [msg_type data]. rewrite decide_True by done.
    by destruct (update_units newData (units st)).
Qed.

(** X19. Looking a unit up after its snapshot was merged gives the new
    snapshot, provided the unit was listed; every entry with that id has
    been replaced, and the entries of other units are found as before. *)
Theorem update_units_lookup newData prev :
  let updated := (update_units newData prev).1 in
  find_unit (unit_id newData) updated
  = (λ _, newData) <$> find_unit (unit_id newData) prev ∧
  (∀ u, u ∈ updated → unit_id u = unit_id newData → u = newData) ∧
  (∀ id, id ≠ unit_id newData → find_unit id updated = find_unit id prev).
Proof.
  cbv zeta. split; [apply find_unit_updated|]. rewrite update_units_fst. split.
  - intros u (u0 & -> & Hu0)%list_elem_of_fmap Hid.
    case_decide as Hd; [done|]. by destruct Hd.
  - intros id Hne. induction prev as [|u prev IH]; [done|].
    rewrite fmap_cons, !find_unit_cons, IH.
    destruct (decide (unit_id u = unit_id newData)) as [Heq|Hneq].
    + rewrite decide_False by done. by rewrite decide_False by congruence.
    + done.
Qed.

Lemma toasts_distinct newData :
  understaffed_toast newData ≠ expired_toast newData ∧
  understaffed_toast newData ≠ missing_toast newData ∧
  expired_toast newData ≠ missing_toast newData.
Proof. repeat split; intros Heq; discriminate Heq. Qed.

Lemma elem_of_opt_list {A} (b : bool) (x y : A) :
  y ∈ (if b then [x] else []) ↔ b = true ∧ y = x.
Proof.
  destruct b; [rewrite list_elem_of_singleton|rewrite elem_of_nil];
    split; try done; [by intros [_ ?]|by intros [? _]].
Qed.

Lemma alerts_shape b oldUnit newData :
  b = is_understaffed newData && negb (is_understaffed oldUnit) →
  alerts (Some oldUnit) newData
  = (if b then [understaffed_toast newData] else []) ++
    (if bool_decide (length (expired_certifications oldUnit)
                     < length (expired_certifications newData))%nat
     then [expired_toast newData] else []) ++
    (if bool_decide (length (certifications_missing oldUnit)
                     < length (certifications_missing newData))%nat
     then [missing_toast newData] else []).
Proof. by intros ->. Qed.

(** X20. The alerts compare a snapshot with the entry it replaces, and
    only a worsening raises one: the expired toast is raised exactly when
    the list of expired certifications got longer, the missing toast exactly
    when the list of missing certifications got longer, and no toast at all
    exactly when the unit is not listed or nothing got worse. Only lengths
    are compared, so a list that changes at equal length raises nothing. *)
Theorem alerts_only_on_worsening newData prev :
  let ts := (update_units newData prev).2 in
  let old := find_unit (unit_id newData) prev in
  (expired_toast newData ∈ ts ↔
   ∃ oldUnit, old = Some oldUnit ∧
     (length (expired_certifications oldUnit)
      < length (expired_certifications newData))%nat) ∧
  (missing_toast newData ∈ ts ↔
   ∃ oldUnit, old = Some oldUnit ∧
     (length (certifications_missing oldUnit)
      < length (certifications_missing newData))%nat) ∧
  (ts = [] ↔
   old = None ∨
   ∃ oldUnit, old = Some oldUnit ∧
     (is_understaffed newData = true → is_understaffed oldUnit = true) ∧
     (length (expired_certifications newData)
      ≤ length (expired_certifications oldUnit))%nat ∧
     (length (certifications_missing newData)
      ≤ length (certifications_missing oldUnit))%nat) ∧
  (length ts ≤ 3)%nat.
Proof.
  cbv zeta. rewrite update_units_snd.
  destruct (toasts_distinct newData) as (Hd1 & Hd2 & Hd3).
  destruct (find_unit (unit_id newData) prev) as [oldUnit|].
  - rewrite (alerts_shape (is_understaffed newData && negb (is_understaffed oldUnit)))
      by done.
    set (b1 := is_understaffed newData && negb (is_understaffed oldUnit)).
    assert (b1 = false ↔
            (is_understaffed newData = true → is_understaffed oldUnit = true)) as Hb1.
    { unfold b1. destruct (is_understaffed newData), (is_understaffed oldUnit);
        simpl; split; try done. intros H; by specialize (H eq_refl). }
    clearbody b1.
    rewrite !elem_of_app, !elem_of_opt_list, !bool_decide_eq_true.
    split; [|split; [|split]].
    + split.
      * intros [[_ ?]|[[? _]|[_ ?]]]; [congruence| |congruence]. eauto.
      * intros (o & [= <-] & Hlt). right. left. by split.
    + split.
      * intros [[_ ?]|[[_ ?]|[? _]]]; [congruence|congruence|]. eauto.
      * intros (o & [= <-] & Hlt). right. right. by split.
    + split.
      * intros Hnil. right. exists oldUnit. split; [done|].
        destruct b1; [done|]. split; [by apply Hb1|].
        repeat case_bool_decide; try done; lia.
      * intros [?|(o & [= <-] & Hu & H2 & H3)]; [done|].
        apply Hb1 in Hu as ->. rewrite !bool_decide_eq_false_2 by lia. done.
    + destruct b1; repeat case_bool_decide; simpl; lia.
  - simpl. rewrite !elem_of_nil. split; [|split; [|split]].
    + split; [done|]. by intros (o & ? & _).
    + split; [done|]. by intros (o & ? & _).
    + split; [by left|done].
    + simpl. lia.
Qed.

(** X21. The colour of a card and the status of the warehouse view cut the
    scores at the same places: green is READY (85 and more), yellow is
    NEEDS_ATTENTION (60 to 84), red is CRITICAL (below 60); the counter of
    ready units counts the green cards. *)
Theorem colour_matches_status score units :
  (getReadinessColor score = "green" ↔ Warehouse.readiness_status score = "READY") ∧
  (getReadinessColor score = "yellow" ↔
   Warehouse.readiness_status score = "NEEDS_ATTENTION") ∧
  (getReadinessColor score = "red" ↔ Warehouse.readiness_status score = "CRITICAL") ∧
  readyUnits units
  = length (filter (λ u, getReadinessColor (readiness_score u) = "green") units).
Proof.
  unfold getReadinessColor, Warehouse.readiness_status.
  split; [|split; [|split]]; try (repeat case_bool_decide; done).
  unfold readyUnits. f_equal. apply list_filter_iff. intros u.
  repeat case_bool_decide; split; first [done|lia].
Qed.

(** *** The effect *)

Lemma subscribe_cases wsUrl k st :
  (subscribe wsUrl k st = st ∧
   ∃ h ws, wsConnectionsRef st !! k = Some h ∧ sockets st !! h = Some ws ∧
           readyState ws = OPEN) ∨
  subscribe wsUrl k st = open_channel wsUrl k st.
Proof.
  unfold subscribe. destruct (wsConnectionsRef st !! k) as [h|] eqn:Hreg; [|by right].
  destruct (sockets st !! h) as [ws|] eqn:Hws; [|by right].
  case_bool_decide; [left|by right]. split; [done|]. by exists h, ws.
Qed.

Lemma registered_live_open_channel_same wsUrl k st :
  registered_live (open_channel wsUrl k st) k.
Proof.
  exists (length (sockets st)), (mkWebSocket (unit_readiness_url wsUrl k) CONNECTING).
  unfold open_channel. cbn [wsConnectionsRef sockets].
  split; [apply lookup_insert_eq|]. split; [|done].
  by rewrite list_lookup_middle.
Qed.

Lemma registered_live_open_channel wsUrl k' st k :
  registered_live st k → registered_live (open_channel wsUrl k' st) k.
Proof.
  intros (h & ws & Hreg & Hws & Hlive).
  destruct (decide (k' = k)) as [->|Hne]; [apply registered_live_open_channel_same|].
  exists h, ws. unfold open_channel. cbn [wsConnectionsRef sockets].
  split; [by rewrite lookup_insert_ne|]. split; [|done].
  by apply lookup_app_l_Some.
Qed.

Lemma registered_live_subscribe_same wsUrl k st :
  registered_live (subscribe wsUrl k st) k.
Proof.
  destruct (subscribe_cases wsUrl k st) as [[-> (h & ws & Hreg & Hws & Hopen)]| ->].
  - exists h, ws. split; [done|]. split; [done|].
    unfold open_or_connecting. by rewrite Hopen.
  - apply registered_live_open_channel_same.
Qed.

Lemma registered_live_subscribe wsUrl k' st k :
  registered_live st k → registered_live (subscribe wsUrl k' st) k.
Proof.
  intros Hlive. destruct (subscribe_cases wsUrl k' st) as [[-> _]| ->]; [done|].
  by apply registered_live_open_channel.
Qed.

Lemma dom_subscribe wsUrl k st :
  dom (wsConnectionsRef (subscribe wsUrl k st)) = {[k]} ∪ dom (wsConnectionsRef st).
Proof.
  destruct (subscribe_cases wsUrl k st) as [[-> (h & ws & Hreg & _)]| ->].
  - apply set_eq. intros x. rewrite elem_of_union, elem_of_singleton, !elem_of_dom.
    split; [by right|]. intros [->|?]; [by rewrite Hreg|done].
  - unfold open_channel. cbn [wsConnectionsRef]. apply dom_insert_L.
Qed.

Lemma subscribe_loop wsUrl l st :
  let st' := foldl (λ st unit, subscribe wsUrl (unit_id unit) st) st l in
  dom (wsConnectionsRef st')
  = list_to_set (unit_id <$> l) ∪ dom (wsConnectionsRef st) ∧
  (∀ k, registered_live st k → registered_live st' k) ∧
  (∀ u, u ∈ l → registered_live st' (unit_id u)).
Proof.
  cbv zeta. revert st. induction l as [|u l IH]; intros st; simpl.
  - split; [|split; [done|by intros u ?%elem_of_nil]].
    apply set_eq. intros x. rewrite elem_of_union, elem_of_empty. tauto.
  - destruct (IH (subscribe wsUrl (unit_id u) st)) as (Hdom & Hkeep & Hall).
    split; [|split].
    + rewrite Hdom, dom_subscribe. apply set_eq. intros x.
      rewrite !elem_of_union, elem_of_singleton. tauto.
    + intros k Hk. by apply Hkeep, registered_live_subscribe.
    + intros v [->|Hv]%elem_of_cons; [|by apply Hall].
      apply Hkeep, registered_live_subscribe_same.
Qed.

Lemma stale_loop_registry_sub currentUnitIds st l k h :
  wsConnectionsRef (foldr (stale_step currentUnitIds) st l) !! k = Some h →
  wsConnectionsRef st !! k = Some h.
Proof.
  induction l as [|[k0 h0] l IH]; cbn [foldr]; [done|].
  destruct (decide (k0 ∈ currentUnitIds)) as [Hk|Hk].
  - by rewrite stale_step_known.
  - rewrite stale_step_stale by done. cbn [wsConnectionsRef].
    intros [_ H]%lookup_delete_Some. by apply IH.
Qed.

Lemma dom_close_stale currentUnitIds st :
  dom (wsConnectionsRef (close_stale currentUnitIds st))
  = dom (wsConnectionsRef st) ∩ currentUnitIds.
Proof.
  apply set_eq. intros k. rewrite elem_of_intersection, !elem_of_dom.
  unfold close_stale. split.
  - intros [h Hh]. split; [exists h; by eapply stale_loop_registry_sub|].
    destruct (decide (k ∈ currentUnitIds)) as [|Hstale]; [done|exfalso].
    apply stale_loop_registry_sub in Hh as Hreg.
    destruct (stale_loop_registry_stale currentUnitIds st
                (map_to_list (wsConnectionsRef st)) k Hstale) as [Hnone _].
    { apply list_elem_of_fmap. exists (k, h). split; [done|].
      by apply elem_of_map_to_list. }
    congruence.
  - intros [Hsome Hknown].
    destruct (stale_loop_registry_known currentUnitIds st
                (map_to_list (wsConnectionsRef st)) k Hknown) as [-> _]. done.
Qed.

(** X22. After the effect has run on a non-empty list, the registry holds
    exactly the listed units, whatever it held before, and each listed unit
    is registered with a channel that is OPEN or CONNECTING. *)
Theorem effect_registers_listed_units wsUrl st :
  units st ≠ [] →
  let st' := connect_effect wsUrl st in
  dom (wsConnectionsRef st') = list_to_set (unit_id <$> units st) ∧
  ∀ u, u ∈ units st → registered_live st' (unit_id u).
Proof.
  intros Hne. cbv zeta. unfold connect_effect.
  destruct (units st) as [|u0 us] eqn:Hu; [done|].
  destruct (subscribe_loop wsUrl (u0 :: us)
              (close_stale (list_to_set (unit_id <$> u0 :: us)) st))
    as (Hdom & _ & Hall).
  split; [|done]. rewrite Hdom, dom_close_stale.
  apply set_eq. intros x. rewrite elem_of_union, elem_of_intersection. tauto.
Qed.

(** *** What every run of the page keeps *)

Lemma close_live_url ws : url (close_live ws) = url ws.
Proof. unfold close_live. by destruct (open_or_connecting ws). Qed.

Lemma registry_urls_open_channel wsUrl k st :
  registry_wf st → registry_urls wsUrl st →
  registry_urls wsUrl (open_channel wsUrl k st).
Proof.
  intros [_ Hlt] Hurls k0 h ws. unfold open_channel. cbn [wsConnectionsRef sockets].
  rewrite lookup_insert. case_decide as Hk.
  - intros [= <-]. rewrite list_lookup_middle by done. intros [= <-]. by subst.
  - intros Hreg. rewrite lookup_app_l by by eapply Hlt. by apply Hurls.
Qed.

Lemma registry_urls_subscribe wsUrl k st :
  registry_wf st → registry_urls wsUrl st →
  registry_urls wsUrl (subscribe wsUrl k st).
Proof.
  intros Hwf Hurls. destruct (subscribe_cases wsUrl k st) as [[-> _]| ->]; [done|].
  by apply registry_urls_open_channel.
Qed.

Lemma registry_urls_close_stale wsUrl currentUnitIds st :
  registry_urls wsUrl st → registry_urls wsUrl (close_stale currentUnitIds st).
Proof.
  intros Hurls k h ws Hreg. unfold close_stale in *.
  apply stale_loop_registry_sub in Hreg. rewrite stale_loop_sockets.
  case_decide.
  - destruct (sockets st !! h) as [ws0|] eqn:Hws; [|done]. intros [= <-].
    rewrite close_live_url. by eapply Hurls.
  - by apply Hurls.
Qed.

Lemma registry_ok_connect_effect wsUrl st :
  registry_wf st ∧ registry_urls wsUrl st →
  registry_wf (connect_effect wsUrl st) ∧ registry_urls wsUrl (connect_effect wsUrl st).
Proof.
  intros [Hwf Hurls]. split; [by apply registry_wf_connect_effect|].
  unfold connect_effect. destruct (units st) as [|u us] eqn:Hu; [done|].
  generalize (u :: us). intros l.
  generalize (list_to_set (unit_id <$> l) : gset string). intros ids.
  apply (registry_wf_close_stale ids) in Hwf.
  apply (registry_urls_close_stale wsUrl ids) in Hurls.
  revert Hwf Hurls. generalize (close_stale ids st). clear.
  induction l as [|unit l IH]; intros st0 Hwf Hurls; [done|].
  simpl. apply IH; [by apply registry_wf_subscribe|by apply registry_urls_subscribe].
Qed.

Lemma set_readyState_lookup h s st h' :
  sockets (set_readyState h s st) !! h'
  = (λ ws, if decide (h = h') then mkWebSocket (url ws) s else ws) <$> sockets st !! h'.
Proof.
  unfold set_readyState. cbn [sockets].
  destruct (sockets st !! h) as [ws|] eqn:Hws.
  - destruct (decide (h = h')) as [<-|Hne].
    + rewrite list_lookup_insert_eq by (by eapply lookup_lt_Some). by rewrite Hws.
    + rewrite list_lookup_insert_ne by done. by destruct (sockets st !! h').
  - destruct (decide (h = h')) as [<-|Hne]; [by rewrite Hws|].
    by destruct (sockets st !! h').
Qed.

Lemma set_readyState_length h s st :
  length (sockets (set_readyState h s st)) = length (sockets st).
Proof.
  unfold set_readyState. cbn [sockets].
  destruct (sockets st !! h); [apply length_insert|done].
Qed.

Lemma registry_ok_set_readyState wsUrl h s st :
  registry_wf st ∧ registry_urls wsUrl st →
  registry_wf (set_readyState h s st) ∧ registry_urls wsUrl (set_readyState h s st).
Proof.
  intros [[Hinj Hlt] Hurls]. split; [split; [done|]|].
  - intros k h'. rewrite set_readyState_length. apply Hlt.
  - intros k h' ws Hreg. rewrite set_readyState_lookup.
    destruct (sockets st !! h') as [ws0|] eqn:Hws0; [|done].
    simpl. intros [= <-]. case_decide; cbn [url]; by eapply Hurls.
Qed.

Lemma registry_ok_handlers wsUrl unit_id event st :
  registry_wf st ∧ registry_urls wsUrl st →
  (registry_wf (ws_onopen unit_id st) ∧ registry_urls wsUrl (ws_onopen unit_id st)) ∧
  (registry_wf (ws_onerror unit_id st) ∧ registry_urls wsUrl (ws_onerror unit_id st)) ∧
  (registry_wf (ws_onclose unit_id st) ∧ registry_urls wsUrl (ws_onclose unit_id st)) ∧
  (registry_wf (ws_onmessage event st) ∧ registry_urls wsUrl (ws_onmessage event st)).
Proof.
  intros [Hwf Hurls].
  destruct (registry_wf_handlers unit_id event st Hwf) as (H1 & H2 & H3 & H4).
  split; [done|]. split; [done|]. split.
  - split; [done|]. intros k0 h ws. unfold ws_onclose. cbn [wsConnectionsRef sockets].
    intros [_ Hreg]%lookup_delete_Some. by apply Hurls.
  - split; [done|]. intros k0 h ws.
    destruct (onmessage_frame event st) as (_ & -> & -> & _). apply Hurls.
Qed.

Lemma registry_ok_step wsUrl st a :
  registry_wf st ∧ registry_urls wsUrl st →
  registry_wf (step wsUrl st a) ∧ registry_urls wsUrl (step wsUrl st a).
Proof.
  intros Hok. destruct a as [data| | |h k|failed h k|h k event]; cbn [step].
  - done.
  - by apply registry_ok_connect_effect.
  - split.
    + split; [intros k1 k2 h|intros k h]; cbn [effect_cleanup wsConnectionsRef];
        by rewrite lookup_empty.
    + intros k h ws. cbn [effect_cleanup wsConnectionsRef]. by rewrite lookup_empty.
  - destruct (channel_in _ _ _ _ _); [|done].
    apply (registry_ok_set_readyState wsUrl h OPEN) in Hok.
    by destruct (registry_ok_handlers wsUrl k None _ Hok) as (Hopen & _).
  - destruct (channel_in _ _ _ _ _); [|done].
    apply (registry_ok_set_readyState wsUrl h CLOSED) in Hok.
    assert (registry_wf (if failed then ws_onerror k (set_readyState h CLOSED st)
                         else set_readyState h CLOSED st) ∧
            registry_urls wsUrl (if failed then ws_onerror k (set_readyState h CLOSED st)
                                 else set_readyState h CLOSED st)) as Hok'.
    { destruct failed; [|done].
      by destruct (registry_ok_handlers wsUrl k None _ Hok) as (_ & Herror & _). }
    by destruct (registry_ok_handlers wsUrl k None _ Hok') as (_ & _ & Hclose & _).
  - destruct (channel_in _ _ _ _ _); [|done].
    by destruct (registry_ok_handlers wsUrl k event _ Hok) as (_ & _ & _ & Hmessage).
Qed.

(** X23. Whatever happens to the page, in whatever order (fetches, runs of
    the effect and of its clean-up, channel events), the registry stays
    sound: no two units are registered with the same [WebSocket] object,
    every registered object exists, and each one was opened on the URL of
    the unit it is registered for. *)
Theorem registry_sound_in_every_run wsUrl actions :
  let st := run wsUrl initial_page actions in
  registry_injective st ∧
  (∀ k h, wsConnectionsRef st !! k = Some h → is_Some (sockets st !! h)) ∧
  registry_urls wsUrl st.
Proof.
  cbv zeta.
  assert (registry_wf (run wsUrl initial_page actions) ∧
          registry_urls wsUrl (run wsUrl initial_page actions)) as [[Hinj Hlt] Hurls].
  { unfold run.
    assert (registry_wf initial_page ∧ registry_urls wsUrl initial_page) as Hinit.
    { split; [split|]; intros ?; intros; by rewrite ?lookup_empty in *. }
    revert Hinit. generalize initial_page.
    induction actions as [|a actions IH]; intros st0 Hok; [done|].
    simpl. apply IH. by apply registry_ok_step. }
  split; [done|]. split; [|done].
  intros k h Hreg. apply lookup_lt_is_Some. by eapply Hlt.
Qed.

(** *** The clean-up of the effect, and a re-run *)

Lemma cleanup_loop_sockets ss (l : list (string * nat)) h :
  foldr (λ entry ss, close_if_live entry.2 ss) ss l !! h
  = if decide (Exists (λ e : string * nat, e.2 = h) l)
    then close_live <$> ss !! h else ss !! h.
Proof.
  induction l as [|[k h0] l IH]; cbn [foldr].
  { destruct (decide (Exists _ [])) as [Hex|_]; [|done]. by apply Exists_nil in Hex. }
  rewrite close_if_live_lookup, IH. cbn [snd].
  destruct (decide (h0 = h)) as [->|Hne].
  - destruct (decide (Exists _ (_ :: _))) as [_|Hex']; [|exfalso; apply Hex'; by left].
    destruct (decide (Exists _ l)); [|done].
    rewrite <- option_fmap_compose. apply option_fmap_ext.
    intros ws. apply close_live_idemp.
  - destruct (decide (Exists _ l)) as [Hex|Hex];
      destruct (decide (Exists _ (_ :: _))) as [Hex'|Hex']; try done.
    + exfalso. apply Hex'. by right.
    + exfalso. apply Exists_cons in Hex' as [Hh|?]; done.
Qed.

Lemma cleanup_loop_length ss (l : list (string * nat)) :
  length (foldr (λ entry ss, close_if_live entry.2 ss) ss l) = length ss.
Proof.
  induction l as [|e l IH]; cbn [foldr]; [done|]. by rewrite close_if_live_length.
Qed.

(** X24. The clean-up of the effect empties the registry and closes the
    registered channels that are OPEN or CONNECTING, and nothing else: a
    channel that is not registered any more is left as it is, and the live
    set, the unit list and the toasts are not touched. *)
Theorem cleanup_closes_what_is_registered st :
  let st' := effect_cleanup st in
  wsConnectionsRef st' = ∅ ∧
  wsConnected st' = wsConnected st ∧
  units st' = units st ∧
  toasts st' = toasts st ∧
  length (sockets st') = length (sockets st) ∧
  (∀ k h, wsConnectionsRef st !! k = Some h →
          sockets st' !! h = close_live <$> sockets st !! h) ∧
  (∀ h, (∀ k, wsConnectionsRef st !! k ≠ Some h) →
        sockets st' !! h = sockets st !! h).
Proof.
  cbv zeta. unfold effect_cleanup. cbn [wsConnectionsRef wsConnected units toasts sockets].
  do 4 (split; [done|]). split; [apply cleanup_loop_length|]. split.
  - intros k h Hreg. rewrite cleanup_loop_sockets, decide_True; [done|].
    apply Exists_exists. exists (k, h). split; [|done]. by apply elem_of_map_to_list.
  - intros h Hfree. rewrite cleanup_loop_sockets, decide_False; [done|].
    intros ([k h'] & Hin & Hh)%Exists_exists. simpl in Hh. subst h'.
    apply elem_of_map_to_list in Hin. by apply (Hfree k).
Qed.

(** Every registered object is CONNECTING and was created at position [n]
    or later. *)
Lemma reconnect_loop wsUrl l st n :
  (n ≤ length (sockets st))%nat →
  (∀ k h, wsConnectionsRef st !! k = Some h →
          (n ≤ h)%nat ∧ ∃ ws, sockets st !! h = Some ws ∧ readyState ws = CONNECTING) →
  let st' := foldl (λ st unit, subscribe wsUrl (unit_id unit) st) st l in
  length (sockets st') = (length (sockets st) + length l)%nat ∧
  (∀ h, (h < length (sockets st))%nat → sockets st' !! h = sockets st !! h) ∧
  (∀ k h, wsConnectionsRef st' !! k = Some h →
          (n ≤ h)%nat ∧ ∃ ws, sockets st' !! h = Some ws ∧ readyState ws = CONNECTING).
Proof.
  cbv zeta. revert st. induction l as [|u l IH]; intros st Hn Hinv; simpl.
  - split; [lia|]. done.
  - assert (subscribe wsUrl (unit_id u) st = open_channel wsUrl (unit_id u) st) as ->.
    { destruct (subscribe_cases wsUrl (unit_id u) st)
        as [[_ (h & ws & Hreg & Hws & Hopen)]|Heq]; [|done].
      destruct (Hinv _ _ Hreg) as (_ & ws' & Hws' & Hconn). congruence. }
    destruct (IH (open_channel wsUrl (unit_id u) st)) as (Hlen & Hold & Hinv').
    + unfold open_channel. cbn [sockets]. rewrite length_app. simpl. lia.
    + intros k h. unfold open_channel. cbn [wsConnectionsRef sockets].
      rewrite lookup_insert. case_decide.
      * intros [= <-]. split; [done|]. eexists. by rewrite list_lookup_middle.
      * intros Hreg. destruct (Hinv _ _ Hreg) as (Hle & ws & Hws & Hconn).
        split; [done|]. exists ws. split; [|done]. by apply lookup_app_l_Some.
    + split; [|split; [|done]].
      * rewrite Hlen. unfold open_channel. cbn [sockets]. rewrite length_app.
        simpl. lia.
      * intros h Hh. rewrite Hold.
        -- unfold open_channel. cbn [sockets]. by rewrite lookup_app_l.
        -- unfold open_channel. cbn [sockets]. rewrite length_app. simpl. lia.
Qed.

(** X25. When the effect runs again after its clean-up, every listed unit
    is connected anew: one new channel is opened per entry of the list, no
    channel that existed before is registered again, and the old channels
    stay as the clean-up left them. *)
Theorem rerun_reconnects_every_unit wsUrl st :
  units st ≠ [] →
  let st' := connect_effect wsUrl (effect_cleanup st) in
  length (sockets st') = (length (sockets st) + length (units st))%nat ∧
  (∀ k h, wsConnectionsRef st' !! k = Some h → (length (sockets st) ≤ h)%nat) ∧
  (∀ h, (h < length (sockets st))%nat →
        sockets st' !! h = sockets (effect_cleanup st) !! h).
Proof.
  intros Hne. cbv zeta. unfold connect_effect.
  change (units (effect_cleanup st)) with (units st).
  destruct (units st) as [|u0 us] eqn:Hu; [done|].
  assert (close_stale (list_to_set (unit_id <$> u0 :: us)) (effect_cleanup st)
          = effect_cleanup st) as ->.
  { unfold close_stale. change (wsConnectionsRef (effect_cleanup st)) with
      (∅ : gmap string nat). by rewrite map_to_list_empty. }
  destruct (reconnect_loop wsUrl (u0 :: us) (effect_cleanup st) (length (sockets st)))
    as (Hlen & Hold & Hinv).
  - unfold effect_cleanup. cbn [sockets]. by rewrite cleanup_loop_length.
  - intros k h. change (wsConnectionsRef (effect_cleanup st)) with
      (∅ : gmap string nat). by rewrite lookup_empty.
  - split; [|split].
    + rewrite Hlen. unfold effect_cleanup. cbn [sockets].
      by rewrite cleanup_loop_length.
    + intros k h Hreg. by destruct (Hinv k h Hreg).
    + intros h Hh. apply Hold. unfold effect_cleanup. cbn [sockets].
      by rewrite cleanup_loop_length.
Qed.

(** *** The page as React drives it *)

Lemma effect_cleanup_nothing_registered st :
  wsConnectionsRef st = ∅ → effect_cleanup st = st.
Proof.
  intros Hreg. unfold effect_cleanup. rewrite Hreg, map_to_list_empty.
  destruct st; simpl in *; by subst.
Qed.

Lemma close_stale_nothing_registered currentUnitIds st :
  wsConnectionsRef st = ∅ → close_stale currentUnitIds st = st.
Proof. intros Hreg. unfold close_stale. by rewrite Hreg, map_to_list_empty. Qed.

(** One event keeps it so that nothing is registered while no clean-up is
    installed. *)
Lemma run_effects_nothing_registered wsUrl c :
  (cleanup_installed c = false → wsConnectionsRef (state c) = ∅) →
  cleanup_installed (run_effects wsUrl c) = false →
  wsConnectionsRef (state (run_effects wsUrl c)) = ∅.
Proof.
  intros Hinv. unfold run_effects, effect_actions.
  destruct (effect_pending c); [|done]. cbn [state cleanup_installed].
  intros Hunits%bool_decide_eq_false.
  assert (units (state c) = []) as Hnil.
  { destruct (units (state c)); [done|]. by destruct Hunits. }
  destruct (cleanup_installed c) eqn:Hc; unfold run; cbn [app foldl step].
  - unfold connect_effect. cbn [effect_cleanup units]. by rewrite Hnil.
  - unfold connect_effect. rewrite Hnil. by apply Hinv.
Qed.

Lemma react_nothing_registered wsUrl c e :
  (cleanup_installed c = false → wsConnectionsRef (state c) = ∅) →
  cleanup_installed (react wsUrl c e) = false →
  wsConnectionsRef (state (react wsUrl c e)) = ∅.
Proof.
  intros Hinv. destruct e as [data| |h k|failed h k|h k event]; cbn [react].
  - cbn [state cleanup_installed set_units wsConnectionsRef].
    by apply run_effects_nothing_registered.
  - by apply run_effects_nothing_registered.
  - unfold actions_of, run. cbn [state cleanup_installed foldl step].
    intros Hc. destruct (channel_in _ _ _ _ _); by apply Hinv.
  - unfold actions_of, run. cbn [state cleanup_installed foldl step].
    intros Hc. destruct (channel_in _ _ _ _ _); [|by apply Hinv].
    destruct failed; cbn [ws_onclose ws_onerror set_readyState wsConnectionsRef];
      rewrite (Hinv Hc); apply delete_empty.
  - unfold actions_of, run. cbn [state cleanup_installed foldl step].
    intros Hc. destruct (channel_in _ _ _ _ _); [|by apply Hinv].
    destruct (onmessage_frame event (state c)) as (_ & -> & _). by apply Hinv.
Qed.

Lemma page_run_nothing_registered wsUrl events c :
  (cleanup_installed c = false → wsConnectionsRef (state c) = ∅) →
  cleanup_installed (page_run wsUrl c events) = false →
  wsConnectionsRef (state (page_run wsUrl c events)) = ∅.
Proof.
  revert c. induction events as [|e events IH]; intros c Hinv; [done|].
  cbn [page_run foldl]. apply IH. by apply react_nothing_registered.
Qed.

(** Every event is the run of its steps, and so is every run of the page. *)
Lemma react_steps wsUrl c e :
  state (react wsUrl c e) = run wsUrl (state c) (actions_of c e).
Proof.
  destruct e as [data| |h k|failed h k|h k event]; cbn [react actions_of]; try done.
  - unfold run. rewrite foldl_app. cbn [state foldl step]. f_equal.
    unfold run_effects, effect_actions. by destruct (effect_pending c).
  - unfold run_effects, effect_actions. by destruct (effect_pending c).
Qed.

Lemma page_run_steps wsUrl events c :
  ∃ actions, state (page_run wsUrl c events) = run wsUrl (state c) actions.
Proof.
  revert c. induction events as [|e events IH]; intros c; [by exists []|].
  destruct (IH (react wsUrl c e)) as [actions Hrun].
  exists (actions_of c e ++ actions). cbn [page_run foldl].
  unfold page_run in Hrun. rewrite Hrun, react_steps. unfold run.
  by rewrite foldl_app.
Qed.

(** X26. The effect always starts from an empty registry. In every run of
    the page nothing is registered while no clean-up is installed, and React
    runs the installed clean-up before it runs the effect again. So when
    the effect runs after a fetch that changed the unit ids, the page does
    what the clean-up followed by the effect does, and the loop of the
    effect that closes the connections of units that no longer exist finds
    no entry: every channel has been closed by the clean-up already, those of
    the units still listed too. *)
Theorem effect_starts_from_empty_registry wsUrl events :
  let c := page_run wsUrl mount events in
  (cleanup_installed c = false → wsConnectionsRef (state c) = ∅) ∧
  (effect_pending c = true →
   let st := effect_cleanup (state c) in
   state (react wsUrl c EffectsRun) = connect_effect wsUrl st ∧
   wsConnectionsRef st = ∅ ∧
   close_stale (list_to_set (unit_id <$> units st)) st = st).
Proof.
  cbv zeta.
  assert (cleanup_installed (page_run wsUrl mount events) = false →
          wsConnectionsRef (state (page_run wsUrl mount events)) = ∅) as Hinv
    by by apply page_run_nothing_registered.
  split; [done|]. intros Hpending. split; [|split; [done|]].
  - cbn [react]. unfold run_effects, effect_actions. rewrite Hpending.
    cbn [state]. destruct (cleanup_installed (page_run wsUrl mount events)); [done|].
    unfold run. cbn [app foldl step].
    rewrite (effect_cleanup_nothing_registered (state _)); [done|]. by apply Hinv.
  - by apply close_stale_nothing_registered.
Qed.

(** *** The "Create Personnel" form *)

Lemma assign_property_lookup certName expirationDate cert_expirations c :
  assign_property certName expirationDate cert_expirations !! c
  = if decide (c = certName ∧ certName ≠ "__proto__") then Some expirationDate
    else cert_expirations !! c.
Proof.
  unfold assign_property. destruct (decide (certName = "__proto__")) as [Hp|Hp].
  - rewrite decide_False; [done|]. tauto.
  - destruct (decide (c = certName)) as [->|Hne].
    + rewrite lookup_insert_eq. by rewrite decide_True.
    + rewrite lookup_insert_ne by done. rewrite decide_False; [done|]. tauto.
Qed.

Lemma collect_cert_expirations_lookup (formData : gmap string string)
    (selectedCerts : list string) (acc : gmap string string) (certName : string) :
  foldl (λ (cert_expirations : gmap string string) certName,
           match formData !! cert_expiration_field certName with
           | Some expirationDate =>
               if decide (expirationDate = "") then cert_expirations
               else assign_property certName expirationDate cert_expirations
           | None => cert_expirations
           end) acc selectedCerts !! certName
  = match formData !! cert_expiration_field certName with
    | Some d => if decide (certName ∈ selectedCerts ∧ certName ≠ "__proto__" ∧ d ≠ "")
                then Some d else acc !! certName
    | None => acc !! certName
    end.
Proof.
  revert acc. induction selectedCerts as [|c l IH]; intros acc; cbn [foldl].
  - destruct (formData !! _) as [d|]; [|done].
    rewrite decide_False; [done|]. by intros [?%elem_of_nil _].
  - rewrite IH. destruct (formData !! cert_expiration_field certName) as [d|] eqn:Hd.
    + destruct (decide (certName ∈ l ∧ certName ≠ "__proto__" ∧ d ≠ ""))
        as [(Hin & Hp & Hne)|Hnot].
      * rewrite decide_True; [done|]. split; [by right|done].
      * destruct (decide (c = certName)) as [->|Hc].
        -- rewrite Hd. destruct (decide (d = "")) as [->|Hne].
           ++ rewrite decide_False; [done|]. tauto.
           ++ rewrite assign_property_lookup.
              destruct (decide (certName ≠ "__proto__")) as [Hp|Hp].
              ** rewrite !decide_True; [done| |done]. split; [left|done].
              ** rewrite !decide_False; [done|tauto|tauto].
        -- rewrite (decide_False (P := certName ∈ c :: l ∧ _)).
           ++ destruct (formData !! cert_expiration_field c) as [d'|]; [|done].
              case_decide; [done|]. rewrite assign_property_lookup.
              rewrite decide_False; [done|]. intros [? _]. congruence.
           ++ intros [[?|?]%elem_of_cons ?]; [congruence|]. by apply Hnot.
    + destruct (decide (c = certName)) as [->|Hc].
      * by rewrite Hd.
      * destruct (formData !! cert_expiration_field c) as [d'|]; [|done].
        case_decide; [done|]. rewrite assign_property_lookup.
        rewrite decide_False; [done|]. intros [? _]. congruence.
Qed.

(** X27. The [cert_expirations] of the "Create Personnel" payload records
    a date for a certification exactly when the certification is selected,
    its date field is filled and its name is not [__proto__] (an assignment
    under that name writes no key), so it never names a certification that
    is not in [certifications]; and it is left out of the payload exactly
    when no selected certification of another name than [__proto__] has a
    date. *)
Theorem payload_cert_expirations_spec formData selectedCerts :
  (∀ m, payload_cert_expirations formData selectedCerts = Some m →
        ∀ certName d,
          m !! certName = Some d ↔
          certName ∈ selectedCerts ∧ certName ≠ "__proto__" ∧
          formData !! cert_expiration_field certName = Some d ∧ d ≠ "") ∧
  (payload_cert_expirations formData selectedCerts = None ↔
   ∀ certName d, certName ∈ selectedCerts → certName ≠ "__proto__" →
                 formData !! cert_expiration_field certName = Some d → d = "").
Proof.
  assert (∀ certName d,
            collect_cert_expirations formData selectedCerts !! certName = Some d ↔
            certName ∈ selectedCerts ∧ certName ≠ "__proto__" ∧
            formData !! cert_expiration_field certName = Some d ∧ d ≠ "") as Hlook.
  { intros c d. unfold collect_cert_expirations.
    rewrite collect_cert_expirations_lookup, lookup_empty.
    destruct (formData !! cert_expiration_field c) as [d'|].
    - case_decide as Hc.
      + split; [intros [= ->]; tauto|]. by intros (_ & _ & [= ->] & _).
      + split; [done|]. intros (? & ? & [= ->] & ?). tauto.
    - split; [done|]. by intros (_ & _ & ? & _). }
  unfold payload_cert_expirations. split.
  - intros m. case_decide; [|done]. intros [= <-]. apply Hlook.
  - case_decide as Hsize.
    + split; [done|]. intros Hall. exfalso.
      destruct (map_choose (collect_cert_expirations formData selectedCerts))
        as (c & d & Hcd).
      { apply map_size_non_empty_iff. lia. }
      apply Hlook in Hcd as (Hin & Hp & Hd & Hne). by apply Hne, (Hall c).
    + split; [|done]. intros _ c d Hin Hp Hd.
      destruct (decide (d = "")) as [|Hne]; [done|exfalso].
      apply Hsize.
      assert (collect_cert_expirations formData selectedCerts !! c = Some d) as Hcd
        by by apply Hlook.
      assert (size (collect_cert_expirations formData selectedCerts) ≠ 0)%nat; [|lia].
      apply map_size_non_empty_iff. intros Hempty. by rewrite Hempty in Hcd.
Qed.

End DashboardProperties.

(** ** The properties of the warehouse on concrete tables *)

Module WarehouseRuns.
Import Warehouse WarehouseSpec WarehouseData WarehouseScenarios WarehouseProperties.

Local Open Scope Z_scope.

Lemma run_db_engine5 : process_personnel_readiness 100 db_engine5 = [snapshot_engine5].
Proof. vm_compute. reflexivity. Defined.

Lemma summary_db_eli_ann :
  certification_expiration_summary 100 db_eli_ann = [expiry_ann; expiry_eli].
Proof. vm_compute. reflexivity. Defined.

(** Dee and Fay on Rescue 7: two persons counted, one of them available. *)
Lemma staff_counts_bounds_witness :
  snapshot_dee_fay ∈ process_personnel_readiness 100 (add_assignment fay_on_rescue7 db_dee) ∧
  1 ≤ source.current_staff snapshot_dee_fay ∧
  0 ≤ source.available_staff snapshot_dee_fay ≤ source.current_staff snapshot_dee_fay.
Proof.
  assert (snapshot_dee_fay
          ∈ process_personnel_readiness 100 (add_assignment fay_on_rescue7 db_dee)) as Hin
    by (rewrite run_db_dee_fay; in_table).
  split; [exact Hin|]. exact (staff_counts_bounds _ _ _ Hin).
Defined.

(** Dee and Eli on Rescue 7: ACLS is missing, and Rescue 7 requires it. *)
Lemma missing_certifications_sorted_witness :
  snapshot_dee_eli ∈ process_personnel_readiness 100 (add_assignment eli_on_rescue7 db_dee) ∧
  StronglySorted String.le (source.missing_certifications snapshot_dee_eli) ∧
  NoDup (source.missing_certifications snapshot_dee_eli) ∧
  ∀ c, c ∈ source.missing_certifications snapshot_dee_eli →
       ∃ u, u ∈ RAW_UNITS (add_assignment eli_on_rescue7 db_dee) ∧
            UNITS.unit_id u = source.unit_id snapshot_dee_eli ∧
            c ∈ UNITS.required_certifications u.
Proof.
  assert (snapshot_dee_eli
          ∈ process_personnel_readiness 100 (add_assignment eli_on_rescue7 db_dee)) as Hin
    by (rewrite run_db_dee_eli; in_table).
  split; [exact Hin|]. exact (missing_certifications_sorted _ _ _ Hin).
Defined.

(** Rescue 7 with Dee alone is flagged and scores 30. *)
Lemma understaffed_iff_low_score_witness :
  snapshot_dee ∈ process_personnel_readiness 100 db_dee ∧
  (source.understaffed_flag snapshot_dee = true ↔ source.readiness_score snapshot_dee ≤ 50) ∧
  (source.understaffed_flag snapshot_dee = false ↔ 70 ≤ source.readiness_score snapshot_dee).
Proof.
  assert (snapshot_dee ∈ process_personnel_readiness 100 db_dee) as Hin
    by (rewrite run_db_dee; in_table).
  split; [exact Hin|]. exact (understaffed_iff_low_score _ _ _ Hin).
Defined.

(** Engine 5 with four of five scores 50. *)
Lemma score_50_needs_minimum_of_five_witness :
  snapshot_engine5 ∈ process_personnel_readiness 100 db_engine5 ∧
  source.readiness_score snapshot_engine5 = 50 ∧
  ∃ m, source.minimum_staff snapshot_engine5 = Some m ∧ 5 ≤ m ∧
       4 ≤ source.current_staff snapshot_engine5 < m.
Proof.
  assert (snapshot_engine5 ∈ process_personnel_readiness 100 db_engine5) as Hin
    by (rewrite run_db_engine5; in_table).
  assert (source.readiness_score snapshot_engine5 = 50) as H50 by reflexivity.
  split; [exact Hin|]. split; [exact H50|].
  exact (score_50_needs_minimum_of_five _ _ _ Hin H50).
Defined.

Lemma db_ann_shuffled_same : same_for_readiness db_ann db_ann_shuffled.
Proof.
  repeat split; intros Hin;
    repeat (apply elem_of_cons in Hin as [->|Hin]);
    first [in_table | by apply elem_of_nil in Hin].
Defined.

(** The shuffled tables give the snapshot of [db_ann]. *)
Lemma readiness_reads_rows_as_sets_witness :
  same_for_readiness db_ann db_ann_shuffled ∧
  same_rows (process_personnel_readiness 100 db_ann)
            (process_personnel_readiness 100 db_ann_shuffled).
Proof.
  split; [exact db_ann_shuffled_same|].
  exact (readiness_reads_rows_as_sets 100 _ _ db_ann_shuffled_same).
Defined.

(** The run on [db_dee] finds the row stored earlier in the day. *)
Lemma task_stores_snapshot_witness :
  snapshot_dee ∈ process_personnel_readiness 100 db_dee ∧
  (∃ t, t ∈ process_personnel_readiness_task 100 db_dee [stored_dee] ∧
        on_target t snapshot_dee) ∧
  ∀ t, t ∈ process_personnel_readiness_task 100 db_dee [stored_dee] →
       on_target t snapshot_dee →
       target.calculated_at t = 100 ∧
       target.current_staff t = source.current_staff snapshot_dee ∧
       target.available_staff t = source.available_staff snapshot_dee ∧
       target.readiness_score t = source.readiness_score snapshot_dee ∧
       target.missing_certifications t = source.missing_certifications snapshot_dee ∧
       target.understaffed_flag t = source.understaffed_flag snapshot_dee ∧
       target.last_updated t = 100.
Proof.
  assert (snapshot_dee ∈ process_personnel_readiness 100 db_dee) as Hin
    by (rewrite run_db_dee; in_table).
  split; [exact Hin|]. exact (task_stores_snapshot 100 db_dee [stored_dee] _ Hin).
Defined.

Lemma task_keeps_stored_rows_witness :
  [stored_dee] !! 0%nat = Some stored_dee ∧
  ∃ t', process_personnel_readiness_task 100 db_dee [stored_dee] !! 0%nat = Some t' ∧
        target.unit_id t' = target.unit_id stored_dee ∧
        target.date t' = target.date stored_dee ∧
        target.unit_name t' = target.unit_name stored_dee ∧
        target.type t' = target.type stored_dee ∧
        target.minimum_staff t' = target.minimum_staff stored_dee ∧
        ((∀ s, s ∈ process_personnel_readiness 100 db_dee → ¬ on_target stored_dee s) →
         t' = stored_dee).
Proof.
  assert ([stored_dee] !! 0%nat = Some stored_dee) as Hi by reflexivity.
  split; [exact Hi|]. exact (task_keeps_stored_rows 100 db_dee _ _ _ Hi).
Defined.

Lemma view_shows_latest_run_witness :
  snapshot_dee ∈ process_personnel_readiness 100 db_dee ∧
  (∃ v, v ∈ current_unit_readiness 100 db_dee
              (process_personnel_readiness_task 100 db_dee [stored_dee]) ∧
        current_readiness.unit_id v = source.unit_id snapshot_dee) ∧
  ∀ v, v ∈ current_unit_readiness 100 db_dee
             (process_personnel_readiness_task 100 db_dee [stored_dee]) →
       current_readiness.unit_id v = source.unit_id snapshot_dee →
       current_readiness.calculated_at v = 100 ∧
       current_readiness.current_staff v = source.current_staff snapshot_dee ∧
       current_readiness.available_staff v = source.available_staff snapshot_dee ∧
       current_readiness.readiness_score v = source.readiness_score snapshot_dee ∧
       current_readiness.missing_certifications v
       = source.missing_certifications snapshot_dee ∧
       current_readiness.understaffed_flag v = source.understaffed_flag snapshot_dee ∧
       current_readiness.readiness_status v
       = readiness_status (source.readiness_score snapshot_dee).
Proof.
  assert (snapshot_dee ∈ process_personnel_readiness 100 db_dee) as Hin
    by (rewrite run_db_dee; in_table).
  split; [exact Hin|]. exact (view_shows_latest_run 100 db_dee [stored_dee] _ Hin).
Defined.

(** Medic 1 with Bob and Cy scores 85: READY. *)
Lemma readiness_status_of_snapshot_witness :
  snapshot_bob_cy ∈ process_personnel_readiness 100 db_bob_cy ∧
  (readiness_status (source.readiness_score snapshot_bob_cy) = "CRITICAL" ↔
   source.understaffed_flag snapshot_bob_cy = true) ∧
  (readiness_status (source.readiness_score snapshot_bob_cy) = "NEEDS_ATTENTION" ↔
   source.readiness_score snapshot_bob_cy = 70) ∧
  (readiness_status (source.readiness_score snapshot_bob_cy) = "READY" ↔
   ∃ m, source.minimum_staff snapshot_bob_cy = Some m ∧
        m ≤ source.current_staff snapshot_bob_cy ∧
        m ≤ source.available_staff snapshot_bob_cy).
Proof.
  assert (snapshot_bob_cy ∈ process_personnel_readiness 100 db_bob_cy) as Hin
    by (rewrite run_db_bob_cy; in_table).
  split; [exact Hin|]. exact (readiness_status_of_snapshot _ _ _ Hin).
Defined.

(** Ann's EMT-P expired at 50, earlier on the day of the run. *)
Lemma expiration_summary_status_witness :
  expiry_ann ∈ certification_expiration_summary 100 db_eli_ann ∧
  expiration_summary.days_until_expiry expiry_ann = 50 `div` 86400 - 100 `div` 86400 ∧
  (expiration_summary.status expiry_ann = "EXPIRED" ↔ 50 < 100) ∧
  (expiration_summary.status expiry_ann = "EXPIRING_SOON" ↔
   100 ≤ 50 ∧ expiration_summary.days_until_expiry expiry_ann ≤ 30) ∧
  (expiration_summary.status expiry_ann = "VALID" ↔
   30 < expiration_summary.days_until_expiry expiry_ann) ∧
  (50 < 100 → expiration_summary.days_until_expiry expiry_ann ≤ 0) ∧
  (100 ≤ 50 → 0 ≤ expiration_summary.days_until_expiry expiry_ann).
Proof.
  assert (expiry_ann ∈ certification_expiration_summary 100 db_eli_ann) as Hin
    by (rewrite summary_db_eli_ann; in_table).
  split; [exact Hin|]. exact (expiration_summary_status _ _ _ Hin).
Defined.

(** Eli's row is stored first and listed second. *)
Lemma expiration_summary_sorted_witness :
  (0 < 1)%nat ∧
  certification_expiration_summary 100 db_eli_ann !! 0%nat = Some expiry_ann ∧
  certification_expiration_summary 100 db_eli_ann !! 1%nat = Some expiry_eli ∧
  expiration_summary.expiration_date expiry_ann
  ≤ expiration_summary.expiration_date expiry_eli ∧
  (expiration_summary.status expiry_eli = "EXPIRED" →
   expiration_summary.status expiry_ann = "EXPIRED").
Proof.
  assert (0 < 1)%nat as Hlt by lia.
  assert (certification_expiration_summary 100 db_eli_ann !! 0%nat = Some expiry_ann) as H0
    by (rewrite summary_db_eli_ann; reflexivity).
  assert (certification_expiration_summary 100 db_eli_ann !! 1%nat = Some expiry_eli) as H1
    by (rewrite summary_db_eli_ann; reflexivity).
  split; [exact Hlt|]. split; [exact H0|]. split; [exact H1|].
  exact (expiration_summary_sorted _ _ _ _ _ _ Hlt H0 H1).
Defined.

End WarehouseRuns.

(** ** The properties of the page on concrete states *)

Module DashboardRuns.
Import Dashboard DashboardSpec DashboardData DashboardProperties.

(** Medic 1 was CONNECTING and Rescue 7 OPEN: both are registered after
    the effect. *)
Lemma effect_registers_listed_units_witness :
  units page_two_units ≠ [] ∧
  dom (wsConnectionsRef (connect_effect wsUrl page_two_units))
  = list_to_set (unit_id <$> units page_two_units) ∧
  ∀ u, u ∈ units page_two_units →
       registered_live (connect_effect wsUrl page_two_units) (unit_id u).
Proof.
  assert (units page_two_units ≠ []) as Hne by discriminate.
  split; [exact Hne|]. exact (effect_registers_listed_units wsUrl page_two_units Hne).
Defined.

(** Two channels existed; the re-run opens the third and the fourth. *)
Lemma rerun_reconnects_every_unit_witness :
  units page_two_units ≠ [] ∧
  length (sockets (connect_effect wsUrl (effect_cleanup page_two_units)))
  = (length (sockets page_two_units) + length (units page_two_units))%nat ∧
  (∀ k h, wsConnectionsRef (connect_effect wsUrl (effect_cleanup page_two_units)) !! k
          = Some h →
          (length (sockets page_two_units) ≤ h)%nat) ∧
  (∀ h, (h < length (sockets page_two_units))%nat →
        sockets (connect_effect wsUrl (effect_cleanup page_two_units)) !! h
        = sockets (effect_cleanup page_two_units) !! h).
Proof.
  assert (units page_two_units ≠ []) as Hne by discriminate.
  split; [exact Hne|]. exact (rerun_reconnects_every_unit wsUrl page_two_units Hne).
Defined.

(** The parsed text of a snapshot is the snapshot. *)
Lemma rescue7_understaffed_json_typed :
  as_UnitReadiness rescue7_understaffed_json = Some rescue7_understaffed.
Proof. reflexivity. Qed.

(** A message for Rescue 7 that lacks the certification arrays, on the
    page that lists Rescue 7: the updater throws and the page is unmounted;
    the complete snapshot is rendered, with its alert. *)
Lemma onmessage_keeps_connections_witness :
  ws_onmessage_json (Some message_without_arrays) page_two_units = Unmounted ∧
  ws_onmessage_json
    (Some (JObject [("type", JString "unit_readiness");
                    ("data", rescue7_understaffed_json)])) page_two_units
  = Rendered (ws_onmessage (Some (mkMessage "unit_readiness" rescue7_understaffed))
                page_two_units) ∧
  toasts (ws_onmessage (Some (mkMessage "unit_readiness" rescue7_understaffed))
            page_two_units)
  = [understaffed_toast rescue7_understaffed].
Proof.
  destruct (onmessage_keeps_connections (Some message_without_arrays) page_two_units)
    as (_ & Hthrows & _).
  destruct (onmessage_keeps_connections
              (Some (JObject [("type", JString "unit_readiness");
                              ("data", rescue7_understaffed_json)])) page_two_units)
    as (_ & _ & _ & Htyped).
  split; [|split; [|reflexivity]].
  - apply Hthrows. eexists. split; [reflexivity|]. split; [reflexivity|]. right.
    exists [("unit_id", JString "U7")], "U7".
    split; [reflexivity|]. split; [reflexivity|]. split; [by eexists|by left].
  - by eapply Htyped.
Defined.

(** After the first fetch the effect is pending; when it runs, two
    channels are opened from the empty registry. *)
Lemma effect_starts_from_empty_registry_witness :
  effect_pending (page_run wsUrl mount [FetchSucceeds [rescue7_staffed; medic1_staffed]])
  = true ∧
  state (page_run wsUrl mount [FetchSucceeds [rescue7_staffed; medic1_staffed]; EffectsRun])
  = connect_effect wsUrl
      (effect_cleanup
         (state (page_run wsUrl mount [FetchSucceeds [rescue7_staffed; medic1_staffed]]))) ∧
  length (sockets (state (page_run wsUrl mount
                            [FetchSucceeds [rescue7_staffed; medic1_staffed]; EffectsRun])))
  = 2%nat.
Proof.
  assert (effect_pending
            (page_run wsUrl mount [FetchSucceeds [rescue7_staffed; medic1_staffed]])
          = true) as Hpending by reflexivity.
  destruct (effect_starts_from_empty_registry wsUrl
              [FetchSucceeds [rescue7_staffed; medic1_staffed]]) as (_ & Hrun).
  destruct (Hrun Hpending) as (Heq & _ & _).
  split; [exact Hpending|]. split; [exact Heq|reflexivity].
Defined.

End DashboardRuns.
